(** * Beatrix: the automation runtime's tool loop, scheduler step, graders and
      configuration persistence

    A shallow embedding of the TypeScript sources

    - [server/ollama.ts]: the Ollama provider and its tool loop
      (module [Ollama]);
    - [server/workflow/scheduler-step.ts]: [rescheduleAutomations] and
      [runSchedulerForAutomation] (module [SchedulerStep]);
    - the evaluation framework, [runScenario] and
      [gradeViaSearchForContent], in [server/evals/call-service.ts]
      (module [EvalFramework]);
    - the configuration file, [loadConfig] and [saveConfig], in
      [server/api.ts] (module [Config]);
    - [LiveHomeAssistantApi.callService] of [server/lib/ha-ws-api.ts], known
      through its test-suite only (module [HaWsApi]);
    - what these files hold besides: the tool map of the provider (module
      [OllamaMore]), the totals of [evalCommand] and of the evals page
      (module [EvalTotals]), [getDriverList], [migrateConfig] and
      [createConfigViaEnv] (module [ConfigBoot]), the relative file names
      of [filterAutomationPaths] and of the bug-report dump (module
      [NotebookPaths]), and [crappyEscaper] of the chat page (module
      [ChatMessage]);

    followed by the properties of the specification that concern them, and
    by further properties of the code.

    Conventions.  A JavaScript string is a [string]: a sequence of code units,
    here restricted to the 8-bit range.  Calls that leave the process (the
    model provider, the tool clients, the clock, the database) are taken from
    an explicit environment that is threaded through the code as a state; a
    promise that may reject is a value of a sum type.  Every generator is
    modelled by the finite list of events it produces. *)

From Stdlib Require Import ZArith NArith String Ascii List DecimalString Bool Lia.
From stdpp Require Import base option list strings gmap.

Import ListNotations.

(** ** JavaScript strings *)

Module JsString.

(** [String.prototype.includes]: [needle] occurs as a contiguous run of
    code units somewhere in [s]. *)
Fixpoint includes (s needle : string) : bool :=
  String.prefix needle s
  || match s with
     | EmptyString => false
     | String _ s' => includes s' needle
     end.

(** The code units removed by [String.prototype.trim] (ECMAScript
    WhiteSpace and LineTerminator) that fit in 8 bits: TAB, LF, VT, FF, CR,
    SP and NBSP. *)
Definition isWhiteSpace (c : ascii) : bool :=
  let n := nat_of_ascii c in
  ((9 <=? n) && (n <=? 13)) || (n =? 32) || (n =? 160).

Fixpoint trimStart (s : string) : string :=
  match s with
  | EmptyString => EmptyString
  | String c s' => if isWhiteSpace c then trimStart s' else s
  end.

Definition reverse (s : string) : string :=
  string_of_list_ascii (rev (list_ascii_of_string s)).

Definition trimEnd (s : string) : string := reverse (trimStart (reverse s)).

Definition trim (s : string) : string := trimEnd (trimStart s).

(** Truthiness of a string: every string but the empty one. *)
Definition truthy (s : string) : bool :=
  match s with EmptyString => false | String _ _ => true end.

(** Every code unit of the string is white space. *)
Fixpoint blank (s : string) : bool :=
  match s with
  | EmptyString => true
  | String c s' => isWhiteSpace c && blank s'
  end.

(** [Array.prototype.join]. *)
Definition join (sep : string) (l : list string) : string := String.concat sep l.

(** [`${n}`] for a non-negative integer [n]: its decimal digits. *)
Definition show_N (n : N) : string := NilZero.string_of_uint (N.to_uint n).

Definition isDigit (c : ascii) : bool :=
  let n := nat_of_ascii c in (48 <=? n) && (n <=? 57).

Fixpoint all_chars (p : ascii -> bool) (s : string) : bool :=
  match s with
  | EmptyString => true
  | String c s' => p c && all_chars p s'
  end.

Definition newline : string := String "010"%char EmptyString.

End JsString.

(** ** JSON values

    [JSON.parse] and [JSON.stringify] belong to the JavaScript runtime; the
    code only moves their results around, so they are parameters of the
    development. *)

#[local] Unset Elimination Schemes.
Inductive Json : Type :=
| JNull
| JBool (b : bool)
| JNumber (n : Z)
| JString (s : string)
| JArray (items : list Json)
| JObject (fields : list (string * Json)).
#[local] Set Elimination Schemes.

(** ** The Ollama provider: [server/ollama.ts] *)

Module Ollama.

(** Safety limit for iterations. *)
Definition MAX_ITERATIONS : nat := 10.

(** Timeout configuration (in milliseconds). *)
Definition TOOL_EXECUTION_TIMEOUT : N := 60 * 1000.
Definition OLLAMA_API_TIMEOUT : N := 5 * 60 * 1000.

(** *** Messages of the two vendors *)

Inductive Role : Type := user | assistant | tool | system.

Definition Role_eqb (a b : Role) : bool :=
  match a, b with
  | user, user | assistant, assistant | tool, tool | system, system => true
  | _, _ => false
  end.

(** [ToolCall] of the Ollama client: [{ function: { name, arguments } }]. *)
Record ToolCall : Type := mkToolCall {
  function_name : string;
  function_arguments : Json
}.

(** [Message] of the Ollama client; [tool_calls] is an optional field. *)
Record Message : Type := mkMessage {
  role : Role;
  content : string;
  tool_calls : option (list ToolCall)
}.

(** [ContentBlockParam] of the Anthropic SDK; the kinds the code does not
    look at (images, documents, ...) are [OtherBlock]. *)
Inductive ContentBlockParam : Type :=
| TextBlock (text : string)
| ToolUseBlock (id : string) (name : string) (input : Json)
| ToolResultBlock (tool_use_id : string) (result : Json)
| OtherBlock.

Inductive MessageContent : Type :=
| ContentString (s : string)
| ContentBlocks (blocks : list ContentBlockParam).

(** [MessageParam] of the Anthropic SDK, the canonical shape. *)
Record MessageParam : Type := mkMessageParam {
  mp_role : Role;
  mp_content : MessageContent
}.

(** What [await withTimeout(promise, ms, message)] gives: the value of the
    promise, the [TimeoutError] of [lib/promise-extras], or whatever else
    the promise rejected with ([err.message], or [String(err)]). *)
Inductive Awaited (A : Type) : Type :=
| Fulfilled (a : A)
| TimeoutError (message : string)
| OtherError (message : string).
Arguments Fulfilled {A} a.
Arguments TimeoutError {A} message.
Arguments OtherError {A} message.

(** A tool as [client.listTools()] reports it, and as it is handed to the
    model. *)
Record ToolInfo : Type := mkToolInfo {
  tool_name : string;
  tool_description : option string;
  inputSchema : Json
}.

Record Tool : Type := mkTool {
  fn_name : string;
  fn_description : string;
  fn_parameters : Json
}.

(** The MCP clients are numbered like the tool servers they are connected
    to. *)
Definition Client : Type := nat.

(** What the generator does, in order. *)
Inductive Event : Type :=
| EChat (messages : list Message) (tools : list Tool) (timeoutMs : N)
        (response : Awaited Message)
| ECallTool (client : Client) (name : string) (arguments : Json)
            (timeoutMs : N) (response : Awaited Json)
| EYield (m : Message).

(** How the generator ends: it returns, or an exception escapes. *)
Inductive Completion : Type := Returned | Threw (err : string).

Definition isChat (e : Event) : bool :=
  match e with EChat _ _ _ _ => true | _ => false end.

Definition chat_requests (tr : list Event) : nat := length (List.filter isChat tr).

(** The messages the generator yields. *)
Fixpoint yielded (tr : list Event) : list Message :=
  match tr with
  | [] => []
  | EYield m :: tr' => m :: yielded tr'
  | _ :: tr' => yielded tr'
  end.

(** The number of tool calls the model asked for. *)
Definition requested_calls (m : Message) : nat :=
  match tool_calls m with Some calls => length calls | None => 0 end.

Fixpoint tool_calls_requested (tr : list Event) : nat :=
  match tr with
  | [] => 0
  | EChat _ _ _ (Fulfilled m) :: tr' => requested_calls m + tool_calls_requested tr'
  | _ :: tr' => tool_calls_requested tr'
  end.

(** [!response.message.tool_calls || response.message.tool_calls.length < 1] *)
Definition no_tool_calls (m : Message) : bool :=
  match tool_calls m with
  | None => true
  | Some calls => length calls <? 1
  end.

Definition timeoutApology : Message :=
  {| role := assistant;
     content := "I apologize, but the AI service took too long to respond. Let's continue with what we have so far.";
     tool_calls := None |}.

Definition toolMessage (text : string) : Message :=
  {| role := tool; content := text; tool_calls := None |}.

Definition toolNotFound (name : string) : string :=
  "System error: Tool '" +:+ name +:+ "' not found.".

Definition toolTimedOut (name : string) : string :=
  "Tool '" +:+ name +:+ "' execution timed out after "
    +:+ JsString.show_N TOOL_EXECUTION_TIMEOUT +:+ "ms".

Definition toolFailed (name err : string) : string :=
  "Error executing tool '" +:+ name +:+ "': " +:+ err.


Section Provider.

(** The environment of one invocation: the state of everything outside
    the process, the provider call and the tool call (each already under
    its [withTimeout]), the [n]-th reading of [Date.now()], and the JSON
    functions of the runtime. *)
Variable World : Type.
Variable chat :
  World -> list Message -> list Tool -> N -> Awaited Message * World.
Variable callTool :
  World -> Client -> string -> Json -> N -> Awaited Json * World.
Variable Date_now : nat -> N.
Variable JSON_parse : string -> option Json.
Variable JSON_stringify : Json -> string.

(** [Date.now()] is read once for a [tool] message and once for each tool
    call of an assistant message; [clock] counts the readings made so
    far. *)
Definition toolUseBlock (clock : nat) (call : ToolCall) : ContentBlockParam :=
  ToolUseBlock
    ("toolu_" +:+ function_name call +:+ "_" +:+ JsString.show_N (Date_now clock))
    (function_name call) (function_arguments call).

Fixpoint toolUseBlocks (clock : nat) (calls : list ToolCall)
  : list ContentBlockParam * nat :=
  match calls with
  | [] => ([], clock)
  | call :: calls' =>
      let '(blocks, clock') := toolUseBlocks (S clock) calls' in
      (toolUseBlock clock call :: blocks, clock')
  end.

(** [convertOllamaMessageToAnthropic], with the number of clock readings
    made so far going in and out. *)
Definition convertOllamaMessageToAnthropic (clock : nat) (msg : Message)
  : MessageParam * nat :=
  match role msg, tool_calls msg with
  | tool, _ =>
      let parsedContent :=
        match JSON_parse (content msg) with
        | Some v => v
        | None => JString (content msg)
        end in
      let toolUseId := "toolu_" +:+ JsString.show_N (Date_now clock) in
      ({| mp_role := user;
          mp_content := ContentBlocks [ToolResultBlock toolUseId parsedContent] |},
       S clock)
  | assistant, Some calls =>
      let text :=
        if JsString.truthy (content msg) then [TextBlock (content msg)] else [] in
      let '(uses, clock') := toolUseBlocks clock calls in
      ({| mp_role := assistant; mp_content := ContentBlocks (text ++ uses) |},
       clock')
  | r, _ =>
      ({| mp_role := r; mp_content := ContentString (content msg) |}, clock)
  end.

Definition isToolResult (b : ContentBlockParam) : bool :=
  match b with ToolResultBlock _ _ => true | _ => false end.

Definition blockText (b : ContentBlockParam) : string :=
  match b with
  | TextBlock text => text
  | ToolUseBlock _ name _ => "[Requesting tool: " +:+ name +:+ "]"
  | _ => ""
  end.

(** [convertAnthropicMessageToOllama] *)
Definition convertAnthropicMessageToOllama (msg : MessageParam) : Message :=
  let standard :=
    {| role := mp_role msg;
       content :=
         match mp_content msg with
         | ContentString s => s
         | ContentBlocks blocks => JsString.join JsString.newline (map blockText blocks)
         end;
       tool_calls := None |} in
  match mp_role msg, mp_content msg with
  | user, ContentBlocks blocks =>
      match List.find isToolResult blocks with
      | Some (ToolResultBlock _ result) => toolMessage (JSON_stringify result)
      | _ => standard
      end
  | _, _ => standard
  end.

(** The stream of [executePromptWithTools]: every yielded message goes
    through [convertOllamaMessageToAnthropic] as it is emitted. *)
Fixpoint convertAll (clock : nat) (ms : list Message) : list MessageParam :=
  match ms with
  | [] => []
  | m :: ms' =>
      let '(p, clock') := convertOllamaMessageToAnthropic clock m in
      p :: convertAll clock' ms'
  end.

(** [ollamaTools] and [toolClientMap]: the tools of all clients, in the
    order of the clients; a name offered twice belongs to the later
    client.  [toolLists] holds what [client.listTools()] gave for each
    client, [None] where it failed (then the client has no tools). *)
Definition toOllamaTool (t : ToolInfo) : Tool :=
  {| fn_name := tool_name t;
     fn_description := default "" (tool_description t);
     fn_parameters := inputSchema t |}.

Fixpoint aggregateTools (index : nat) (toolLists : list (option (list ToolInfo)))
    (acc : list Tool * gmap string Client) : list Tool * gmap string Client :=
  match toolLists with
  | [] => acc
  | listed :: rest =>
      let tools := default [] listed in
      aggregateTools (S index) rest
        (fold_left
           (fun a t => (fst a ++ [toOllamaTool t], <[tool_name t := index]> (snd a)))
           tools acc)
  end.

Section Loop.

Variable ollamaTools : list Tool.
Variable toolClientMap : gmap string Client.

(** [for (const toolCall of toolCalls) { ... }]: every call ends in one
    pushed and yielded [tool] message; nothing is thrown. *)
Fixpoint forToolCalls (toolCalls : list ToolCall) (w : World) (msgs : list Message)
  : list Event * list Message * World :=
  match toolCalls with
  | [] => ([], msgs, w)
  | toolCall :: rest =>
      let name := function_name toolCall in
      match toolClientMap !! name with
      | None =>
          let m := toolMessage (toolNotFound name) in
          let '(tr, msgs', w') := forToolCalls rest w (msgs ++ [m]) in
          (EYield m :: tr, msgs', w')
      | Some client =>
          let '(toolResp, w1) :=
            callTool w client name (function_arguments toolCall)
              TOOL_EXECUTION_TIMEOUT in
          let m :=
            toolMessage
              match toolResp with
              | Fulfilled result => JSON_stringify result
              | TimeoutError _ => toolTimedOut name
              | OtherError err => toolFailed name err
              end in
          let '(tr, msgs', w') := forToolCalls rest w1 (msgs ++ [m]) in
          (ECallTool client name (function_arguments toolCall)
             TOOL_EXECUTION_TIMEOUT toolResp
             :: EYield m :: tr, msgs', w')
      end
  end.

(** [while (iterationCount < MAX_ITERATIONS) { iterationCount++ ... }],
    by recursion on the iterations left,
    [MAX_ITERATIONS - iterationCount]. *)
Fixpoint whileLoop (left : nat) (w : World) (msgs : list Message)
  : list Event * Completion * World :=
  match left with
  | 0 => ([], Returned, w)
  | S left' =>
      let '(response, w1) := chat w msgs ollamaTools OLLAMA_API_TIMEOUT in
      let request := EChat msgs ollamaTools OLLAMA_API_TIMEOUT response in
      match response with
      | TimeoutError _ =>
          let '(tr, c, w') := whileLoop left' w1 (msgs ++ [timeoutApology]) in
          (request :: EYield timeoutApology :: tr, c, w')
      | OtherError err => ([request], Threw err, w1)
      | Fulfilled message =>
          if no_tool_calls message
          then ([request; EYield message], Returned, w1)
          else
            let '(calls, msgs2, w2) :=
              forToolCalls (default [] (tool_calls message)) w1 (msgs ++ [message]) in
            let '(tr, c, w') := whileLoop left' w2 msgs2 in
            (request :: EYield message :: calls ++ tr, c, w')
      end
  end.

End Loop.

(** [_executePromptWithTools]: the events of the generator, how it ends,
    and the world it leaves. *)
Definition _executePromptWithTools (prompt : string)
    (toolLists : list (option (list ToolInfo)))
    (previousMessages : option (list MessageParam)) (w : World)
  : list Event * Completion * World :=
  let '(ollamaTools, toolClientMap) := aggregateTools 0 toolLists ([], ∅) in
  let msgs := map convertAnthropicMessageToOllama (default [] previousMessages) in
  if JsString.truthy (JsString.trim prompt)
  then
    let m := {| role := user; content := prompt; tool_calls := None |} in
    let '(tr, c, w') :=
      whileLoop ollamaTools toolClientMap MAX_ITERATIONS w (msgs ++ [m]) in
    (EYield m :: tr, c, w')
  else whileLoop ollamaTools toolClientMap MAX_ITERATIONS w msgs.

Definition events (r : list Event * Completion * World) : list Event := fst (fst r).
Definition completion (r : list Event * Completion * World) : Completion := snd (fst r).

(** [executePromptWithTools]: the messages of the observable, in the
    canonical shape. *)
Definition executePromptWithTools (prompt : string)
    (toolLists : list (option (list ToolInfo)))
    (previousMessages : option (list MessageParam)) (w : World)
  : list MessageParam :=
  convertAll 0
    (yielded (events (_executePromptWithTools prompt toolLists previousMessages w))).

End Provider.

Arguments forToolCalls {World} callTool JSON_stringify toolClientMap toolCalls w msgs.
Arguments whileLoop {World} chat callTool JSON_stringify ollamaTools toolClientMap
  left w msgs.
Arguments _executePromptWithTools {World} chat callTool JSON_stringify
  prompt toolLists previousMessages w.
Arguments executePromptWithTools {World} chat callTool Date_now JSON_parse JSON_stringify
  prompt toolLists previousMessages w.
Arguments events {World} r.
Arguments completion {World} r.

(** *** The shape of the events of the loop *)

Section Shape.

Variable JSON_stringify : Json -> string.
Variable ollamaTools : list Tool.
Variable toolClientMap : gmap string Client.

(** What a [tool] message answers a call with. *)
Definition answersCall (call : ToolCall) (m : Message) : Prop :=
  role m = tool /\ tool_calls m = None /\
  (toolClientMap !! function_name call = None ->
   content m = toolNotFound (function_name call)).

(** The events of a round of tool calls, call by call. *)
Fixpoint toolRound (calls : list ToolCall) (tr : list Event) : Prop :=
  match calls with
  | [] => tr = []
  | call :: calls' =>
      let name := function_name call in
      match toolClientMap !! name with
      | None =>
          exists tr', tr = EYield (toolMessage (toolNotFound name)) :: tr'
                      /\ toolRound calls' tr'
      | Some client =>
          exists response tr',
            tr = ECallTool client name (function_arguments call)
                   TOOL_EXECUTION_TIMEOUT response
                 :: EYield (toolMessage
                              match response with
                              | Fulfilled result => JSON_stringify result
                              | TimeoutError _ => toolTimedOut name
                              | OtherError err => toolFailed name err
                              end)
                 :: tr'
            /\ toolRound calls' tr'
      end
  end.

Definition request (msgs : list Message) (response : Awaited Message) : Event :=
  EChat msgs ollamaTools OLLAMA_API_TIMEOUT response.

(** The events of the loop and the way it ends, when it starts with
    [left] iterations to go and the conversation [msgs]: one rule for
    each way through the body of the loop. *)
Inductive loopTrace : nat -> list Message -> list Event -> Completion -> Prop :=
| loop_exhausted msgs :
    loopTrace 0 msgs [] Returned
| loop_timeout left msgs e tr c :
    loopTrace left (msgs ++ [timeoutApology]) tr c ->
    loopTrace (S left) msgs
      (request msgs (TimeoutError e) :: EYield timeoutApology :: tr) c
| loop_error left msgs err :
    loopTrace (S left) msgs [request msgs (OtherError err)] (Threw err)
| loop_answer left msgs message :
    no_tool_calls message = true ->
    loopTrace (S left) msgs
      [request msgs (Fulfilled message); EYield message] Returned
| loop_tools left msgs message calls tr c :
    no_tool_calls message = false ->
    toolRound (default [] (tool_calls message)) calls ->
    loopTrace left (msgs ++ message :: yielded calls) tr c ->
    loopTrace (S left) msgs
      (request msgs (Fulfilled message) :: EYield message :: calls ++ tr) c.

End Shape.

(** The names of the tools the clients offer. *)
Definition offered (toolLists : list (option (list ToolInfo))) : list string :=
  flat_map (fun listed => map tool_name (default [] listed)) toolLists.

Definition notChat (e : Event) : Prop := isChat e = false.

(** *** The pairing invariant, on a sequence of canonical messages *)

Definition blocksOf (m : MessageParam) : list ContentBlockParam :=
  match mp_content m with
  | ContentString _ => []
  | ContentBlocks blocks => blocks
  end.

Definition toolUseIds (m : MessageParam) : list string :=
  flat_map (fun b => match b with ToolUseBlock id _ _ => [id] | _ => [] end) (blocksOf m).

Definition toolResultIds (m : MessageParam) : list string :=
  flat_map (fun b => match b with ToolResultBlock id _ => [id] | _ => [] end) (blocksOf m).

(** The ids answered by the messages that come before the next assistant
    message. *)
Fixpoint answeredBeforeNextAssistant (ms : list MessageParam) : list string :=
  match ms with
  | [] => []
  | m :: ms' =>
      if Role_eqb (mp_role m) assistant then []
      else toolResultIds m ++ answeredBeforeNextAssistant ms'
  end.

Definition elemb (x : string) (l : list string) : bool := existsb (String.eqb x) l.

(** Every [tool_use] of an assistant message is answered by a
    [tool_result] with its id before the next assistant message. *)
Fixpoint paired (ms : list MessageParam) : bool :=
  match ms with
  | [] => true
  | m :: ms' =>
      (if Role_eqb (mp_role m) assistant
       then forallb (fun id => elemb id (answeredBeforeNextAssistant ms')) (toolUseIds m)
       else true)
      && paired ms'
  end.

Definition countToolUse (ms : list MessageParam) : nat :=
  length (flat_map toolUseIds ms).

Definition countToolResult (ms : list MessageParam) : nat :=
  length (flat_map toolResultIds ms).

(** The pairing invariant of the specification. *)
Definition pairingInvariant (ms : list MessageParam) : Prop :=
  paired ms = true /\ countToolResult ms = countToolUse ms.

(** The [tool_use] and [tool_result] blocks a message of the loop turns
    into. *)
Definition usesOf (m : Message) : nat :=
  match role m, tool_calls m with
  | assistant, Some calls => length calls
  | _, _ => 0
  end.

Definition resultsIn (m : Message) : nat :=
  match role m with tool => 1 | _ => 0 end.

(** The provider answers as the assistant. *)
Definition answersAsAssistant (e : Event) : Prop :=
  match e with
  | EChat _ _ _ (Fulfilled m) => role m = assistant
  | _ => True
  end.

(** The ids that [convertOllamaMessageToAnthropic] fabricates. *)
Definition useId (id : string) : Prop :=
  exists name n, id = "toolu_" +:+ name +:+ "_" +:+ JsString.show_N n.

Definition resultId (id : string) : Prop :=
  exists n, id = "toolu_" +:+ JsString.show_N n.

(** The ids of the blocks of a message in the canonical shape. *)
Definition fabricated (m : MessageParam) : Prop :=
  Forall useId (toolUseIds m) /\ Forall resultId (toolResultIds m).

(** *** The environments of the examples

    The state of the world is the number of provider requests made so
    far.  The JSON functions are those of the runtime on the values the
    examples meet: the empty array, and sentences in plain English, which
    [JSON.parse] rejects. *)
Module Examples.

Definition JSON_parse (text : string) : option Json :=
  if String.eqb text "[]" then Some (JArray []) else None.
Definition JSON_stringify (v : Json) : string :=
  match v with JArray [] => "[]" | _ => "null" end.
Definition Date_now (_ : nat) : N := 1700000000000.

Definition answer (text : string) : Message :=
  {| role := assistant; content := text; tool_calls := None |}.

Definition askFor (name : string) : Message :=
  {| role := assistant; content := "";
     tool_calls := Some [ {| function_name := name; function_arguments := JObject [] |} ] |}.

(** A provider that never answers in time. *)
Definition silent (w : nat) (_ : list Message) (_ : list Tool) (_ : N)
  : Awaited Message * nat :=
  (TimeoutError "Ollama API call timed out after 300000ms", S w).

(** A provider that asks for the tool [lookup] once, then answers. *)
Definition asksOnce (w : nat) (_ : list Message) (_ : list Tool) (_ : N)
  : Awaited Message * nat :=
  (Fulfilled (match w with 0 => askFor "lookup" | _ => answer "Done." end), S w).

(** A provider that answers at once. *)
Definition answers (w : nat) (_ : list Message) (_ : list Tool) (_ : N)
  : Awaited Message * nat :=
  (Fulfilled (answer "Done."), S w).

(** A tool client whose tools return an empty content. *)
Definition obliging (w : nat) (_ : Client) (_ : string) (_ : Json) (_ : N)
  : Awaited Json * nat :=
  (Fulfilled (JArray []), w).

(** A tool client whose tools never answer.  The MCP client arms a
    request timer of its own, of 60 s too, when [callTool] is called,
    before [withTimeout] arms the timer of [TOOL_EXECUTION_TIMEOUT]: the
    timer of the client goes off first, and the call is rejected with the
    error of the client, which is no [TimeoutError]. *)
Definition stuck (w : nat) (_ : Client) (_ : string) (_ : Json) (_ : N)
  : Awaited Json * nat :=
  (OtherError "MCP error -32001: Request timed out", w).

(** One tool server, offering the tool [lookup]. *)
Definition lookupServer : list (option (list ToolInfo)) :=
  [Some [ {| tool_name := "lookup"; tool_description := None;
             inputSchema := JObject [] |} ]].

(** The provider that never answers in time, asked with an empty prompt. *)
Definition silentRun : list Event * Completion * nat :=
  _executePromptWithTools silent stuck JSON_stringify "" [] None 0.


Definition hello : Message := {| role := user; content := "Hello"; tool_calls := None |}.

(** A prompt answered at once. *)
Definition helloRun : list Event * Completion * nat :=
  _executePromptWithTools answers obliging JSON_stringify "Hello" [] None 0.

Definition listTheLights : Message :=
  {| role := user; content := "List the lights"; tool_calls := None |}.



End Examples.

(** *** The claims of the specification, as it words them *)

(** "The loop terminates when the provider call times out twice in a
    row." *)
Definition stopsAfterTwoTimeouts (tr : list Event) : Prop :=
  forall pre post msgs1 tools1 t1 e1 y1 msgs2 tools2 t2 e2 y2,
    tr = pre ++ [EChat msgs1 tools1 t1 (TimeoutError e1); EYield y1;
                 EChat msgs2 tools2 t2 (TimeoutError e2); EYield y2] ++ post ->
    post = [].



End Ollama.

(** A promise of the scheduler, the graders and the hub: its value, or the
    message of what it rejected with. *)
Inductive Result (A : Type) : Type :=
| Ok (a : A)
| Err (message : string).
Arguments Ok {A} a.
Arguments Err {A} message.

(** ** The scheduler step: [server/workflow/scheduler-step.ts] *)

Module SchedulerStep.

(** [Automation] of [shared/types.ts]. *)
Record Automation : Type := mkAutomation {
  hash : string;
  contents : string;
  fileName : string
}.

Inductive AutomationType : Type := manual | determine_signal | execute_signal.

(** The two tables the step touches.  Of a [signals] row only
    [automationHash] and [isDead] (a column that is never NULL) are looked
    at. *)
Record SignalRow : Type := mkSignalRow {
  signal_id : nat;
  signal_automationHash : string;
  signal_type : string;
  signal_data : string;
  isDead : bool
}.

Record AutomationLogRow : Type := mkAutomationLogRow {
  createdAt : string;
  type : AutomationType;
  automationHash : option string;
  messageLog : string
}.

Record Db : Type := mkDb {
  signals : list SignalRow;
  automationLogs : list AutomationLogRow
}.

(** [selectFrom('signals').where('automationHash', '=', h)
      .where('isDead', '!=', true).select('id').executeTakeFirst()] *)
Definition aliveSignal (db : Db) (h : string) : option nat :=
  signal_id <$>
    List.find (fun s => String.eqb (signal_automationHash s) h && negb (isDead s))
              (signals db).

(** [insertInto('automationLogs').values(row).execute()] *)
Definition insertAutomationLog (db : Db) (row : AutomationLogRow) : Db :=
  {| signals := signals db; automationLogs := automationLogs db ++ [row] |}.

Section Runtime.

(** The runtime the step is given.  [readMemory] is
    [fs.readFile(getMemoryFile(runtime), 'utf-8')]; [runLLM] is the
    provider of [runtime.llmFactory] for the automation, run on
    [schedulerPrompt] with the scheduler tools of the automation and
    drained with [toArray]: it returns the transcript or rejects, and its
    tools write to the database meanwhile; [nowISO] is
    [now(runtime).toISO()]. *)
Variable World : Type.
Variable MessageParam : Type.
Variable readMemory : World -> Result string * World.
Variable runLLM :
  World -> Db -> Automation -> string -> Result (list MessageParam) * Db * World.
Variable nowISO : World -> string * World.
Variable JSON_stringify : list MessageParam -> string.

(** The state of a run: the world, the database, and the automations the
    scheduling loop was started for, oldest first. *)
Record State : Type := mkState {
  world : World;
  db : Db;
  scheduled : list Automation
}.

(** [runSchedulerForAutomation] *)
Definition runSchedulerForAutomation (st : State) (automation : Automation)
  : Result unit * State :=
  let '(memory, w1) := readMemory (world st) in
  match memory with
  | Err e => (Err e, {| world := w1; db := db st; scheduled := scheduled st |})
  | Ok memory =>
      let '(msgs, db2, w2) := runLLM w1 (db st) automation memory in
      let invoked := scheduled st ++ [automation] in
      match msgs with
      | Err e => (Err e, {| world := w2; db := db2; scheduled := invoked |})
      | Ok msgs =>
          let '(t, w3) := nowISO w2 in
          (Ok tt,
           {| world := w3;
              db := insertAutomationLog db2
                      {| createdAt := t;
                         type := determine_signal;
                         automationHash := Some (hash automation);
                         messageLog := JSON_stringify msgs |};
              scheduled := invoked |})
      end
  end.

(** [rescheduleAutomations]: a rejection inside the loop ends it. *)
Fixpoint rescheduleAutomations (st : State) (automations : list Automation)
  : Result unit * State :=
  match automations with
  | [] => (Ok tt, st)
  | automation :: rest =>
      match aliveSignal (db st) (hash automation) with
      | Some _ => rescheduleAutomations st rest
      | None =>
          match runSchedulerForAutomation st automation with
          | (Ok _, st') => rescheduleAutomations st' rest
          | (Err e, st') => (Err e, st')
          end
      end
  end.

End Runtime.

Arguments mkState {World} world db scheduled.
Arguments world {World} s.
Arguments db {World} s.
Arguments scheduled {World} s.
Arguments runSchedulerForAutomation {World MessageParam}.
Arguments rescheduleAutomations {World MessageParam}.

(** "Inserts exactly one [automationLogs] row with [type='determine-signal']
    and [automationHash] equal to the automation's hash": what the table
    holds after, against what it held before. *)
Definition insertsOneRow (before after : list AutomationLogRow) (a : Automation) : Prop :=
  exists row,
    after = before ++ [row] /\ type row = determine_signal /\
    automationHash row = Some (hash a).

(** *** An example: the Ollama provider with its server down

    The provider of the runtime is the Ollama provider of [Ollama], whose
    requests all fail with a network error; [lastValueFrom] of the drained
    stream rejects when the generator throws. *)
Module Examples.

Definition unreachable (w : nat) (_ : list Ollama.Message) (_ : list Ollama.Tool)
    (_ : N) : Ollama.Awaited Ollama.Message * nat :=
  (Ollama.OtherError "fetch failed", S w).

Definition drained (r : list Ollama.Event * Ollama.Completion * nat)
  : Result (list Ollama.MessageParam) * nat :=
  (match Ollama.completion r with
   | Ollama.Returned =>
       Ok (Ollama.convertAll Ollama.Examples.Date_now Ollama.Examples.JSON_parse 0
             (Ollama.yielded (Ollama.events r)))
   | Ollama.Threw e => Err e
   end, snd r).

(** The prompt is [schedulerPrompt] in the source; its text plays no
    part here. *)
Definition runLLM (w : nat) (db : Db) (automation : Automation) (memory : string)
  : Result (list Ollama.MessageParam) * Db * nat :=
  let '(msgs, w') :=
    drained (Ollama._executePromptWithTools unreachable Ollama.Examples.obliging
               Ollama.Examples.JSON_stringify
               (contents automation +:+ memory) [] None w) in
  (msgs, db, w').

Definition readMemory (w : nat) : Result string * nat := (Ok "", w).
Definition nowISO (w : nat) : string * nat := ("2025-05-01T07:00:00.000Z", w).
Definition JSON_stringify (_ : list Ollama.MessageParam) : string := "[]".

Definition coffee : Automation :=
  {| hash := "3f9a"; contents := "Every morning at 7am turn on the coffee maker";
     fileName := "automations/coffee.md" |}.

Definition fresh : State nat :=
  {| world := 0; db := {| signals := []; automationLogs := [] |}; scheduled := [] |}.

(** A runtime whose provider answers at once, and whose automation has a
    signal already. *)
Definition runLLM_fine (w : nat) (db : Db) (automation : Automation) (memory : string)
  : Result (list Ollama.MessageParam) * Db * nat :=
  (Ok [], db, S w).

Definition cron : SignalRow :=
  {| signal_id := 1; signal_automationHash := "3f9a"; signal_type := "cron";
     signal_data := "0 7 * * *"; isDead := false |}.

Definition scheduledAlready : State nat :=
  {| world := 0; db := {| signals := [cron]; automationLogs := [] |}; scheduled := [] |}.

End Examples.

End SchedulerStep.

(** ** The graders and the scenario runner: [server/eval-framework.ts] *)

Module EvalFramework.

(** Scores are JavaScript numbers holding integers. *)
Record GradeResult : Type := mkGradeResult {
  score : Z;
  possible_score : Z;
  grader_info : string
}.

Definition doubleQuote : string := String "034"%char EmptyString.

Section Graders.

Variable MessageParam : Type.
Variable McpServer : Type.

(** [messagesToString] of [shared/prompt], applied to an array whose
    elements may be [undefined]. *)
Variable messagesToString : list (option MessageParam) -> string.

Definition Grader : Type := list MessageParam -> Result GradeResult.

Record ScenarioResult : Type := mkScenarioResult {
  prompt : string;
  toolsDescription : string;
  messages : list MessageParam;
  gradeResults : list GradeResult;
  finalScore : Z;
  finalScorePossible : Z
}.

(** [gradeViaSearchForContent] *)
Definition gradeViaSearchForContent (content : list string) : Grader :=
  fun messages =>
    let lastMsg := messagesToString [last messages] in
    let score :=
      fold_left
        (fun acc needle =>
           let found := JsString.includes lastMsg needle in
           if found then (acc + 1)%Z else acc)
        content 0%Z in
    let info :=
      JsString.join ", " (map (fun x => doubleQuote +:+ x +:+ doubleQuote) content) in
    Ok {| score := score;
          possible_score := Z.of_nat (length content);
          grader_info := "Looking for " +:+ info |}.

(** The provider and [asyncMap] of [@anaisbetts/commands] (followed by
    [Array.from(_.values())]) are given. *)
Variable executePromptWithTools :
  string -> list McpServer -> Result (list MessageParam).
Variable asyncMapValues :
  list Grader -> (Grader -> Result GradeResult) -> Result (list GradeResult).

(** [runScenario] *)
Definition runScenario (prompt : string) (tools : list McpServer)
    (toolsDescription : string) (graders : list Grader) : Result ScenarioResult :=
  match executePromptWithTools prompt tools with
  | Err e => Err e
  | Ok messages =>
      match asyncMapValues graders (fun g => g messages) with
      | Err e => Err e
      | Ok gradeResults =>
          let '(finalScore, finalScorePossible) :=
            fold_left
              (fun acc x =>
                 ((fst acc + score x)%Z, (snd acc + possible_score x)%Z))
              gradeResults (0%Z, 0%Z) in
          Ok {| prompt := prompt;
                toolsDescription := toolsDescription;
                messages := messages;
                gradeResults := gradeResults;
                finalScore := finalScore;
                finalScorePossible := finalScorePossible |}
      end
  end.

End Graders.

Arguments gradeViaSearchForContent {MessageParam}.
Arguments runScenario {MessageParam McpServer}.
Arguments gradeResults {MessageParam} s.
Arguments finalScore {MessageParam} s.
Arguments finalScorePossible {MessageParam} s.
Arguments messages {MessageParam} s.

Definition sumZ (l : list Z) : Z := fold_right Z.add 0%Z l.

Module Examples.

(** The evaluation "List services for entity": the needles [On] and [Off],
    and an answer that holds the first only. *)
Definition lastText (ms : list (option string)) : string :=
  match ms with [Some text] => text | _ => "" end.

Definition scripted (_ : string) (_ : list unit) : Result (list string) :=
  Ok ["What services are available?"; "You can turn the lights On."].

Definition inOrder (graders : list (Grader string))
    (f : Grader string -> Result GradeResult) : Result (list GradeResult) :=
  fold_right
    (fun g acc =>
       match f g, acc with
       | Ok r, Ok rs => Ok (r :: rs)
       | Err e, _ => Err e
       | _, Err e => Err e
       end)
    (Ok []) graders.

End Examples.

End EvalFramework.

(** ** Configuration persistence: [loadConfig] and [saveConfig] *)

Module Config.

(** [AppConfig] of [shared/types.ts], as the two functions use it: every
    field but the two models is optional. *)
Record OpenAIProviderConfig : Type := mkProvider {
  providerName : option string;
  baseURL : option string;
  apiKey : option string
}.

Record AppConfig : Type := mkAppConfig {
  haBaseUrl : option string;
  haToken : option string;
  timezone : option string;
  automationModel : string;
  visionModel : string;
  anthropicApiKey : option string;
  ollamaHost : option string;
  openAIProviders : option (list OpenAIProviderConfig)
}.

(** The TOML document, at the shape the two functions write and read:
    five top-level strings, the tables [anthropic] and [ollama], and the
    table [openai], whose values are strings or tables of their own.  A
    JavaScript object is the list of its properties in enumeration
    order. *)
Module Toml.

Record ProviderTable : Type := mkProviderTable {
  base_url : option string;
  key : option string
}.

Inductive Value : Type :=
| Str (s : string)
| Table (t : ProviderTable).

Record Anthropic : Type := mkAnthropic { anthropic_key : option string }.
Record Ollama : Type := mkOllama { host : option string }.

Record t : Type := mk {
  ha_base_url : option string;
  ha_token : option string;
  timezone : option string;
  automation_model : option string;
  vision_model : option string;
  anthropic : option Anthropic;
  ollama : option Ollama;
  openai : option (list (string * Value))
}.

(** [object[k] = v]: an existing property keeps its place. *)
Fixpoint set (k : string) (v : Value) (o : list (string * Value))
  : list (string * Value) :=
  match o with
  | [] => [(k, v)]
  | (k', v') :: o' => if String.eqb k' k then (k, v) :: o' else (k', v') :: set k v o'
  end.

(** Two documents with the same content: they differ at most in the
    order of the properties of [openai]. *)
Definition same (a b : t) : Prop :=
  ha_base_url a = ha_base_url b /\ ha_token a = ha_token b /\
  timezone a = timezone b /\ automation_model a = automation_model b /\
  vision_model a = vision_model b /\ anthropic a = anthropic b /\
  ollama a = ollama b /\
  match openai a, openai b with
  | None, None => True
  | Some x, Some y => Permutation x y
  | _, _ => False
  end.

End Toml.

(** Truthiness of an optional string: defined and not empty. *)
Definition truthy (s : option string) : option string :=
  match s with
  | Some s' => if JsString.truthy s' then Some s' else None
  | None => None
  end.

(** The body of [for (const provider of config.openAIProviders)]. *)
Definition saveProvider (openai : list (string * Toml.Value))
    (provider : OpenAIProviderConfig) : list (string * Toml.Value) :=
  match providerName provider with
  | Some name =>
      if String.eqb name "openai"
      then
        match truthy (apiKey provider) with
        | Some k => Toml.set "key" (Toml.Str k) openai
        | None => openai
        end
      else if JsString.truthy name
      then
        let providerSection :=
          {| Toml.base_url := truthy (baseURL provider);
             Toml.key := truthy (apiKey provider) |} in
        match Toml.base_url providerSection, Toml.key providerSection with
        | None, None => openai
        | _, _ =>
            (* [tomlStructure.openai[provider.providerName] = providerSection]:
               under the name [__proto__] the assignment sets the prototype
               of the object and gives it no property *)
            if String.eqb name "__proto__" then openai
            else Toml.set name (Toml.Table providerSection) openai
        end
      else openai
  | None => openai
  end.

(** [tomlStructure] of [saveConfig]. *)
Definition tomlStructure (config : AppConfig) : Toml.t :=
  {| Toml.ha_base_url := truthy (haBaseUrl config);
     Toml.ha_token := truthy (haToken config);
     Toml.timezone := truthy (timezone config);
     Toml.automation_model := truthy (Some (automationModel config));
     Toml.vision_model := truthy (Some (visionModel config));
     Toml.anthropic :=
       (fun k => {| Toml.anthropic_key := Some k |}) <$> truthy (anthropicApiKey config);
     Toml.ollama :=
       (fun h => {| Toml.host := Some h |}) <$> truthy (ollamaHost config);
     Toml.openai :=
       match openAIProviders config with
       | Some (p :: ps) =>
           match fold_left saveProvider (p :: ps) [] with
           | [] => None
           | openai => Some openai
           end
       | _ => None
       end |}.

(** The body of [for (const key in parsedToml.openai)]. *)
Definition loadProvider (entry : string * Toml.Value) : list OpenAIProviderConfig :=
  match entry with
  | (k, Toml.Str providerData) =>
      if String.eqb k "key"
      then [{| providerName := Some "openai"; baseURL := None;
               apiKey := Some providerData |}]
      else []
  | (k, Toml.Table providerData) =>
      [{| providerName := Some k;
          baseURL := Toml.base_url providerData;
          apiKey := Toml.key providerData |}]
  end.

Definition defaultConfig : AppConfig :=
  {| haBaseUrl := None; haToken := None; timezone := None;
     automationModel := ""; visionModel := "";
     anthropicApiKey := None; ollamaHost := None; openAIProviders := None |}.

(** The [try] block of [loadConfig], after the file is parsed. *)
Definition fromToml (parsedToml : Toml.t) : AppConfig :=
  {| automationModel := default "" (Toml.automation_model parsedToml);
     visionModel := default "" (Toml.vision_model parsedToml);
     haBaseUrl := Toml.ha_base_url parsedToml;
     haToken := Toml.ha_token parsedToml;
     timezone := Toml.timezone parsedToml;
     anthropicApiKey := Toml.anthropic parsedToml ≫= Toml.anthropic_key;
     ollamaHost := Toml.ollama parsedToml ≫= Toml.host;
     openAIProviders :=
       match flat_map loadProvider (default [] (Toml.openai parsedToml)) with
       | [] => None
       | providers => Some providers
       end |}.

Section Files.

(** [toml.stringify] and [toml.parse] of [@iarna/toml], over the texts
    of the files; [None] is a parse error.  The files are a map from
    paths to texts. *)
Variable Text : Type.
Variable toml_stringify : Toml.t -> Text.
Variable toml_parse : Text -> option Toml.t.

(** [saveConfig] *)
Definition saveConfig (config : AppConfig) (filePath : string)
    (fs : gmap string Text) : gmap string Text :=
  <[filePath := toml_stringify (tomlStructure config)]> fs.

(** [loadConfig]: a file that is missing or does not parse gives the
    default configuration. *)
Definition loadConfig (filePath : string) (fs : gmap string Text) : AppConfig :=
  match fs !! filePath ≫= toml_parse with
  | Some parsedToml => fromToml parsedToml
  | None => defaultConfig
  end.

End Files.

(** What the claim asks of a configuration: no defined field is the empty
    string, and a provider called [openai] has no [baseURL]. *)
Definition nonEmpty (s : option string) : Prop := s <> Some "".

Definition providerNonEmpty (p : OpenAIProviderConfig) : Prop :=
  nonEmpty (providerName p) /\ nonEmpty (baseURL p) /\ nonEmpty (apiKey p) /\
  (providerName p = Some "openai" -> baseURL p = None).

Definition claimed (c : AppConfig) : Prop :=
  nonEmpty (haBaseUrl c) /\ nonEmpty (haToken c) /\ nonEmpty (timezone c) /\
  nonEmpty (Some (automationModel c)) /\ nonEmpty (Some (visionModel c)) /\
  nonEmpty (anthropicApiKey c) /\ nonEmpty (ollamaHost c) /\
  Forall providerNonEmpty (default [] (openAIProviders c)).

(** What the round trip needs on top of it: the list of providers, when
    there is one, is not empty; every provider has a name, other than
    [__proto__], and something to write under it; no two providers are
    written under the same property of [openai]. *)
Definition slot (p : OpenAIProviderConfig) : string :=
  match providerName p with
  | Some name => if String.eqb name "openai" then "key" else name
  | None => ""
  end.

Definition writable (p : OpenAIProviderConfig) : Prop :=
  match providerName p with
  | Some name =>
      if String.eqb name "openai" then apiKey p <> None
      else name <> "__proto__" /\ (baseURL p <> None \/ apiKey p <> None)
  | None => False
  end.

Definition storable (c : AppConfig) : Prop :=
  openAIProviders c <> Some [] /\
  Forall writable (default [] (openAIProviders c)) /\
  List.NoDup (map slot (default [] (openAIProviders c))).

(** The property of [openai] a provider is written to. *)
Definition entryOf (p : OpenAIProviderConfig) : string * Toml.Value :=
  (slot p,
   match providerName p with
   | Some "openai" => Toml.Str (default "" (apiKey p))
   | _ => Toml.Table {| Toml.base_url := baseURL p; Toml.key := apiKey p |}
   end).

(** Equal on every field, the providers up to their order. *)
Definition sameConfig (a b : AppConfig) : Prop :=
  haBaseUrl a = haBaseUrl b /\ haToken a = haToken b /\ timezone a = timezone b /\
  automationModel a = automationModel b /\ visionModel a = visionModel b /\
  anthropicApiKey a = anthropicApiKey b /\ ollamaHost a = ollamaHost b /\
  match openAIProviders a, openAIProviders b with
  | None, None => True
  | Some x, Some y => Permutation x y
  | _, _ => False
  end.

Arguments saveConfig {Text} toml_stringify config filePath fs.
Arguments loadConfig {Text} toml_parse filePath fs.

(** *** Examples: an ideal TOML library, whose text is the document
    itself, read back as it was written, in the same order. *)
Module Examples.

Definition toml_stringify (t : Toml.t) : Toml.t := t.
Definition toml_parse (text : Toml.t) : option Toml.t := Some text.

Definition withProviders (ps : list OpenAIProviderConfig) : AppConfig :=
  {| haBaseUrl := Some "https://foo"; haToken := Some "token";
     timezone := Some "America/Los_Angeles";
     automationModel := "anthropic/claude-3-5-sonnet-20240620";
     visionModel := "openai/gpt-4o";
     anthropicApiKey := Some "wiefjef"; ollamaHost := Some "weofijwef";
     openAIProviders := Some ps |}.

Definition named (name url k : string) : OpenAIProviderConfig :=
  {| providerName := Some name; baseURL := Some url; apiKey := Some k |}.

(** The configuration of the example file of the source. *)
Definition exampleFile : AppConfig :=
  withProviders
    [ {| providerName := Some "openai"; baseURL := None; apiKey := Some "woefj" |};
      named "google" "https://efoiwejf" "woefj";
      named "scaleway" "https://efoiwejf" "woefj" ].

(** Two endpoints under one name. *)
Definition twoGoogles : AppConfig :=
  withProviders
    [ named "google" "https://one.example" "first";
      named "google" "https://two.example" "second" ].

(** An endpoint under the name [__proto__]. *)
Definition protoNamed : AppConfig :=
  withProviders [ named "__proto__" "https://one.example" "first" ].

End Examples.

End Config.

(** ** The hub client in test mode: [LiveHomeAssistantApi.callService] *)

Module HaWsApi.

Inductive EntityId : Type :=
| One (entity_id : string)
| Many (entity_ids : list string).

Record CallServiceOptions : Type := mkCallServiceOptions {
  domain : string;
  service : string;
  service_data : option Json;
  target : option EntityId;
  return_response : option bool
}.

(** The message [callService] sends: [{ type: 'call_service', ...options }]. *)
Record HubMessage : Type := mkHubMessage {
  message_type : string;
  message_options : CallServiceOptions
}.

Definition entities (options : CallServiceOptions) : list string :=
  match target options with
  | None => []
  | Some (One e) => [e]
  | Some (Many es) => es
  end.

(** The domain prefix of an entity id: what comes before its first dot. *)
Fixpoint domainPrefix (entity_id : string) : string :=
  match entity_id with
  | EmptyString => EmptyString
  | String c rest =>
      if Ascii.eqb c "."%char then EmptyString else String c (domainPrefix rest)
  end.

Definition mismatch (domain entity_id : string) : string :=
  "Entity ID " +:+ entity_id +:+ " doesn't match domain " +:+ domain.

Section Hub.

(** [connection.sendMessagePromise] *)
Variable sendMessagePromise : HubMessage -> Result Json.

(** Modelled from the spec: [LiveHomeAssistantApi.callService] of
    [server/lib/ha-ws-api.ts], of which the sources hold the test-suite
    only.  In test mode it validates that every [entity_id]'s domain
    prefix equals [domain] and returns success ([null]) without calling
    the hub, and rejects with the message of the tests otherwise; out of
    test mode it forwards to the hub client.  The result comes with the
    list of the messages sent to the hub. *)
Definition callService (testMode : bool) (options : CallServiceOptions)
  : Result (option Json) * list HubMessage :=
  if testMode
  then
    match List.find (fun e => negb (String.eqb (domainPrefix e) (domain options)))
                    (entities options) with
    | Some e => (Err (mismatch (domain options) e), [])
    | None => (Ok None, [])
    end
  else
    let message := {| message_type := "call_service"; message_options := options |} in
    (match sendMessagePromise message with
     | Ok response => Ok (Some response)
     | Err e => Err e
     end, [message]).

End Hub.

Module Examples.

(** The calls of the test-suite. *)
Definition hub (_ : HubMessage) : Result Json := Ok (JObject [("result", JString "success")]).

Definition turnOn (target : EntityId) : CallServiceOptions :=
  {| domain := "light"; service := "turn_on"; service_data := None;
     target := Some target; return_response := None |}.

End Examples.

End HaWsApi.

(** ** More of the Ollama provider: the tool map and the ends of the loop *)

Module OllamaMore.
Import Ollama.

(** The client [toolClientMap] holds for a name: the last client, in the
    order of the tool servers, whose list holds the name. *)
Fixpoint lastClient (name : string) (index : nat)
    (toolLists : list (option (list ToolInfo))) : option Client :=
  match toolLists with
  | [] => None
  | listed :: rest =>
      match lastClient name (S index) rest with
      | Some client => Some client
      | None =>
          if existsb (String.eqb name) (map tool_name (default [] listed))
          then Some index else None
      end
  end.

(** The tools the clients list, in the order of the clients; a client
    whose listing failed lists none. *)
Definition listedTools (toolLists : list (option (list ToolInfo))) : list ToolInfo :=
  flat_map (fun listed => default [] listed) toolLists.

(** A tool call goes to the client [route] gives for its name. *)
Definition routedBy (route : string -> option Client) (e : Event) : Prop :=
  match e with
  | ECallTool client name _ _ _ => route name = Some client
  | _ => True
  end.

(** The roles of the canonical shape. *)
Definition canonicalRole (m : MessageParam) : Prop :=
  mp_role m = user \/ mp_role m = assistant.

Definition fromTheLoop (m : Message) : Prop :=
  role m = assistant \/ role m = tool.

(** *** More examples *)
Module Examples.

(** Two tool servers that both offer [lookup]; the second also offers
    [notify]. *)
Definition twoServers : list (option (list ToolInfo)) :=
  [ Some [ {| tool_name := "lookup"; tool_description := None; inputSchema := JObject [] |} ];
    Some [ {| tool_name := "notify"; tool_description := Some "Sends a notification";
              inputSchema := JObject [] |};
           {| tool_name := "lookup"; tool_description := None; inputSchema := JObject [] |} ] ].

Definition routedRun : list Event * Completion * nat :=
  _executePromptWithTools Ollama.Examples.asksOnce Ollama.Examples.obliging
    Ollama.Examples.JSON_stringify "List the lights" twoServers None 0.

Definition routedOutput : list MessageParam :=
  executePromptWithTools Ollama.Examples.asksOnce Ollama.Examples.obliging
    Ollama.Examples.Date_now Ollama.Examples.JSON_parse Ollama.Examples.JSON_stringify
    "List the lights" twoServers None 0.

End Examples.

End OllamaMore.

(** ** More of the scheduler step: what a second pass does *)

Module SchedulerMore.
Import SchedulerStep.

(** A signal of the automation is alive. *)
Definition alive (db : Db) (h : string) : Prop := aliveSignal db h <> None.

(** The row [runSchedulerForAutomation] writes for an automation. *)
Definition determineSignalRow (row : AutomationLogRow) : Prop :=
  type row = determine_signal.

Module Examples.

(** A scheduling run that creates one cron trigger for the automation, as
    the tool [create-cron-trigger] would, and answers with an empty
    transcript. *)
Definition runLLM_cron (w : nat) (db : Db) (automation : Automation) (memory : string)
  : Result (list Ollama.MessageParam) * Db * nat :=
  (Ok [],
   {| signals := signals db
                 ++ [{| signal_id := length (signals db);
                        signal_automationHash := hash automation;
                        signal_type := "cron"; signal_data := "0 7 * * *";
                        isDead := false |}];
      automationLogs := automationLogs db |},
   S w).

Definition lights : Automation :=
  {| hash := "77c1"; contents := "Turn the porch light on at sunset";
     fileName := "automations/porch.md" |}.

End Examples.

End SchedulerMore.

(** ** The totals over several scenarios: [evalCommand] and the evals page *)

Module EvalTotals.
Import EvalFramework.

(** A grade within its range. *)
Definition bounded (g : GradeResult) : Prop := (0 <= score g <= possible_score g)%Z.

Section Totals.

Context {MessageParam : Type}.

Definition addResult (acc : Z * Z) (result : ScenarioResult MessageParam) : Z * Z :=
  ((fst acc + finalScore result)%Z, (snd acc + finalScorePossible result)%Z).

(** The reduce of [evalCommand] in [server/evals/call-service.ts]:
    [score] and [possibleScore]. *)
Definition overallScore (results : list (ScenarioResult MessageParam)) : Z * Z :=
  fold_left addResult results (0%Z, 0%Z).

(** [totalScore] of [site/pages/evals.tsx], its fields [score] and
    [possible]. *)
Definition totalScore (results : list (ScenarioResult MessageParam)) : Z * Z :=
  match results with
  | [] => (0%Z, 0%Z)
  | _ => fold_left addResult results (0%Z, 0%Z)
  end.

(** Every grade of every scenario, in order. *)
Definition allGrades (results : list (ScenarioResult MessageParam)) : list GradeResult :=
  concat (map gradeResults results).

End Totals.

End EvalTotals.

(** ** More of the configuration: the driver list, the first boot *)

Module ConfigBoot.
Import Config.

(** [getDriverList] of [ServerWebsocketApiImpl]: the list the observable
    emits. *)
Definition getDriverList (config : AppConfig) : list string :=
  (match truthy (anthropicApiKey config) with Some _ => ["anthropic"] | None => [] end)
  ++ (match truthy (ollamaHost config) with Some _ => ["ollama"] | None => [] end)
  ++ match openAIProviders config with
     | Some (p :: ps) => map (fun x => default "openai" (providerName x)) (p :: ps)
     | _ => []
     end.

(** [migrateConfig]: [config.timezone ??= 'Etc/UTC']. *)
Definition migrateConfig (config : AppConfig) : AppConfig :=
  {| haBaseUrl := haBaseUrl config;
     haToken := haToken config;
     timezone := Some (default "Etc/UTC" (timezone config));
     automationModel := automationModel config;
     visionModel := visionModel config;
     anthropicApiKey := anthropicApiKey config;
     ollamaHost := ollamaHost config;
     openAIProviders := openAIProviders config |}.

Section Files.

Context {Text : Type}.
Variable toml_stringify : Toml.t -> Text.
Variable toml_parse : Text -> option Toml.t.

(** [getConfigFilePath] of [server/paths]. *)
Variable getConfigFilePath : string -> string.

(** The error [fs.writeFile] rejects with when, with the files as they
    are, it refuses to write to a path (its directory is missing, the
    file is read-only), if it does.  A write that is refused leaves the
    files as they were. *)
Variable writeRefused : string -> gmap string Text -> option string.

(** [saveConfig] with the write that may be refused: the error is logged
    and thrown again. *)
Definition saveConfigOrThrow (config : AppConfig) (filePath : string)
    (fs : gmap string Text) : Result unit * gmap string Text :=
  match writeRefused filePath fs with
  | Some error => (Err error, fs)
  | None => (Ok tt, saveConfig toml_stringify config filePath fs)
  end.

(** [createConfigViaEnv]: the configuration it returns, or the error it
    rejects with, and the files it leaves.  [fs.access] rejects when the
    file is missing; [saveConfig] is awaited outside the [try]. *)
Definition createConfigViaEnv (notebookDirectory : string) (fs : gmap string Text)
  : Result AppConfig * gmap string Text :=
  let cfgPath := getConfigFilePath notebookDirectory in
  let config :=
    match fs !! cfgPath with
    | Some _ => loadConfig toml_parse cfgPath fs
    | None => defaultConfig
    end in
  let config := migrateConfig config in
  match saveConfigOrThrow config cfgPath fs with
  | (Ok _, fs') => (Ok config, fs')
  | (Err error, fs') => (Err error, fs')
  end.

End Files.

(** What [saveConfig] writes under [openai]: the string [key], not empty,
    or a table under a name that is neither empty nor [openai] nor
    [__proto__], with a field at least and no empty one. *)
Definition wellFormedEntry (entry : string * Toml.Value) : Prop :=
  match entry with
  | (k, Toml.Str s) => k = "key" /\ s <> ""
  | (k, Toml.Table t) =>
      k <> "" /\ k <> "openai" /\ k <> "__proto__" /\
      (Toml.base_url t <> None \/ Toml.key t <> None) /\
      nonEmpty (Toml.base_url t) /\ nonEmpty (Toml.key t)
  end.

Definition wellFormed (t : Toml.t) : Prop :=
  nonEmpty (Toml.ha_base_url t) /\ nonEmpty (Toml.ha_token t) /\
  nonEmpty (Toml.timezone t) /\ nonEmpty (Toml.automation_model t) /\
  nonEmpty (Toml.vision_model t) /\
  (forall a, Toml.anthropic t = Some a ->
             Toml.anthropic_key a <> None /\ nonEmpty (Toml.anthropic_key a)) /\
  (forall o, Toml.ollama t = Some o ->
             Toml.host o <> None /\ nonEmpty (Toml.host o)) /\
  Toml.openai t <> Some [] /\
  List.NoDup (map fst (default [] (Toml.openai t))) /\
  Forall wellFormedEntry (default [] (Toml.openai t)).

Module Examples.

Definition getConfigFilePath (notebookDirectory : string) : string :=
  notebookDirectory +:+ "/config.toml".

(** Every write goes through. *)
Definition writes {Text : Type} (_ : string) (_ : gmap string Text) : option string :=
  None.

(** The notebook directory is missing: no write goes through. *)
Definition noDirectory {Text : Type} (path : string) (_ : gmap string Text)
  : option string :=
  Some ("ENOENT: no such file or directory, open '" +:+ path +:+ "'").

(** A notebook whose configuration file holds an empty time zone. *)
Definition emptyTimezone : gmap string Toml.t :=
  {[ "/notebook/config.toml" :=
       {| Toml.ha_base_url := Some "https://foo"; Toml.ha_token := None;
          Toml.timezone := Some ""; Toml.automation_model := None;
          Toml.vision_model := None; Toml.anthropic := None; Toml.ollama := None;
          Toml.openai := None |} ]}.

End Examples.

End ConfigBoot.

(** ** File names relative to the notebook: [filterAutomationPaths] of
    [server/api.ts] and [writeAutomationFiles] of the bug-report dump *)

Module NotebookPaths.

(** The rest of [s] after [pattern], when [s] starts with it. *)
Fixpoint dropPrefix (pattern s : string) : option string :=
  match pattern, s with
  | EmptyString, _ => Some s
  | String a pattern', String b s' =>
      if Ascii.eqb a b then dropPrefix pattern' s' else None
  | String _ _, EmptyString => None
  end.

(** [s.replace(pattern, '')] with a string pattern: the first occurrence
    of [pattern] is removed. *)
Fixpoint removeFirst (pattern s : string) : string :=
  match dropPrefix pattern s with
  | Some rest => rest
  | None =>
      match s with
      | EmptyString => EmptyString
      | String c s' => String c (removeFirst pattern s')
      end
  end.

Definition backslash : ascii := "\"%char.
Definition slash : ascii := "/"%char.

(** [s.replace(/\\/g, '/')] *)
Fixpoint forwardSlashes (s : string) : string :=
  match s with
  | EmptyString => EmptyString
  | String c s' => String (if Ascii.eqb c backslash then slash else c) (forwardSlashes s')
  end.

(** [s.endsWith(c)] for a search string of one code unit. *)
Fixpoint endsWith (s : string) (c : ascii) : bool :=
  match s with
  | EmptyString => false
  | String a EmptyString => Ascii.eqb a c
  | String _ s' => endsWith s' c
  end.

(** The body of the loop of [writeAutomationFiles], up to the path it
    writes to: [notebookRootPrefix], [relativePath], and whether the
    warning is printed. *)
Definition notebookRootPrefix (notebookRoot : option string) : string :=
  let normalizedNotebookRoot := forwardSlashes (default "" notebookRoot) in
  if endsWith normalizedNotebookRoot slash
  then normalizedNotebookRoot
  else normalizedNotebookRoot +:+ "/".

Definition relativePath (fileName : string) (notebookRoot : option string) : string :=
  removeFirst (notebookRootPrefix notebookRoot) (forwardSlashes fileName).

Definition warns (fileName : string) (notebookRoot : option string) : bool :=
  String.eqb (relativePath fileName notebookRoot) (forwardSlashes fileName).

Section Filter.

(** [automationFromString] of [server/workflow/parser] and [path.sep]. *)
Context {Automation : Type}.
Variable contents : Automation -> string.
Variable fileName : Automation -> string.
Variable automationFromString : string -> string -> bool -> Automation.
Variable path_sep : string.

(** [filterAutomationPaths] *)
Definition filterAutomationPaths (notebookDirectory : string)
    (automations : list Automation) : list Automation :=
  map (fun x =>
         automationFromString (contents x)
           (removeFirst (notebookDirectory +:+ path_sep) (fileName x)) true)
      automations.

End Filter.

Definition noBackslash (c : ascii) : bool := negb (Ascii.eqb c backslash).

Module Examples.

Record Automation : Type := mkAutomation {
  contents : string;
  fileName : string;
  relative : bool
}.

Definition automationFromString (contents fileName : string) (relative : bool)
  : Automation :=
  {| contents := contents; fileName := fileName; relative := relative |}.

Definition porch : Automation :=
  {| contents := "Turn the porch light on at sunset";
     fileName := "/home/me/notebook/automations/porch.md"; relative := false |}.

End Examples.

End NotebookPaths.

(** ** The chat page: [crappyEscaper] *)

Module ChatMessage.

Definition doubleQuote : ascii := "034"%char.

(** [matchers]: the keys, one code unit each, in the order
    [Object.keys] lists them. *)
Definition matchers : list (ascii * string) :=
  [ ("&"%char, "&amp;"); ("<"%char, "&lt;"); (">"%char, "&gt;");
    (doubleQuote, "&quot;"); ("'"%char, "&#39;") ].

(** [text.replaceAll(k, v)] for a pattern [k] of one code unit and a
    replacement without [$]. *)
Fixpoint replaceAll (k : ascii) (v : string) (text : string) : string :=
  match text with
  | EmptyString => EmptyString
  | String c rest =>
      (if Ascii.eqb c k then v else String c EmptyString) +:+ replaceAll k v rest
  end.

(** [crappyEscaper] *)
Definition crappyEscaper (text : string) : string :=
  fold_left (fun acc k => replaceAll (fst k) (snd k) acc) matchers text.

(** The entity of one code unit, or the code unit itself. *)
Definition entity (c : ascii) : string :=
  match List.find (fun k => Ascii.eqb (fst k) c) matchers with
  | Some k => snd k
  | None => String c EmptyString
  end.

(** Every code unit replaced by its entity, all at once. *)
Fixpoint escapeEach (text : string) : string :=
  match text with
  | EmptyString => EmptyString
  | String c rest => entity c +:+ escapeEach rest
  end.

(** A code unit that ends or opens markup or an attribute value. *)
Definition markup (c : ascii) : bool :=
  Ascii.eqb c "<" || Ascii.eqb c ">" || Ascii.eqb c doubleQuote || Ascii.eqb c "'".

End ChatMessage.

(** * Properties *)

(** ** Strings *)

Module JsStringFacts.
Import JsString.

Lemma prefix_refl_app (needle rest : string) :
  String.prefix needle (needle +:+ rest) = true.
Proof.
  induction needle as [|c needle IH]; simpl.
  - now destruct rest.
  - destruct (ascii_dec c c); [exact IH | congruence].
Qed.

Lemma includes_empty (s : string) : includes s "" = true.
Proof. destruct s; reflexivity. Qed.

Lemma includes_unfold (s needle : string) :
  includes s needle
  = String.prefix needle s
    || match s with EmptyString => false | String _ s' => includes s' needle end.
Proof. destruct s; reflexivity. Qed.

Lemma includes_here (needle rest : string) : includes (needle +:+ rest) needle = true.
Proof. rewrite includes_unfold, prefix_refl_app. reflexivity. Qed.

Lemma includes_app (before needle rest : string) :
  includes (before +:+ needle +:+ rest) needle = true.
Proof.
  induction before as [|c before IH].
  - exact (includes_here needle rest).
  - rewrite includes_unfold. change (String c before +:+ needle +:+ rest)
      with (String c (before +:+ needle +:+ rest)).
    cbv beta iota. rewrite IH. apply orb_true_r.
Qed.

Lemma append_assoc (a b c : string) : (a +:+ b) +:+ c = a +:+ b +:+ c.
Proof.
  induction a as [|x a IH]; [reflexivity|].
  change (String x ((a +:+ b) +:+ c) = String x (a +:+ b +:+ c)). now rewrite IH.
Qed.

Lemma includes_suffix (before needle : string) :
  includes (before +:+ needle) needle = true.
Proof.
  assert (H := includes_app before needle "").
  replace (needle +:+ "") with needle in H; [exact H|].
  clear. induction needle as [|c needle IH]; [reflexivity|].
  change (String c needle +:+ "") with (String c (needle +:+ "")).
  f_equal. exact IH.
Qed.

(** *** [trim] *)

Lemma blank_forallb (s : string) :
  blank s = forallb isWhiteSpace (list_ascii_of_string s).
Proof. induction s; simpl; congruence. Qed.

Lemma truthy_of_list (l : list ascii) :
  truthy (string_of_list_ascii l) = negb (Nat.eqb (length l) 0).
Proof. destruct l; reflexivity. Qed.

Lemma truthy_reverse (s : string) : truthy (reverse s) = truthy s.
Proof.
  unfold reverse. rewrite truthy_of_list, length_rev.
  destruct s; reflexivity.
Qed.

Lemma blank_reverse (s : string) : blank (reverse s) = blank s.
Proof.
  unfold reverse.
  rewrite !blank_forallb, list_ascii_of_string_of_list_ascii.
  generalize (list_ascii_of_string s). intros l.
  induction l as [|c l IH]; simpl; [reflexivity|].
  rewrite forallb_app, IH. simpl. rewrite andb_true_r. apply andb_comm.
Qed.

Lemma truthy_trimStart (s : string) : truthy (trimStart s) = negb (blank s).
Proof.
  induction s as [|c s IH]; simpl; [reflexivity|].
  destruct (isWhiteSpace c); simpl; [exact IH | reflexivity].
Qed.

Lemma blank_trimStart (s : string) : blank (trimStart s) = blank s.
Proof.
  induction s as [|c s IH]; simpl; [reflexivity|].
  destruct (isWhiteSpace c) eqn:E; simpl; [exact IH | now rewrite E].
Qed.

(** [prompt.trim()] is falsy exactly when the prompt is empty or all white
    space. *)
Lemma truthy_trim (s : string) : truthy (trim s) = negb (blank s).
Proof.
  unfold trim, trimEnd.
  now rewrite truthy_reverse, truthy_trimStart, blank_reverse, blank_trimStart.
Qed.

(** *** Decimal numerals *)

Lemma all_chars_app (p : ascii -> bool) (a b : string) :
  all_chars p (a +:+ b) = all_chars p a && all_chars p b.
Proof.
  induction a as [|c a IH]; simpl; [reflexivity|].
  now rewrite IH, andb_assoc.
Qed.

Lemma digits_of_uint (d : Decimal.uint) :
  all_chars isDigit (NilEmpty.string_of_uint d) = true.
Proof. induction d; simpl; auto. Qed.

Lemma show_N_digits (n : N) : all_chars isDigit (show_N n) = true.
Proof.
  unfold show_N, NilZero.string_of_uint.
  destruct (N.to_uint n) eqn:E; try reflexivity;
    rewrite <- E; apply digits_of_uint || (rewrite E; apply digits_of_uint).
Qed.

(** A numeral holds no underscore. *)
Lemma numeral_no_underscore (name : string) (a b : N) :
  name +:+ "_" +:+ show_N a <> show_N b.
Proof.
  intros H.
  assert (D := show_N_digits b). rewrite <- H, all_chars_app in D.
  simpl in D. rewrite andb_false_r in D. discriminate.
Qed.

End JsStringFacts.

(** ** The tool loop of the Ollama provider *)

Module OllamaFacts.
Import Ollama.

(** An event list that is cut at a provider request cannot be cut inside a
    prefix that holds no request. *)
Lemma split_at_chat (l1 l2 pre post : list Event) (e : Event) :
  Forall notChat l1 -> isChat e = true ->
  l1 ++ l2 = pre ++ e :: post ->
  exists pre', pre = l1 ++ pre' /\ l2 = pre' ++ e :: post.
Proof.
  intros Hl1 He. revert pre.
  induction Hl1 as [|x l1 Hx Hl1 IH]; intros pre H; simpl in H.
  - exists pre. split; [reflexivity | exact H].
  - destruct pre as [|p pre]; simpl in H; injection H as -> H.
    + unfold notChat in Hx. congruence.
    + destruct (IH _ H) as (pre' & -> & ->). exists pre'. split; reflexivity.
Qed.


Section Provider.

Context {World : Type}.
Variable chat : World -> list Message -> list Tool -> N -> Awaited Message * World.
Variable callTool : World -> Client -> string -> Json -> N -> Awaited Json * World.
Variable JSON_stringify : Json -> string.
Variable ollamaTools : list Tool.
Variable toolClientMap : gmap string Client.

Local Abbreviation forToolCalls := (forToolCalls callTool JSON_stringify toolClientMap).
Local Abbreviation whileLoop :=
  (whileLoop chat callTool JSON_stringify ollamaTools toolClientMap).
Local Abbreviation toolRound := (toolRound JSON_stringify toolClientMap).
Local Abbreviation answersCall := (answersCall toolClientMap).
Local Abbreviation loopTrace := (loopTrace JSON_stringify ollamaTools toolClientMap).

Lemma forToolCalls_round (calls : list ToolCall) (w : World) (msgs : list Message) :
  toolRound calls (fst (fst (forToolCalls calls w msgs))).
Proof.
  revert w msgs. induction calls as [|call calls IH]; intros w msgs; simpl.
  - reflexivity.
  - destruct (toolClientMap !! function_name call) as [client|].
    + destruct (callTool w client _ _ _) as [response w1].
      match goal with
      | |- context [forToolCalls calls w1 ?ms] =>
          specialize (IH w1 ms); destruct (forToolCalls calls w1 ms) as [[tr ms'] w']
      end.
      simpl in *. eauto.
    + match goal with
      | |- context [forToolCalls calls w ?ms] =>
          specialize (IH w ms); destruct (forToolCalls calls w ms) as [[tr ms'] w']
      end.
      simpl in *. eauto.
Qed.

Lemma toolRound_notChat (calls : list ToolCall) (tr : list Event) :
  toolRound calls tr -> Forall notChat tr.
Proof.
  revert tr. induction calls as [|call calls IH]; intros tr; simpl.
  - intros ->. constructor.
  - destruct (toolClientMap !! function_name call).
    + intros (response & tr' & -> & H).
      repeat constructor. now apply IH.
    + intros (tr' & -> & H). repeat constructor. now apply IH.
Qed.

Lemma toolRound_answers (calls : list ToolCall) (tr : list Event) :
  toolRound calls tr -> Forall2 answersCall calls (yielded tr).
Proof.
  revert tr. induction calls as [|call calls IH]; intros tr; simpl.
  - intros ->. constructor.
  - destruct (toolClientMap !! function_name call) eqn:E.
    + intros (response & tr' & -> & H). simpl. constructor; [|now apply IH].
      unfold answersCall. rewrite E. repeat split. discriminate.
    + intros (tr' & -> & H). simpl. constructor; [|now apply IH].
      unfold answersCall. repeat split.
Qed.


Lemma forToolCalls_msgs (calls : list ToolCall) (w : World) (msgs : list Message) :
  snd (fst (forToolCalls calls w msgs))
  = msgs ++ yielded (fst (fst (forToolCalls calls w msgs))).
Proof.
  revert w msgs. induction calls as [|call calls IH]; intros w msgs; simpl.
  - now rewrite app_nil_r.
  - destruct (toolClientMap !! function_name call) as [client|].
    + destruct (callTool w client _ _ _) as [response w1].
      match goal with
      | |- context [forToolCalls calls w1 ?ms] =>
          specialize (IH w1 ms); destruct (forToolCalls calls w1 ms) as [[tr ms'] w']
      end.
      simpl in *. now rewrite IH, <- app_assoc.
    + match goal with
      | |- context [forToolCalls calls w ?ms] =>
          specialize (IH w ms); destruct (forToolCalls calls w ms) as [[tr ms'] w']
      end.
      simpl in *. now rewrite IH, <- app_assoc.
Qed.

(** The loop follows the rules. *)
Lemma whileLoop_trace (left : nat) (w : World) (msgs : list Message) :
  loopTrace left msgs (events (whileLoop left w msgs))
            (completion (whileLoop left w msgs)).
Proof.
  revert w msgs. induction left as [|left IH]; intros w msgs; simpl.
  - constructor.
  - destruct (chat w msgs ollamaTools OLLAMA_API_TIMEOUT) as [[message|e|err] w1].
    + destruct (no_tool_calls message) eqn:Hcalls.
      * now constructor.
      * assert (R := forToolCalls_round (default [] (tool_calls message)) w1
                       (msgs ++ [message])).
        assert (M := forToolCalls_msgs (default [] (tool_calls message)) w1
                       (msgs ++ [message])).
        destruct (forToolCalls _ w1 _) as [[calls msgs2] w2]. simpl in R, M.
        specialize (IH w2 msgs2).
        destruct (whileLoop left w2 msgs2) as [[tr c] w'].
        unfold events, completion in *. simpl in *.
        apply loop_tools; [assumption | assumption |].
        rewrite M, <- app_assoc in IH. exact IH.
    + specialize (IH w1 (msgs ++ [timeoutApology])).
      destruct (whileLoop left w1 _) as [[tr c] w'].
      unfold events, completion in *. simpl in *.
      now apply loop_timeout.
    + apply loop_error.
Qed.

Lemma chat_requests_app (l1 l2 : list Event) :
  chat_requests (l1 ++ l2) = chat_requests l1 + chat_requests l2.
Proof. unfold chat_requests. now rewrite List.filter_app, length_app. Qed.

Lemma chat_requests_notChat (l : list Event) :
  Forall notChat l -> chat_requests l = 0.
Proof.
  unfold chat_requests. induction 1 as [|x l Hx Hl IH]; simpl; [reflexivity|].
  unfold notChat in Hx. now rewrite Hx.
Qed.

Lemma yielded_app (l1 l2 : list Event) : yielded (l1 ++ l2) = yielded l1 ++ yielded l2.
Proof.
  induction l1 as [|e l1 IH]; [reflexivity|].
  destruct e; simpl; try exact IH. now rewrite IH.
Qed.

Lemma tool_calls_requested_app (l1 l2 : list Event) :
  tool_calls_requested (l1 ++ l2) = tool_calls_requested l1 + tool_calls_requested l2.
Proof.
  induction l1 as [|e l1 IH]; [reflexivity|].
  destruct e as [? ? ? []| |]; simpl; try exact IH. rewrite IH. lia.
Qed.

Lemma tool_calls_requested_notChat (l : list Event) :
  Forall notChat l -> tool_calls_requested l = 0.
Proof.
  induction 1 as [|x l Hx Hl IH]; [reflexivity|].
  destruct x; try exact IH. unfold notChat in Hx. discriminate.
Qed.

Lemma toolRound_yields (calls : list ToolCall) (tr : list Event) :
  toolRound calls tr -> length (yielded tr) = length calls.
Proof.
  intros H. apply toolRound_answers in H. symmetry.
  eapply Forall2_length. exact H.
Qed.

(** The loop makes at most as many provider requests as it has
    iterations. *)
Lemma loop_requests_bounded left msgs tr c :
  loopTrace left msgs tr c -> chat_requests tr <= left.
Proof.
  induction 1 as [msgs | left msgs e tr c H IH | left msgs err
                 | left msgs message Hc | left msgs message calls tr c Hc R H IH].
  - apply Nat.le_refl.
  - change (S (chat_requests tr) <= S left). lia.
  - unfold chat_requests. simpl. lia.
  - unfold chat_requests. simpl. lia.
  - change (S (chat_requests (calls ++ tr)) <= S left).
    rewrite chat_requests_app, (chat_requests_notChat calls); [lia|].
    exact (toolRound_notChat _ _ R).
Qed.

(** One message per request and per requested tool call, at most. *)
Lemma loop_yields_bounded left msgs tr c :
  loopTrace left msgs tr c ->
  length (yielded tr) <= chat_requests tr + tool_calls_requested tr.
Proof.
  induction 1 as [msgs | left msgs e tr c H IH | left msgs err
                 | left msgs message Hc | left msgs message calls tr c Hc R H IH].
  - apply Nat.le_refl.
  - change (S (length (yielded tr))
            <= S (chat_requests tr) + tool_calls_requested tr). lia.
  - unfold chat_requests. simpl. lia.
  - unfold chat_requests. simpl. lia.
  - change (S (length (yielded (calls ++ tr)))
            <= S (chat_requests (calls ++ tr))
               + (requested_calls message + tool_calls_requested (calls ++ tr))).
    rewrite yielded_app, length_app, chat_requests_app, tool_calls_requested_app.
    rewrite (toolRound_yields _ _ R).
    rewrite (chat_requests_notChat calls), (tool_calls_requested_notChat calls)
      by exact (toolRound_notChat _ _ R).
    unfold requested_calls. destruct (tool_calls message); simpl in *; lia.
Qed.

(** The head of the events: nothing when no iteration is left, a
    request with the conversation otherwise. *)
Lemma loop_head left msgs tr c :
  loopTrace left msgs tr c ->
  (left = 0 /\ tr = [] /\ c = Returned)
  \/ exists response tr', tr = request ollamaTools msgs response :: tr'.
Proof. destruct 1; eauto. Qed.

(** Where an event list that starts with a request and a yielded
    message is cut: at the request, at the message, or later. *)
Ltac cut_head pre Heq :=
  unfold request in Heq;
  destruct pre as [|? [|? pre]]; simpl in Heq;
  inversion Heq; clear Heq;
  repeat match goal with
         | H : ollamaTools = ?x |- _ => subst x
         | H : ?x = ollamaTools |- _ => subst x
         end;
  subst;
  try match goal with
      | H : [] = ?p ++ _ :: _ |- _ => now destruct p
      end.

Ltac cut_round pre R H :=
  let pre' := fresh pre in
  apply split_at_chat in H;
  [ destruct H as (pre' & -> & ->)
  | exact (toolRound_notChat _ _ R)
  | reflexivity ].

(** A provider answer without tool calls is the last thing the loop
    emits. *)
Lemma loop_answer_ends left msgs tr c :
  loopTrace left msgs tr c ->
  forall pre post ms tools t message,
    tr = pre ++ EChat ms tools t (Fulfilled message) :: post ->
    no_tool_calls message = true ->
    post = [EYield message] /\ c = Returned.
Proof.
  induction 1 as [msgs | left msgs e tr c H IH | left msgs err
                 | left msgs message Hc | left msgs message calls tr c Hc R H IH];
    intros pre post ms tools t m Heq Hm.
  - destruct pre; discriminate.
  - cut_head pre Heq. eapply IH; eauto.
  - cut_head pre Heq.
  - cut_head pre Heq. split; reflexivity.
  - cut_head pre Heq; [congruence|].
    match goal with H : _ ++ _ = _ ++ _ |- _ => cut_round pre R H end.
    eapply IH; eauto.
Qed.

(** After a provider timeout the apology is emitted, and the request is
    made again with the apology in the conversation, unless the
    iterations are used up. *)
Lemma loop_timeout_retries left msgs tr c :
  loopTrace left msgs tr c ->
  forall pre post ms tools t e,
    tr = pre ++ EChat ms tools t (TimeoutError e) :: post ->
    exists post',
      post = EYield timeoutApology :: post' /\
      ((post' = [] /\ chat_requests tr = left /\ c = Returned)
       \/ exists response post'',
            post' = EChat (ms ++ [timeoutApology]) tools t response :: post'').
Proof.
  induction 1 as [msgs | left msgs e tr c H IH | left msgs err
                 | left msgs message Hc | left msgs message calls tr c Hc R H IH];
    intros pre post ms tools t e' Heq.
  - destruct pre; discriminate.
  - cut_head pre Heq.
    + eexists. split; [reflexivity|].
      destruct (loop_head _ _ _ _ H) as [(-> & -> & ->) | (response & tr' & ->)].
      * left. repeat split.
      * right. unfold request. eauto.
    + destruct (IH _ _ _ _ _ _ eq_refl) as (post' & -> & [(-> & Hn & ->) | Hnext]).
      * eexists. split; [reflexivity|]. left. repeat split.
        unfold chat_requests in *. simpl. now rewrite Hn.
      * eexists. split; [reflexivity|]. right. exact Hnext.
  - cut_head pre Heq.
  - cut_head pre Heq.
  - cut_head pre Heq.
    match goal with H : _ ++ _ = _ ++ _ |- _ => cut_round pre R H end.
    destruct (IH _ _ _ _ _ _ eq_refl) as (post' & -> & [(-> & Hn & ->) | Hnext]).
    + eexists. split; [reflexivity|]. left. repeat split.
      assert (Hcalls := chat_requests_notChat calls (toolRound_notChat _ _ R)).
      unfold chat_requests in *. simpl.
      now rewrite List.filter_app, length_app, Hcalls, Hn.
    + eexists. split; [reflexivity|]. right. exact Hnext.
Qed.


(** Only a provider error makes the loop throw, and it is the last
    event then. *)
Lemma loop_throws left msgs tr c :
  loopTrace left msgs tr c ->
  forall err, c = Threw err ->
    exists pre ms, tr = pre ++ [request ollamaTools ms (OtherError err)].
Proof.
  induction 1 as [msgs | left msgs e tr c H IH | left msgs err
                 | left msgs message Hc | left msgs message calls tr c Hc R H IH];
    intros err' Hthrow; try discriminate.
  - destruct (IH _ Hthrow) as (pre & ms & ->).
    exists (request ollamaTools msgs (TimeoutError e) :: EYield timeoutApology :: pre), ms.
    reflexivity.
  - injection Hthrow as ->. exists [], msgs. reflexivity.
  - destruct (IH _ Hthrow) as (pre & ms & ->).
    exists (request ollamaTools msgs (Fulfilled message) :: EYield message
              :: calls ++ pre), ms.
    simpl. now rewrite <- app_assoc.
Qed.





End Provider.

(** *** The tool map *)



Section Execute.

Context {World : Type}.
Variable chat : World -> list Message -> list Tool -> N -> Awaited Message * World.
Variable callTool : World -> Client -> string -> Json -> N -> Awaited Json * World.
Variable Date_now : nat -> N.
Variable JSON_parse : string -> option Json.
Variable JSON_stringify : Json -> string.

Variable prompt : string.
Variable toolLists : list (option (list ToolInfo)).
Variable previousMessages : option (list MessageParam).
Variable w : World.

Local Abbreviation run :=
  (_executePromptWithTools chat callTool JSON_stringify prompt toolLists
     previousMessages w).
Local Abbreviation ollamaTools := (fst (aggregateTools 0 toolLists ([], ∅))).
Local Abbreviation toolClientMap := (snd (aggregateTools 0 toolLists ([], ∅))).
Local Abbreviation history :=
  (map (convertAnthropicMessageToOllama JSON_stringify) (default [] previousMessages)).
Local Abbreviation promptMessage :=
  {| role := user; content := prompt; tool_calls := None |}.

(** The generator emits the prompt, if there is one, and runs the loop
    for [MAX_ITERATIONS] iterations. *)
Lemma execute_trace :
  exists head msgs tr,
    events run = head ++ tr /\
    loopTrace JSON_stringify ollamaTools toolClientMap MAX_ITERATIONS msgs tr
              (completion run) /\
    ((JsString.blank prompt = true /\ head = [] /\ msgs = history)
     \/ (JsString.blank prompt = false /\ head = [EYield promptMessage]
         /\ msgs = history ++ [promptMessage])).
Proof.
  unfold _executePromptWithTools.
  destruct (aggregateTools 0 toolLists ([], ∅)) as [tools clients] eqn:Eagg.
  rewrite JsStringFacts.truthy_trim.
  destruct (JsString.blank prompt) eqn:Eblank; cbn [negb fst snd].
  - exists [], history, (events (whileLoop chat callTool JSON_stringify tools clients
                                MAX_ITERATIONS w history)).
    split; [reflexivity|]. split; [apply whileLoop_trace | left; auto].
  - assert (T := whileLoop_trace chat callTool JSON_stringify tools clients
                   MAX_ITERATIONS w (history ++ [promptMessage])).
    destruct (whileLoop chat callTool JSON_stringify tools clients MAX_ITERATIONS w
                (history ++ [promptMessage])) as [[tr c] w'].
    exists [EYield promptMessage], (history ++ [promptMessage]), tr.
    split; [reflexivity|]. split; [exact T | right; auto].
Qed.

Lemma head_notChat (head : list Event) :
  head = [] \/ head = [EYield promptMessage] -> Forall notChat head.
Proof. intros [-> | ->]; repeat constructor. Qed.

Ltac with_trace :=
  destruct execute_trace as (head & msgs & tr & Hev & Hloop & Hhead);
  assert (Hshape : head = [] \/ head = [EYield promptMessage])
    by (destruct Hhead as [(_ & -> & _) | (_ & -> & _)]; auto);
  assert (HnotChat := head_notChat head Hshape).

(** C3: the tool loop makes at most [MAX_ITERATIONS] = 10 provider
    requests; a provider answer that holds no tool calls is emitted and
    is the last event of the generator, which then returns; and the
    emitted sequence is finite: beyond the prompt it has at most one
    message for each request and one for each tool call the provider
    asked for. *)
Theorem C3_tool_loop_terminates :
  MAX_ITERATIONS = 10 /\
  chat_requests (events run) <= MAX_ITERATIONS /\
  (forall pre post ms tools t message,
      events run = pre ++ EChat ms tools t (Fulfilled message) :: post ->
      no_tool_calls message = true ->
      post = [EYield message] /\ completion run = Returned) /\
  length (yielded (events run))
  <= 1 + chat_requests (events run) + tool_calls_requested (events run).
Proof.
  with_trace. rewrite Hev. split; [reflexivity|].
  rewrite chat_requests_app, (chat_requests_notChat head HnotChat).
  rewrite tool_calls_requested_app, (tool_calls_requested_notChat head HnotChat).
  rewrite yielded_app, length_app.
  split; [eapply loop_requests_bounded; exact Hloop|]. split.
  - intros pre post ms tools t message Hcut Hanswer.
    apply split_at_chat in Hcut; [|assumption|reflexivity].
    destruct Hcut as (pre' & _ & Hcut).
    eapply loop_answer_ends; [exact Hloop | exact Hcut | exact Hanswer].
  - assert (B : length (yielded tr) <= chat_requests tr + tool_calls_requested tr)
      by (eapply loop_yields_bounded; exact Hloop).
    destruct Hshape as [-> | ->]; simpl; lia.
Qed.

(** C4, as the code has it: when a provider request times out, the loop
    appends the apology of the assistant to the conversation and emits
    it; then it makes the request again, with the apology in the
    conversation, however many timeouts came before, and it stops only
    when that was the last of the [MAX_ITERATIONS] requests. *)
Theorem C4_provider_timeout_retried :
  forall pre post ms tools t e,
    events run = pre ++ EChat ms tools t (TimeoutError e) :: post ->
    exists post',
      post = EYield timeoutApology :: post' /\
      ((post' = [] /\ chat_requests (events run) = MAX_ITERATIONS
        /\ completion run = Returned)
       \/ exists response post'',
            post' = EChat (ms ++ [timeoutApology]) tools t response :: post'').
Proof.
  with_trace. rewrite Hev. intros pre post ms tools t e Hcut.
  rewrite chat_requests_app, (chat_requests_notChat head HnotChat).
  apply split_at_chat in Hcut; [|assumption|reflexivity].
  destruct Hcut as (pre' & _ & Hcut).
  eapply loop_timeout_retries; [exact Hloop | exact Hcut].
Qed.

(** Only a provider error escapes the generator, as its last event. *)
Lemma execute_throws (err : string) :
  completion run = Threw err ->
  exists pre ms tools t, events run = pre ++ [EChat ms tools t (OtherError err)].
Proof.
  with_trace. intros Hthrow.
  eapply loop_throws in Hloop; [|exact Hthrow]. destruct Hloop as (pre & ms & ->).
  exists (head ++ pre), ms, ollamaTools, OLLAMA_API_TIMEOUT.
  now rewrite Hev, <- app_assoc.
Qed.






(** The first message of the loop comes from the assistant, when the
    provider answers as the assistant. *)
Lemma whileLoop_first_yield tools clients (left : nat) (w0 : World) (msgs : list Message)
    (m : Message) :
  (forall w ms ts t m w', chat w ms ts t = (Fulfilled m, w') -> role m = assistant) ->
  head (yielded (events (whileLoop chat callTool JSON_stringify tools clients
                           left w0 msgs))) = Some m ->
  role m = assistant.
Proof.
  intros Hrole. destruct left as [|left]; simpl; [discriminate|].
  destruct (chat w0 msgs tools OLLAMA_API_TIMEOUT) as [[message|e|err] w1] eqn:Hchat.
  - apply Hrole in Hchat. destruct (no_tool_calls message).
    + simpl. congruence.
    + destruct (forToolCalls _ _ _ _ _ _) as [[calls msgs2] w2].
      destruct (whileLoop _ _ _ _ _ _ _ _) as [[tr c] w']. simpl. congruence.
  - destruct (whileLoop _ _ _ _ _ _ _ _) as [[tr c] w']. simpl.
    intros [= <-]. reflexivity.
  - discriminate.
Qed.

Lemma convert_assistant (clock : nat) (m : Message) :
  role m = assistant ->
  mp_role (fst (convertOllamaMessageToAnthropic Date_now JSON_parse clock m))
  = assistant.
Proof.
  unfold convertOllamaMessageToAnthropic. intros ->.
  destruct (tool_calls m) as [calls|]; [|reflexivity].
  now destruct (toolUseBlocks Date_now clock calls).
Qed.

Lemma head_convertAll (clock : nat) (ms : list Message) :
  head (convertAll Date_now JSON_parse clock ms)
  = (fun m => fst (convertOllamaMessageToAnthropic Date_now JSON_parse clock m))
      <$> head ms.
Proof.
  destruct ms as [|m ms]; [reflexivity|]. simpl.
  now destruct (convertOllamaMessageToAnthropic Date_now JSON_parse clock m).
Qed.

Local Abbreviation output :=
  (executePromptWithTools chat callTool Date_now JSON_parse JSON_stringify
     prompt toolLists previousMessages w).

(** C9: when the prompt is empty or all white space, the first thing the
    generator does is to ask the provider, with the converted previous
    messages as the whole conversation, and the first message of the
    stream, if there is one, is not a user message (the provider
    answering as the assistant); when the prompt has another character,
    the first message of the stream is the user message that carries
    it, and the conversation of the first request ends with it. *)
Theorem C9_prompt_message :
  (forall w ms ts t m w', chat w ms ts t = (Fulfilled m, w') -> role m = assistant) ->
  (JsString.blank prompt = true ->
   (exists response rest,
       events run = EChat history ollamaTools OLLAMA_API_TIMEOUT response :: rest) /\
   (forall m, head output = Some m -> mp_role m <> user)) /\
  (JsString.blank prompt = false ->
   (exists response rest,
       events run = EYield promptMessage
                    :: EChat (history ++ [promptMessage]) ollamaTools
                         OLLAMA_API_TIMEOUT response
                    :: rest) /\
   head output = Some {| mp_role := user; mp_content := ContentString prompt |}).
Proof.
  intros Hrole. split; intros Hblank.
  - split.
    + with_trace. destruct Hhead as [(_ & -> & ->) | (Hno & _)]; [|congruence].
      apply loop_head in Hloop.
      destruct Hloop as [(Hzero & _) | (response & rest & ->)]; [discriminate|].
      exists response, rest. exact Hev.
    + intros m. unfold executePromptWithTools, _executePromptWithTools.
      destruct (aggregateTools 0 toolLists ([], ∅)) as [tools clients].
      rewrite JsStringFacts.truthy_trim, Hblank. cbn [negb].
      rewrite head_convertAll.
      destruct (head (yielded _)) as [first|] eqn:Hfirst; [|discriminate].
      apply (whileLoop_first_yield _ _ _ _ _ _ Hrole) in Hfirst.
      intros [= <-]. rewrite (convert_assistant 0 first Hfirst). discriminate.
  - split.
    + with_trace. destruct Hhead as [(Hyes & _) | (_ & -> & ->)]; [congruence|].
      apply loop_head in Hloop.
      destruct Hloop as [(Hzero & _) | (response & rest & ->)]; [discriminate|].
      exists response, rest. exact Hev.
    + unfold executePromptWithTools, _executePromptWithTools.
      destruct (aggregateTools 0 toolLists ([], ∅)) as [tools clients].
      rewrite JsStringFacts.truthy_trim, Hblank. cbn [negb].
      destruct (whileLoop _ _ _ _ _ _ _ _) as [[tr c] w']. reflexivity.
Qed.

End Execute.

(** *** The fabricated ids *)

Section Ids.

Variable Date_now : nat -> N.
Variable JSON_parse : string -> option Json.

(** The id of a [tool_use] is never the id of a [tool_result]. *)
Lemma useId_not_resultId (id : string) : useId id -> resultId id -> False.
Proof.
  intros (name & a & ->) (b & H). simpl in H. injection H as H.
  exact (JsStringFacts.numeral_no_underscore name a b H).
Qed.

Lemma toolUseBlocks_ids (clock : nat) (calls : list ToolCall) :
  let blocks := fst (toolUseBlocks Date_now clock calls) in
  Forall useId (flat_map (fun b => match b with ToolUseBlock id _ _ => [id] | _ => [] end)
                         blocks)
  /\ flat_map (fun b => match b with ToolResultBlock id _ => [id] | _ => [] end) blocks
     = [].
Proof.
  revert clock. induction calls as [|call calls IH]; intros clock; simpl.
  - split; [constructor | reflexivity].
  - specialize (IH (S clock)).
    destruct (toolUseBlocks Date_now (S clock) calls) as [blocks clock']. simpl in *.
    destruct IH as [IH1 IH2]. split; [|exact IH2].
    constructor; [|exact IH1]. unfold useId. eauto.
Qed.

Lemma convert_fabricated (clock : nat) (m : Message) :
  fabricated (fst (convertOllamaMessageToAnthropic Date_now JSON_parse clock m)).
Proof.
  unfold convertOllamaMessageToAnthropic, fabricated, toolUseIds, toolResultIds, blocksOf.
  destruct (role m), (tool_calls m) as [calls|]; simpl;
    try (split; repeat constructor; unfold resultId; eauto; fail).
  assert (H := toolUseBlocks_ids clock calls).
  destruct (toolUseBlocks Date_now clock calls) as [blocks clock']. simpl in *.
  destruct H as [H1 H2].
  destruct (JsString.truthy (content m)); simpl; rewrite ?H2; split;
    auto; constructor.
Qed.

Lemma convertAll_fabricated (clock : nat) (ms : list Message) :
  Forall fabricated (convertAll Date_now JSON_parse clock ms).
Proof.
  revert clock. induction ms as [|m ms IH]; intros clock; simpl; [constructor|].
  assert (H := convert_fabricated clock m).
  destruct (convertOllamaMessageToAnthropic Date_now JSON_parse clock m) as [p clock'].
  constructor; [exact H | apply IH].
Qed.

Lemma answered_resultIds (out : list MessageParam) (id : string) :
  Forall fabricated out -> In id (answeredBeforeNextAssistant out) -> resultId id.
Proof.
  induction 1 as [|m out [_ Hm] Hout IH]; simpl; [tauto|].
  destruct (Role_eqb (mp_role m) assistant); [intros []|].
  intros Hin. apply in_app_or in Hin. destruct Hin as [Hin|Hin]; [|auto].
  rewrite List.Forall_forall in Hm. auto.
Qed.

(** The pairing invariant can only hold of a stream in which no
    assistant message uses a tool. *)
Lemma paired_without_tool_use (clock : nat) (ms : list Message) :
  paired (convertAll Date_now JSON_parse clock ms) = true ->
  Forall (fun m => mp_role m = assistant -> toolUseIds m = [])
         (convertAll Date_now JSON_parse clock ms).
Proof.
  assert (F := convertAll_fabricated clock ms). revert F.
  generalize (convertAll Date_now JSON_parse clock ms). intros out.
  induction 1 as [|m out Hm Hout IH]; simpl; [constructor|].
  intros H. apply andb_prop in H. destruct H as [Hhere Hrest].
  constructor; [|now apply IH].
  intros Hrole. rewrite Hrole in Hhere. simpl in Hhere.
  destruct (toolUseIds m) as [|id ids] eqn:Hids; [reflexivity|exfalso].
  simpl in Hhere. apply andb_prop in Hhere. destruct Hhere as [Hid _].
  unfold elemb in Hid. apply existsb_exists in Hid. destruct Hid as (id' & Hin & Heq).
  apply String.eqb_eq in Heq. subst id'.
  destruct Hm as [Huse _]. rewrite Hids in Huse.
  apply (useId_not_resultId id); [now inversion Huse|].
  eapply answered_resultIds; eauto.
Qed.

End Ids.

(** *** The numbers of blocks *)

Section Counts.

Context {World : Type}.
Variable chat : World -> list Message -> list Tool -> N -> Awaited Message * World.
Variable callTool : World -> Client -> string -> Json -> N -> Awaited Json * World.
Variable Date_now : nat -> N.
Variable JSON_parse : string -> option Json.
Variable JSON_stringify : Json -> string.

Hypothesis assistant_answers :
  forall w ms ts t m w', chat w ms ts t = (Fulfilled m, w') -> role m = assistant.

Lemma toolUseBlocks_length (clock : nat) (calls : list ToolCall) :
  let blocks := fst (toolUseBlocks Date_now clock calls) in
  length (flat_map (fun b => match b with ToolUseBlock id _ _ => [id] | _ => [] end) blocks)
  = length calls.
Proof.
  revert clock. induction calls as [|call calls IH]; intros clock; simpl; [reflexivity|].
  specialize (IH (S clock)).
  destruct (toolUseBlocks Date_now (S clock) calls) as [blocks clock']. simpl in *.
  now rewrite IH.
Qed.

Lemma convert_counts (clock : nat) (m : Message) :
  let p := fst (convertOllamaMessageToAnthropic Date_now JSON_parse clock m) in
  length (toolUseIds p) = usesOf m /\ length (toolResultIds p) = resultsIn m.
Proof.
  unfold convertOllamaMessageToAnthropic, usesOf, resultsIn, toolUseIds, toolResultIds,
    blocksOf.
  destruct (role m), (tool_calls m) as [calls|]; simpl; try (split; reflexivity).
  assert (L := toolUseBlocks_length clock calls).
  assert (I := toolUseBlocks_ids Date_now clock calls).
  destruct (toolUseBlocks Date_now clock calls) as [blocks clock']. simpl in *.
  destruct I as [_ I].
  destruct (JsString.truthy (content m)); simpl; rewrite I, L; split; reflexivity.
Qed.

Lemma convertAll_counts (clock : nat) (ms : list Message) :
  countToolUse (convertAll Date_now JSON_parse clock ms) = list_sum (map usesOf ms)
  /\ countToolResult (convertAll Date_now JSON_parse clock ms)
     = list_sum (map resultsIn ms).
Proof.
  unfold countToolUse, countToolResult.
  revert clock. induction ms as [|m ms IH]; intros clock; simpl; [split; reflexivity|].
  assert (C := convert_counts clock m).
  destruct (convertOllamaMessageToAnthropic Date_now JSON_parse clock m) as [p clock'].
  simpl in *. destruct C as [C1 C2]. destruct (IH clock') as [IH1 IH2].
  rewrite !length_app, C1, C2, IH1, IH2. split; reflexivity.
Qed.

Lemma whileLoop_assistant tools clients (left : nat) (w : World) (msgs : list Message) :
  Forall answersAsAssistant
         (events (whileLoop chat callTool JSON_stringify tools clients left w msgs)).
Proof.
  revert w msgs. induction left as [|left IH]; intros w msgs; simpl; [constructor|].
  destruct (chat w msgs tools OLLAMA_API_TIMEOUT) as [[message|e|err] w1] eqn:Hchat.
  - apply assistant_answers in Hchat.
    destruct (no_tool_calls message); [repeat constructor; assumption|].
    assert (R := forToolCalls_round callTool JSON_stringify clients
                   (default [] (tool_calls message)) w1 (msgs ++ [message])).
    destruct (forToolCalls _ _ _ _ _ _) as [[calls msgs2] w2]. simpl in R.
    specialize (IH w2 msgs2).
    destruct (whileLoop _ _ _ _ _ _ _ _) as [[tr c] w']. unfold events in *. simpl in *.
    repeat constructor; [assumption|]. apply Forall_app. split; [|exact IH].
    apply toolRound_notChat in R. clear -R.
    induction R as [|x l Hx Hl IHl]; constructor; [|exact IHl].
    destruct x; try exact I. discriminate Hx.
  - specialize (IH w1 (msgs ++ [timeoutApology])).
    destruct (whileLoop _ _ _ _ _ _ _ _) as [[tr c] w']. unfold events in *. simpl in *.
    repeat constructor. exact IH.
  - repeat constructor.
Qed.

Lemma toolRound_counts clients (calls : list ToolCall) (tr : list Event) :
  toolRound JSON_stringify clients calls tr ->
  list_sum (map usesOf (yielded tr)) = 0
  /\ list_sum (map resultsIn (yielded tr)) = length calls.
Proof.
  intros R. apply toolRound_answers in R.
  induction R as [|call m calls ms (Hrole & Hnone & _) _ [IH1 IH2]]; simpl;
    [split; reflexivity|].
  unfold usesOf at 1, resultsIn at 1. rewrite Hrole, IH1, IH2. split; reflexivity.
Qed.

Lemma loop_counts tools clients left msgs tr c :
  loopTrace JSON_stringify tools clients left msgs tr c ->
  Forall answersAsAssistant tr ->
  list_sum (map resultsIn (yielded tr)) = list_sum (map usesOf (yielded tr)).
Proof.
  induction 1 as [msgs | left msgs e tr c H IH | left msgs err
                 | left msgs message Hc | left msgs message calls tr c Hc R H IH];
    intros Hroles; simpl.
  - reflexivity.
  - inversion Hroles as [|? ? _ Hrest]; inversion Hrest; subst. auto.
  - reflexivity.
  - inversion Hroles as [|? ? Hrole _]; subst. simpl in Hrole.
    unfold usesOf, resultsIn. rewrite Hrole. unfold no_tool_calls in Hc.
    destruct (tool_calls message) as [[|]|]; simpl in *;
      [reflexivity | discriminate | reflexivity].
  - inversion Hroles as [|? ? Hrole Hrest]; subst. simpl in Hrole.
    inversion Hrest as [|? ? _ Hrest']; subst.
    apply Forall_app in Hrest'. destruct Hrest' as [_ Htr].
    assert (Huses : usesOf message = length (default [] (tool_calls message)))
      by (unfold usesOf; rewrite Hrole; now destruct (tool_calls message)).
    assert (Hresults : resultsIn message = 0) by (unfold resultsIn; now rewrite Hrole).
    rewrite yielded_app, !map_app, !list_sum_app, (IH Htr), Huses, Hresults.
    destruct (toolRound_counts _ _ _ R) as [-> ->]. lia.
Qed.

(** Every [tool_use] block of the stream has its [tool_result] block, as
    far as their number goes. *)
Lemma tool_blocks_balanced prompt toolLists previousMessages (w : World) :
  let out :=
    executePromptWithTools chat callTool Date_now JSON_parse JSON_stringify
      prompt toolLists previousMessages w in
  countToolResult out = countToolUse out.
Proof.
  unfold executePromptWithTools.
  destruct (convertAll_counts 0
              (yielded (events (_executePromptWithTools chat callTool JSON_stringify
                                  prompt toolLists previousMessages w)))) as [-> ->].
  unfold _executePromptWithTools.
  destruct (aggregateTools 0 toolLists ([], ∅)) as [tools clients].
  destruct (JsString.truthy (JsString.trim prompt)).
  - assert (T := whileLoop_trace chat callTool JSON_stringify tools clients MAX_ITERATIONS w
                   (map (convertAnthropicMessageToOllama JSON_stringify)
                        (default [] previousMessages)
                    ++ [{| role := user; content := prompt; tool_calls := None |}])).
    assert (A := whileLoop_assistant tools clients MAX_ITERATIONS w
                   (map (convertAnthropicMessageToOllama JSON_stringify)
                        (default [] previousMessages)
                    ++ [{| role := user; content := prompt; tool_calls := None |}])).
    destruct (whileLoop _ _ _ _ _ _ _ _) as [[tr c] w']. unfold events in *. simpl in *.
    exact (loop_counts _ _ _ _ _ _ T A).
  - eapply loop_counts; [apply whileLoop_trace | apply whileLoop_assistant].
Qed.

End Counts.

(** *** The examples *)

(** C2: a prompt, one tool server offering [lookup], a provider that asks
    for [lookup] and then answers, a tool that returns at once.  The
    stream is the prompt, the [tool_use] with the id
    [toolu_lookup_1700000000000], the [tool_result] with the id
    [toolu_1700000000000], and the answer: a result for every use, but
    under another id, so that the pairing invariant does not hold. *)
Theorem C2_pairing_broken :
  let out :=
    executePromptWithTools Examples.asksOnce Examples.obliging Examples.Date_now
      Examples.JSON_parse Examples.JSON_stringify "List the lights"
      Examples.lookupServer None 0 in
  out = [ {| mp_role := user; mp_content := ContentString "List the lights" |};
          {| mp_role := assistant;
             mp_content :=
               ContentBlocks [ToolUseBlock "toolu_lookup_1700000000000" "lookup" (JObject [])] |};
          {| mp_role := user;
             mp_content :=
               ContentBlocks [ToolResultBlock "toolu_1700000000000" (JArray [])] |};
          {| mp_role := assistant; mp_content := ContentString "Done." |} ]
  /\ countToolResult out = countToolUse out
  /\ paired out = false
  /\ ~ pairingInvariant out.
Proof.
  vm_compute. repeat split. intros [H _]. discriminate H.
Qed.

Lemma C4_provider_timeout_retried_witness :
  events Examples.silentRun
  = [] ++ EChat [] [] OLLAMA_API_TIMEOUT
            (TimeoutError "Ollama API call timed out after 300000ms")
          :: tl (events Examples.silentRun)
  /\ exists post',
      tl (events Examples.silentRun) = EYield timeoutApology :: post' /\
      ((post' = [] /\ chat_requests (events Examples.silentRun) = MAX_ITERATIONS
        /\ completion Examples.silentRun = Returned)
       \/ exists response post'',
            post' = EChat ([] ++ [timeoutApology]) [] OLLAMA_API_TIMEOUT response
                    :: post'').
Proof.
  split; [reflexivity|].
  apply (C4_provider_timeout_retried Examples.silent Examples.stuck
           Examples.JSON_stringify "" [] None 0
           [] (tl (events Examples.silentRun)) [] [] OLLAMA_API_TIMEOUT
           "Ollama API call timed out after 300000ms").
  reflexivity.
Defined.

(** C4, as the specification words it, fails: after two provider timeouts
    in a row the loop goes on; here it makes all of its ten requests. *)
Lemma C4_counterexample :
  chat_requests (events Examples.silentRun) = 10 /\ ~ stopsAfterTwoTimeouts (events Examples.silentRun).
Proof.
  split; [reflexivity|]. intros H.
  specialize (H [] (skipn 4 (events Examples.silentRun)) _ _ _ _ _ _ _ _ _ _ eq_refl).
  discriminate H.
Qed.


Lemma C3_tool_loop_terminates_witness :
  events Examples.helloRun
  = [EYield Examples.hello]
    ++ EChat [Examples.hello] [] OLLAMA_API_TIMEOUT (Fulfilled (Examples.answer "Done."))
    :: skipn 2 (events Examples.helloRun)
  /\ no_tool_calls (Examples.answer "Done.") = true
  /\ skipn 2 (events Examples.helloRun) = [EYield (Examples.answer "Done.")]
  /\ completion Examples.helloRun = Returned.
Proof.
  split; [reflexivity|]. split; [reflexivity|].
  destruct (C3_tool_loop_terminates Examples.answers Examples.obliging
              Examples.JSON_stringify "Hello" [] None 0) as (_ & _ & Hlast & _).
  apply (Hlast [EYield Examples.hello] (skipn 2 (events Examples.helloRun))
           [Examples.hello] [] OLLAMA_API_TIMEOUT (Examples.answer "Done."));
    reflexivity.
Defined.




Lemma answers_as_assistant :
  forall (w : nat) ms ts t m w',
    Examples.answers w ms ts t = (Fulfilled m, w') -> role m = assistant.
Proof. intros w ms ts t m w' H. injection H as <- _. reflexivity. Defined.

Lemma C9_prompt_message_witness :
  (forall (w : nat) ms ts t m w',
      Examples.answers w ms ts t = (Fulfilled m, w') -> role m = assistant)
  /\ head (executePromptWithTools Examples.answers Examples.obliging Examples.Date_now
             Examples.JSON_parse Examples.JSON_stringify "Hello" [] None 0)
     = Some {| mp_role := user; mp_content := ContentString "Hello" |}
  /\ forall m,
      head (executePromptWithTools Examples.answers Examples.obliging Examples.Date_now
              Examples.JSON_parse Examples.JSON_stringify "  " [] None 0) = Some m ->
      mp_role m <> user.
Proof.
  split; [exact answers_as_assistant|]. split.
  - apply (C9_prompt_message Examples.answers Examples.obliging Examples.Date_now
             Examples.JSON_parse Examples.JSON_stringify "Hello" [] None 0
             answers_as_assistant).
    reflexivity.
  - apply (C9_prompt_message Examples.answers Examples.obliging Examples.Date_now
             Examples.JSON_parse Examples.JSON_stringify "  " [] None 0
             answers_as_assistant).
    reflexivity.
Defined.

End OllamaFacts.

(** ** The scheduler step *)

Module SchedulerStepFacts.
Import SchedulerStep.

Section Runtime.

Context {World MessageParam : Type}.
Variable readMemory : World -> Result string * World.
Variable runLLM :
  World -> Db -> Automation -> string -> Result (list MessageParam) * Db * World.
Variable nowISO : World -> string * World.
Variable JSON_stringify : list MessageParam -> string.

Local Abbreviation rescheduleAutomations :=
  (rescheduleAutomations readMemory runLLM nowISO JSON_stringify).
Local Abbreviation runSchedulerForAutomation :=
  (runSchedulerForAutomation readMemory runLLM nowISO JSON_stringify).

(** The automations are examined one after the other, until one
    rejects. *)
Lemma reschedule_app (st : State World) (l1 l2 : list Automation) :
  rescheduleAutomations st (l1 ++ l2)
  = match rescheduleAutomations st l1 with
    | (Ok _, st1) => rescheduleAutomations st1 l2
    | (Err e, st1) => (Err e, st1)
    end.
Proof.
  revert st. induction l1 as [|a l1 IH]; intros st; simpl; [reflexivity|].
  destruct (aliveSignal (db st) (hash a)); [apply IH|].
  destruct (runSchedulerForAutomation st a) as [[[]|e] st']; [apply IH | reflexivity].
Qed.

Lemma reschedule_one (st : State World) (a : Automation) :
  rescheduleAutomations st [a]
  = match aliveSignal (db st) (hash a) with
    | Some _ => (Ok tt, st)
    | None => runSchedulerForAutomation st a
    end.
Proof.
  simpl. destruct (aliveSignal (db st) (hash a)); [reflexivity|].
  now destruct (runSchedulerForAutomation st a) as [[[]|e] st'].
Qed.

(** C1, as the code has it.  Take an automation of the list, and the
    state [st] in which the loop comes to it.  If a signal with its
    hash is alive in [st], the state stays as it is: the scheduling loop
    is not started and no row is inserted.  If none is, the memory file
    is read and the scheduling loop is started; when both succeed,
    exactly one row is added to what the loop left in [automationLogs],
    of type [determine-signal] and with the hash of the automation;
    when either rejects, no row is inserted and the automations after
    this one are not examined.  So a list of automations that all have
    an alive signal leaves the state as it is. *)
Theorem C1_reschedule_idempotent :
  (forall st0 pre a post st,
      rescheduleAutomations st0 pre = (Ok tt, st) ->
      match aliveSignal (db st) (hash a) with
      | Some _ =>
          rescheduleAutomations st0 (pre ++ [a]) = (Ok tt, st) /\
          rescheduleAutomations st0 (pre ++ a :: post) = rescheduleAutomations st post
      | None =>
          match readMemory (world st) with
          | (Err e, w1) =>
              rescheduleAutomations st0 (pre ++ a :: post)
              = (Err e, {| world := w1; db := db st; scheduled := scheduled st |})
          | (Ok memory, w1) =>
              match runLLM w1 (db st) a memory with
              | (Err e, db2, w2) =>
                  rescheduleAutomations st0 (pre ++ a :: post)
                  = (Err e, {| world := w2; db := db2;
                               scheduled := scheduled st ++ [a] |})
              | (Ok msgs, db2, w2) =>
                  exists st',
                    rescheduleAutomations st0 (pre ++ [a]) = (Ok tt, st') /\
                    rescheduleAutomations st0 (pre ++ a :: post)
                    = rescheduleAutomations st' post /\
                    scheduled st' = scheduled st ++ [a] /\
                    signals (db st') = signals db2 /\
                    automationLogs (db st')
                    = automationLogs db2
                      ++ [{| createdAt := fst (nowISO w2);
                             type := determine_signal;
                             automationHash := Some (hash a);
                             messageLog := JSON_stringify msgs |}] /\
                    insertsOneRow (automationLogs db2) (automationLogs (db st')) a
              end
          end
      end) /\
  (forall st automations,
      Forall (fun a => aliveSignal (db st) (hash a) <> None) automations ->
      rescheduleAutomations st automations = (Ok tt, st)).
Proof.
  split.
  - intros st0 pre a post st Hpre.
    rewrite (reschedule_app st0 pre (a :: post)), (reschedule_app st0 pre [a]), Hpre.
    rewrite reschedule_one. simpl.
    destruct (aliveSignal (db st) (hash a)); [split; reflexivity|].
    unfold SchedulerStep.runSchedulerForAutomation.
    destruct (readMemory (world st)) as [[memory|e] w1]; [|reflexivity].
    destruct (runLLM w1 (db st) a memory) as [[[msgs|e] db2] w2]; [|reflexivity].
    destruct (nowISO w2) as [t w3] eqn:Hnow. simpl.
    eexists. repeat split. eexists. repeat split.
  - intros st automations. induction 1 as [|a l Ha Hl IH]; simpl; [reflexivity|].
    destruct (aliveSignal (db st) (hash a)); [exact IH | congruence].
Qed.

End Runtime.

(** C1, as the specification words it, fails: the automation has no alive
    signal, the scheduling loop is started, the provider is unreachable,
    and no row is inserted. *)
Lemma C1_counterexample :
  let '(result, st') :=
    rescheduleAutomations Examples.readMemory Examples.runLLM Examples.nowISO
      Examples.JSON_stringify Examples.fresh [Examples.coffee] in
  aliveSignal (db Examples.fresh) (hash Examples.coffee) = None /\
  result = Err "fetch failed" /\
  scheduled st' = [Examples.coffee] /\
  automationLogs (db st') = [] /\
  ~ insertsOneRow (automationLogs (db Examples.fresh)) (automationLogs (db st'))
      Examples.coffee.
Proof.
  vm_compute. repeat split. intros (row & H & _). destruct row; discriminate H.
Qed.

Lemma C1_reschedule_idempotent_witness :
  rescheduleAutomations Examples.readMemory Examples.runLLM_fine Examples.nowISO
    Examples.JSON_stringify Examples.scheduledAlready [] = (Ok tt, Examples.scheduledAlready)
  /\ rescheduleAutomations Examples.readMemory Examples.runLLM_fine Examples.nowISO
       Examples.JSON_stringify Examples.scheduledAlready ([] ++ [Examples.coffee])
     = (Ok tt, Examples.scheduledAlready)
  /\ Forall (fun a => aliveSignal (db Examples.scheduledAlready) (hash a) <> None)
            [Examples.coffee; Examples.coffee]
  /\ rescheduleAutomations Examples.readMemory Examples.runLLM_fine Examples.nowISO
       Examples.JSON_stringify Examples.scheduledAlready
       [Examples.coffee; Examples.coffee]
     = (Ok tt, Examples.scheduledAlready).
Proof.
  assert (T := C1_reschedule_idempotent Examples.readMemory Examples.runLLM_fine
                 Examples.nowISO Examples.JSON_stringify).
  destruct T as [T1 T2].
  assert (A : Forall (fun a => aliveSignal (db Examples.scheduledAlready) (hash a) <> None)
                [Examples.coffee; Examples.coffee])
    by (repeat constructor; discriminate).
  split; [reflexivity|]. split; [|split; [exact A | exact (T2 _ _ A)]].
  exact (proj1 (T1 Examples.scheduledAlready [] Examples.coffee []
                  Examples.scheduledAlready eq_refl)).
Defined.

End SchedulerStepFacts.

(** ** The graders *)

Module EvalFrameworkFacts.
Import EvalFramework.

Lemma count_fold (found : string -> bool) (content : list string) (acc : Z) :
  fold_left (fun acc needle => if found needle then (acc + 1)%Z else acc) content acc
  = (acc + Z.of_nat (length (List.filter found content)))%Z.
Proof.
  revert acc. induction content as [|needle content IH]; intros acc; simpl.
  - lia.
  - rewrite IH. destruct (found needle); simpl length; lia.
Qed.

Lemma filter_length_le {A : Type} (f : A -> bool) (l : list A) :
  length (List.filter f l) <= length l.
Proof. induction l as [|x l IH]; simpl; [lia|]. destruct (f x); simpl; lia. Qed.

Lemma totals_fold (results : list GradeResult) (a b : Z) :
  fold_left (fun acc x => ((fst acc + score x)%Z, (snd acc + possible_score x)%Z))
            results (a, b)
  = ((a + sumZ (map score results))%Z, (b + sumZ (map possible_score results))%Z).
Proof.
  revert a b. induction results as [|x results IH]; intros a b; simpl.
  - f_equal; lia.
  - rewrite IH. f_equal; lia.
Qed.

Section Graders.

Context {MessageParam McpServer : Type}.
Variable messagesToString : list (option MessageParam) -> string.
Variable executePromptWithTools :
  string -> list McpServer -> Result (list MessageParam).
Variable asyncMapValues :
  list (Grader MessageParam) -> (Grader MessageParam -> Result GradeResult) ->
  Result (list GradeResult).

(** C8: the content grader always returns; its score is the number of
    needles that occur in the last message, turned into a string, and
    its possible score the number of needles, so that the score lies
    between 0 and the possible score.  When the provider and the graders
    return, so does [runScenario], with their messages and results, and
    its two totals are the sums of the scores and of the possible scores
    of the results. *)
Theorem C8_grading :
  (forall content messages,
      exists r,
        gradeViaSearchForContent messagesToString content messages = Ok r /\
        score r
        = Z.of_nat
            (length (List.filter
                       (JsString.includes (messagesToString [last messages]))
                       content)) /\
        possible_score r = Z.of_nat (length content) /\
        (0 <= score r <= possible_score r)%Z) /\
  (forall prompt tools toolsDescription graders messages results,
      executePromptWithTools prompt tools = Ok messages ->
      asyncMapValues graders (fun g => g messages) = Ok results ->
      exists r,
        runScenario executePromptWithTools asyncMapValues prompt tools
          toolsDescription graders = Ok r /\
        EvalFramework.messages r = messages /\ gradeResults r = results) /\
  (forall prompt tools toolsDescription graders r,
      runScenario executePromptWithTools asyncMapValues prompt tools
        toolsDescription graders = Ok r ->
      finalScore r = sumZ (map score (gradeResults r)) /\
      finalScorePossible r = sumZ (map possible_score (gradeResults r))).
Proof.
  split; [|split].
  - intros content messages. eexists. split; [reflexivity|]. simpl.
    rewrite count_fold.
    assert (B := filter_length_le
                   (JsString.includes (messagesToString [last messages])) content).
    repeat split; lia.
  - intros prompt tools toolsDescription graders messages results Hllm Hgraders.
    unfold runScenario. rewrite Hllm, Hgraders, totals_fold.
    eexists. repeat split.
  - intros prompt tools toolsDescription graders r. unfold runScenario.
    destruct (executePromptWithTools prompt tools) as [messages|e]; [|discriminate].
    destruct (asyncMapValues graders _) as [results|e]; [|discriminate].
    rewrite totals_fold. intros [= <-]. simpl. split; reflexivity.
Qed.

End Graders.

Lemma C8_grading_witness :
  exists r,
    runScenario Examples.scripted Examples.inOrder "What services are available?" [] "List services"
      [gradeViaSearchForContent Examples.lastText ["On"; "Off"];
       gradeViaSearchForContent Examples.lastText ["lights"]] = Ok r /\
    finalScore r = 2%Z /\ finalScorePossible r = 3%Z.
Proof.
  destruct (C8_grading Examples.lastText Examples.scripted Examples.inOrder) as (_ & Hreturns & Htotals).
  destruct (Hreturns "What services are available?" [] "List services"
              [gradeViaSearchForContent Examples.lastText ["On"; "Off"];
               gradeViaSearchForContent Examples.lastText ["lights"]] _ _ eq_refl eq_refl)
    as (r & Hr & _ & Hresults).
  exists r. split; [exact Hr|].
  destruct (Htotals _ _ _ _ _ Hr) as [-> ->]. rewrite Hresults.
  split; reflexivity.
Defined.

End EvalFrameworkFacts.

(** ** The hub client in test mode *)

Module HaWsApiFacts.
Import HaWsApi.

Section Hub.

Variable sendMessagePromise : HubMessage -> Result Json.

(** C5: in test mode [callService] sends nothing to the hub; when the
    domain prefix of every entity id of the target is the domain of the
    call it returns [null]; when that of some entity id is not, it
    rejects, and the message of the error holds such an entity id (the
    first of them) and the domain. *)
Theorem C5_test_mode_safe (options : CallServiceOptions) :
  snd (callService sendMessagePromise true options) = [] /\
  (Forall (fun e => domainPrefix e = domain options) (entities options) ->
   fst (callService sendMessagePromise true options) = Ok None) /\
  (Exists (fun e => domainPrefix e <> domain options) (entities options) ->
   exists e message,
     In e (entities options) /\ domainPrefix e <> domain options /\
     fst (callService sendMessagePromise true options) = Err message /\
     JsString.includes message e = true /\
     JsString.includes message (domain options) = true).
Proof.
  unfold callService.
  destruct (List.find _ (entities options)) as [e|] eqn:Hfind; simpl.
  - apply List.find_some in Hfind. destruct Hfind as [Hin Hne].
    apply negb_true_iff, String.eqb_neq in Hne.
    split; [reflexivity|]. split.
    + intros Hall. rewrite List.Forall_forall in Hall. now apply Hall in Hin.
    + intros _. exists e, (mismatch (domain options) e).
      repeat split; try assumption.
      * exact (JsStringFacts.includes_app "Entity ID " e _).
      * unfold mismatch.
        replace ("Entity ID " +:+ e +:+ " doesn't match domain " +:+ domain options)
          with (("Entity ID " +:+ e +:+ " doesn't match domain ") +:+ domain options).
        -- apply JsStringFacts.includes_suffix.
        -- now rewrite !JsStringFacts.append_assoc.
  - split; [reflexivity|]. split; [reflexivity|].
    intros Hex. apply List.Exists_exists in Hex. destruct Hex as (e & Hin & Hne).
    apply (List.find_none _ _ Hfind) in Hin.
    apply negb_false_iff, String.eqb_eq in Hin. contradiction.
Qed.

End Hub.

Lemma C5_test_mode_safe_witness :
  callService Examples.hub true (Examples.turnOn (Many ["light.kitchen"; "light.living_room"])) = (Ok None, [])
  /\ exists e message,
      In e ["light.kitchen"; "switch.porch"] /\ domainPrefix e <> "light" /\
      fst (callService Examples.hub true (Examples.turnOn (Many ["light.kitchen"; "switch.porch"])))
      = Err message /\
      JsString.includes message e = true /\ JsString.includes message "light" = true.
Proof.
  split.
  - destruct (C5_test_mode_safe Examples.hub (Examples.turnOn (Many ["light.kitchen"; "light.living_room"])))
      as (Hsent & Hok & _).
    rewrite (surjective_pairing (callService Examples.hub true _)), Hsent, Hok; [reflexivity|].
    repeat constructor.
  - apply (C5_test_mode_safe Examples.hub (Examples.turnOn (Many ["light.kitchen"; "switch.porch"]))).
    apply Exists_cons_tl, Exists_cons_hd. simpl. discriminate.
Defined.

Example switch_rejected :
  fst (callService Examples.hub true (Examples.turnOn (One "switch.kitchen")))
  = Err "Entity ID switch.kitchen doesn't match domain light".
Proof. reflexivity. Qed.

End HaWsApiFacts.

(** ** Configuration persistence *)

Module ConfigFacts.
Import Config.

Lemma truthy_nonEmpty (s : option string) : nonEmpty s -> truthy s = s.
Proof.
  unfold nonEmpty. destruct s as [[|c s]|]; simpl; [congruence | reflexivity..].
Qed.

Lemma set_fresh (k : string) (v : Toml.Value) (o : list (string * Toml.Value)) :
  ~ In k (map fst o) -> Toml.set k v o = o ++ [(k, v)].
Proof.
  induction o as [|[k' v'] o IH]; simpl; intros Hk; [reflexivity|].
  destruct (String.eqb_spec k' k) as [->|Hne]; [tauto|].
  rewrite IH; [reflexivity | tauto].
Qed.

Lemma saveProvider_entry (openai : list (string * Toml.Value)) (p : OpenAIProviderConfig) :
  providerNonEmpty p -> writable p -> ~ In (slot p) (map fst openai) ->
  saveProvider openai p = openai ++ [entryOf p].
Proof.
  unfold providerNonEmpty, writable, saveProvider, entryOf, slot, nonEmpty.
  destruct p as [[name|] url k]; simpl; [|tauto].
  intros (Hname & Hurl & Hkey & Hdefault) Hw Hfresh.
  destruct (String.eqb_spec name "openai") as [->|Hne].
  - destruct k as [[|c k]|]; simpl in *; try congruence.
    now apply set_fresh.
  - destruct name as [|c name]; [congruence|]. simpl JsString.truthy. cbv iota.
    rewrite (truthy_nonEmpty url), (truthy_nonEmpty k) by assumption.
    assert (Hentry : match String c name with
                     | "openai" => Toml.Str (default "" k)
                     | _ => Toml.Table {| Toml.base_url := url; Toml.key := k |}
                     end = Toml.Table {| Toml.base_url := url; Toml.key := k |}).
    { destruct (String.eqb_spec (String c name) "openai") as [E|E]; [congruence|].
      clear -E. repeat (match goal with
                        | |- context [match ?x with _ => _ end] => destruct x
                        end; try reflexivity; try congruence). }
    rewrite Hentry. destruct Hw as [Hproto Hw].
    destruct (String.eqb_spec (String c name) "__proto__") as [E|_]; [congruence|].
    destruct url, k; simpl; try (now apply set_fresh). destruct Hw; congruence.
Qed.

Lemma fst_entryOf (p : OpenAIProviderConfig) : fst (entryOf p) = slot p.
Proof. reflexivity. Qed.

Lemma saveProviders_entries (ps : list OpenAIProviderConfig)
    (openai : list (string * Toml.Value)) :
  Forall providerNonEmpty ps -> Forall writable ps ->
  List.NoDup (map fst openai ++ map slot ps) ->
  fold_left saveProvider ps openai = openai ++ map entryOf ps.
Proof.
  revert openai. induction ps as [|p ps IH]; intros openai Hne Hw Hdup; simpl.
  - now rewrite app_nil_r.
  - inversion Hne; inversion Hw; subst.
    rewrite saveProvider_entry; try assumption.
    + rewrite IH; try assumption.
      * now rewrite <- app_assoc.
      * rewrite map_app. simpl. rewrite <- app_assoc. exact Hdup.
    + intros Hin. simpl in Hdup. apply NoDup_remove_2 in Hdup. apply Hdup.
      apply in_or_app. now left.
Qed.

Lemma loadProvider_entry (p : OpenAIProviderConfig) :
  providerNonEmpty p -> writable p -> loadProvider (entryOf p) = [p].
Proof.
  unfold providerNonEmpty, writable, loadProvider, entryOf, slot.
  destruct p as [[name|] url k]; simpl; [|tauto].
  intros (_ & _ & _ & Hdefault) Hw.
  destruct (String.eqb_spec name "openai") as [->|Hne].
  - rewrite Hdefault by reflexivity. destruct k; simpl; [reflexivity | congruence].
  - assert (Hentry : match name with
                     | "openai" => Toml.Str (default "" k)
                     | _ => Toml.Table {| Toml.base_url := url; Toml.key := k |}
                     end = Toml.Table {| Toml.base_url := url; Toml.key := k |}).
    { clear -Hne. repeat (match goal with
                          | |- context [match ?x with _ => _ end] => destruct x
                          end; try reflexivity; try congruence). }
    now rewrite Hentry.
Qed.

Lemma loadProviders_entries (ps : list OpenAIProviderConfig) :
  Forall providerNonEmpty ps -> Forall writable ps ->
  flat_map loadProvider (map entryOf ps) = ps.
Proof.
  induction ps as [|p ps IH]; intros Hne Hw; [reflexivity|].
  inversion Hne; inversion Hw; subst. cbn [flat_map map].
  rewrite loadProvider_entry, IH by assumption. reflexivity.
Qed.

(** What [saveConfig] writes for a configuration that can be stored. *)
Lemma tomlStructure_openai (config : AppConfig) :
  claimed config -> storable config ->
  Toml.openai (tomlStructure config)
  = (fun ps => map entryOf ps) <$> openAIProviders config.
Proof.
  intros (_ & _ & _ & _ & _ & _ & _ & Hne) (Hlist & Hw & Hdup).
  unfold tomlStructure. simpl.
  destruct (openAIProviders config) as [[|p ps]|]; simpl in *; [congruence| |reflexivity].
  change (match fold_left saveProvider (p :: ps) [] with
          | [] => None
          | e :: es => Some (e :: es)
          end = Some (map entryOf (p :: ps))).
  rewrite saveProviders_entries by assumption. reflexivity.
Qed.

Section Files.

Context {Text : Type}.
Variable toml_stringify : Toml.t -> Text.
Variable toml_parse : Text -> option Toml.t.

(** C10, as the code has it.  Take a configuration no defined field of
    which is empty and whose provider [openai] has no [baseURL], as in
    the claim, and let, besides, its list of providers be absent or not
    empty, every provider have a name, other than [__proto__], and a key
    or (but for [openai]) a URL, and no two providers share a name.
    When the TOML library reads back the document that was written for
    this configuration, up to the order of the properties of [openai],
    loading the file that [saveConfig] wrote gives the configuration on
    every field, the providers up to their order; and when the library
    keeps that order too, it gives the configuration itself.  What the
    library does is a premise here, not a fact about it. *)
Theorem C10_config_round_trip (config : AppConfig) (filePath : string)
    (fs : gmap string Text) :
  claimed config -> storable config ->
  (forall parsed,
      toml_parse (toml_stringify (tomlStructure config)) = Some parsed ->
      Toml.same (tomlStructure config) parsed ->
      sameConfig config
        (loadConfig toml_parse filePath (saveConfig toml_stringify config filePath fs)))
  /\ (toml_parse (toml_stringify (tomlStructure config)) = Some (tomlStructure config) ->
      loadConfig toml_parse filePath (saveConfig toml_stringify config filePath fs)
      = config).
Proof.
  intros Hclaimed Hstorable.
  assert (Hopenai := tomlStructure_openai config Hclaimed Hstorable).
  destruct Hclaimed as (Hurl & Htoken & Hzone & _ & _ & Hanthropic & Hollama & Hne).
  destruct Hstorable as (Hlist & Hw & Hdup).
  unfold loadConfig, saveConfig. rewrite lookup_insert_eq. simpl. split.
  - intros parsed -> (E1 & E2 & E3 & E4 & E5 & E6 & E7 & E8).
    unfold sameConfig, fromToml. simpl.
    rewrite <- E1, <- E2, <- E3, <- E4, <- E5, <- E6, <- E7.
    unfold tomlStructure. simpl.
    rewrite !truthy_nonEmpty by assumption.
    repeat split; try reflexivity;
      try (destruct (automationModel config); reflexivity);
      try (destruct (visionModel config); reflexivity);
      try (destruct (anthropicApiKey config); reflexivity);
      try (destruct (ollamaHost config); reflexivity).
    rewrite Hopenai in E8.
    destruct (openAIProviders config) as [ps|], (Toml.openai parsed) as [entries|];
      simpl in *; try tauto.
    apply (Permutation_flat_map loadProvider) in E8.
    rewrite loadProviders_entries in E8 by assumption.
    destruct (flat_map loadProvider entries) as [|q qs].
    + apply Permutation_nil_r in E8. congruence.
    + exact E8.
  - intros ->. unfold fromToml. rewrite Hopenai.
    unfold tomlStructure. simpl.
    rewrite !truthy_nonEmpty by assumption.
    destruct config as [url token zone model vision anthropic ollama providers].
    simpl in *. f_equal.
    + now destruct model.
    + now destruct vision.
    + now destruct anthropic.
    + now destruct ollama.
    + destruct providers as [ps|]; simpl; [|reflexivity].
      rewrite loadProviders_entries by assumption.
      destruct ps; [congruence | reflexivity].
Qed.

End Files.

(** C10, as it is worded, fails, whatever the TOML library: of two
    providers with one name, the file keeps the second. *)
Lemma C10_counterexample :
  claimed Examples.twoGoogles /\
  openAIProviders
    (loadConfig Examples.toml_parse "config.toml"
       (saveConfig Examples.toml_stringify Examples.twoGoogles "config.toml" ∅))
  = Some [Examples.named "google" "https://two.example" "second"] /\
  ~ sameConfig Examples.twoGoogles
      (loadConfig Examples.toml_parse "config.toml"
         (saveConfig Examples.toml_stringify Examples.twoGoogles "config.toml" ∅)).
Proof.
  split; [|split].
  - unfold claimed, nonEmpty, providerNonEmpty. simpl.
    repeat split; try discriminate; repeat constructor; try discriminate.
  - reflexivity.
  - intros (_ & _ & _ & _ & _ & _ & _ & H). vm_compute in H.
    apply Permutation_length in H. discriminate H.
Qed.

(** A provider under the name [__proto__] is not written: the
    assignment sets a prototype, the table stays empty and is deleted. *)
Example proto_provider_lost :
  claimed Examples.protoNamed /\
  Toml.openai (tomlStructure Examples.protoNamed) = None /\
  openAIProviders
    (loadConfig Examples.toml_parse "config.toml"
       (saveConfig Examples.toml_stringify Examples.protoNamed "config.toml" ∅))
  = None.
Proof.
  split; [|split; reflexivity].
  unfold claimed, nonEmpty, providerNonEmpty. simpl.
  repeat split; try discriminate; repeat constructor; try discriminate.
Qed.

Lemma exampleFile_claimed : claimed Examples.exampleFile.
Proof.
  unfold claimed, nonEmpty, providerNonEmpty. simpl.
  repeat split; try discriminate; repeat constructor; try discriminate.
Defined.

Lemma exampleFile_storable : storable Examples.exampleFile.
Proof.
  unfold storable. simpl. repeat split; try discriminate.
  - repeat constructor; unfold writable; simpl; try discriminate; left; discriminate.
  - repeat constructor; simpl; intuition discriminate.
Defined.

Lemma C10_config_round_trip_witness :
  claimed Examples.exampleFile /\ storable Examples.exampleFile /\
  loadConfig Examples.toml_parse "config.toml"
    (saveConfig Examples.toml_stringify Examples.exampleFile "config.toml" ∅)
  = Examples.exampleFile.
Proof.
  split; [exact exampleFile_claimed|]. split; [exact exampleFile_storable|].
  apply (C10_config_round_trip Examples.toml_stringify Examples.toml_parse
           Examples.exampleFile "config.toml" ∅
           exampleFile_claimed exampleFile_storable).
  reflexivity.
Defined.

End ConfigFacts.

(** ** More on the tool loop *)

Module OllamaMoreFacts.
Import Ollama OllamaFacts OllamaMore.

(** *** The tool map *)

Lemma aggregate_fold_names (index : nat) (tools : list ToolInfo)
    (acc : list Tool * gmap string Client) :
  map fn_name
      (fst (fold_left
              (fun a t => (fst a ++ [toOllamaTool t], <[tool_name t := index]> (snd a)))
              tools acc))
  = map fn_name (fst acc) ++ map tool_name tools.
Proof.
  revert acc. induction tools as [|t tools IH]; intros acc; simpl.
  - now rewrite app_nil_r.
  - rewrite IH. simpl. rewrite map_app, <- app_assoc. reflexivity.
Qed.

Lemma aggregate_fold_lookup (name : string) (index : nat) (tools : list ToolInfo)
    (acc : list Tool * gmap string Client) :
  snd (fold_left
         (fun a t => (fst a ++ [toOllamaTool t], <[tool_name t := index]> (snd a)))
         tools acc) !! name
  = if existsb (String.eqb name) (map tool_name tools) then Some index
    else snd acc !! name.
Proof.
  revert acc. induction tools as [|t tools IH]; intros acc; simpl; [reflexivity|].
  rewrite IH. simpl.
  destruct (existsb (String.eqb name) (map tool_name tools)).
  - now rewrite orb_true_r.
  - rewrite orb_false_r. destruct (String.eqb_spec name (tool_name t)) as [->|Hne].
    + apply lookup_insert_eq.
    + apply lookup_insert_ne. congruence.
Qed.

Lemma aggregate_names (index : nat) (toolLists : list (option (list ToolInfo)))
    (acc : list Tool * gmap string Client) :
  map fn_name (fst (aggregateTools index toolLists acc))
  = map fn_name (fst acc) ++ offered toolLists.
Proof.
  revert index acc. induction toolLists as [|listed rest IH]; intros index acc; simpl.
  - now rewrite app_nil_r.
  - rewrite IH, aggregate_fold_names. unfold offered. simpl.
    now rewrite <- app_assoc.
Qed.

Lemma aggregate_lookup (name : string) (index : nat)
    (toolLists : list (option (list ToolInfo))) (acc : list Tool * gmap string Client) :
  snd (aggregateTools index toolLists acc) !! name
  = match lastClient name index toolLists with
    | Some client => Some client
    | None => snd acc !! name
    end.
Proof.
  revert index acc. induction toolLists as [|listed rest IH]; intros index acc; simpl.
  - reflexivity.
  - rewrite IH. destruct (lastClient name (S index) rest); [reflexivity|].
    rewrite aggregate_fold_lookup.
    now destruct (existsb (String.eqb name) (map tool_name (default [] listed))).
Qed.

Lemma lastClient_offered (name : string) (index : nat)
    (toolLists : list (option (list ToolInfo))) :
  is_Some (lastClient name index toolLists) <-> In name (offered toolLists).
Proof.
  revert index. induction toolLists as [|listed rest IH]; intros index; simpl.
  - split; [intros [c Hc]; discriminate | intros []].
  - unfold offered. simpl. rewrite in_app_iff. fold (offered rest).
    rewrite <- (IH (S index)).
    destruct (lastClient name (S index) rest) as [c|].
    + split; [right; eauto | eauto].
    + destruct (existsb (String.eqb name) (map tool_name (default [] listed))) eqn:E.
      * split; [intros _; left | eauto].
        apply existsb_exists in E. destruct E as (x & Hin & Heq).
        apply String.eqb_eq in Heq. now subst.
      * split; [intros [c Hc]; discriminate|].
        intros [Hin | [c Hc]]; [|discriminate].
        assert (existsb (String.eqb name) (map tool_name (default [] listed)) = true)
          by (apply existsb_exists; exists name; split; [exact Hin | apply String.eqb_refl]).
        congruence.
Qed.

Lemma aggregate_map (name : string) (toolLists : list (option (list ToolInfo))) :
  snd (aggregateTools 0 toolLists ([], ∅)) !! name = lastClient name 0 toolLists.
Proof.
  rewrite aggregate_lookup. cbn [snd]. rewrite lookup_empty.
  now destruct (lastClient name 0 toolLists).
Qed.

Lemma aggregate_fold_tools (index : nat) (tools : list ToolInfo)
    (acc : list Tool * gmap string Client) :
  fst (fold_left
         (fun a t => (fst a ++ [toOllamaTool t], <[tool_name t := index]> (snd a)))
         tools acc)
  = fst acc ++ map toOllamaTool tools.
Proof.
  revert acc. induction tools as [|t tools IH]; intros acc; simpl.
  - now rewrite app_nil_r.
  - rewrite IH. simpl. now rewrite <- app_assoc.
Qed.

Lemma aggregate_tools (index : nat) (toolLists : list (option (list ToolInfo)))
    (acc : list Tool * gmap string Client) :
  fst (aggregateTools index toolLists acc)
  = fst acc ++ map toOllamaTool (listedTools toolLists).
Proof.
  revert index acc. induction toolLists as [|listed rest IH]; intros index acc; simpl.
  - now rewrite app_nil_r.
  - rewrite IH, aggregate_fold_tools. unfold listedTools. simpl.
    now rewrite map_app, <- app_assoc.
Qed.

(** X1: the tools handed to the model are the tools the clients list, in
    the order of the clients and with their repetitions, a client whose
    listing failed giving none: each with its name, its description, or
    the empty string when it has none, and its input schema as the
    parameters.  The map from names to clients holds a name exactly when
    some client offers it, and gives it to the last client that does. *)
Theorem aggregateTools_spec (toolLists : list (option (list ToolInfo))) :
  let ollamaTools := fst (aggregateTools 0 toolLists ([], ∅)) in
  let toolClientMap := snd (aggregateTools 0 toolLists ([], ∅)) in
  Forall2
    (fun listed tool =>
       fn_name tool = tool_name listed /\
       fn_description tool
       = match tool_description listed with Some text => text | None => "" end /\
       fn_parameters tool = inputSchema listed)
    (listedTools toolLists) ollamaTools /\
  map fn_name ollamaTools = offered toolLists /\
  (forall name, toolClientMap !! name = lastClient name 0 toolLists) /\
  (forall name, is_Some (toolClientMap !! name) <-> In name (offered toolLists)).
Proof.
  cbv zeta. split; [|split; [|split]].
  - rewrite aggregate_tools. cbn [fst app].
    induction (listedTools toolLists) as [|listed l IH]; simpl; constructor;
      [|exact IH].
    repeat split.
  - now rewrite aggregate_names.
  - intros name. apply aggregate_map.
  - intros name. rewrite aggregate_map. apply lastClient_offered.
Qed.

(** *** The loop *)

Section Loop.

Variable JSON_stringify : Json -> string.
Variable ollamaTools : list Tool.
Variable toolClientMap : gmap string Client.

Local Abbreviation loopTrace := (loopTrace JSON_stringify ollamaTools toolClientMap).
Local Abbreviation toolRound := (toolRound JSON_stringify toolClientMap).

Ltac cut_two pre Heq :=
  unfold request in Heq;
  destruct pre as [|? [|? pre]]; simpl in Heq;
  inversion Heq; clear Heq;
  repeat match goal with
         | H : ollamaTools = ?x |- _ => subst x
         | H : ?x = ollamaTools |- _ => subst x
         end;
  subst;
  try match goal with
      | H : [] = ?p ++ _ :: _ |- _ => now destruct p
      end.

(** Every request is made with the conversation the loop started with,
    followed by the messages yielded since. *)
Lemma loop_conversation left msgs tr c :
  loopTrace left msgs tr c ->
  forall pre post ms tools t response,
    tr = pre ++ EChat ms tools t response :: post ->
    ms = msgs ++ yielded pre /\ tools = ollamaTools /\ t = OLLAMA_API_TIMEOUT.
Proof.
  induction 1 as [msgs | left msgs e tr c H IH | left msgs err
                 | left msgs message Hc | left msgs message calls tr c Hc R H IH];
    intros pre post ms tools t response Heq.
  - destruct pre; discriminate.
  - cut_two pre Heq; [simpl; rewrite app_nil_r; auto|].
    destruct (IH _ _ _ _ _ _ eq_refl) as (-> & -> & ->).
    simpl. rewrite <- app_assoc. auto.
  - cut_two pre Heq. simpl. rewrite app_nil_r. auto.
  - cut_two pre Heq. simpl. rewrite app_nil_r. auto.
  - cut_two pre Heq; [simpl; rewrite app_nil_r; auto|].
    match goal with
    | H : _ ++ _ = _ ++ _ |- _ =>
        apply split_at_chat in H;
        [destruct H as (pre' & -> & ->) | exact (toolRound_notChat _ _ _ _ R) | reflexivity]
    end.
    destruct (IH _ _ _ _ _ _ eq_refl) as (-> & -> & ->).
    simpl. rewrite yielded_app, <- !app_assoc. auto.
Qed.

(** When the loop returns, either its last two events are a provider
    answer without tool calls and its emission, or it has made all of its
    requests. *)
Lemma loop_returns left msgs tr c :
  loopTrace left msgs tr c -> c = Returned ->
  chat_requests tr = left
  \/ exists pre ms message,
       tr = pre ++ [request ollamaTools ms (Fulfilled message); EYield message]
       /\ no_tool_calls message = true.
Proof.
  induction 1 as [msgs | left msgs e tr c H IH | left msgs err
                 | left msgs message Hc | left msgs message calls tr c Hc R H IH];
    intros Hc'.
  - now left.
  - destruct (IH Hc') as [Hn | (pre & ms & m & -> & Hm)].
    + left. unfold chat_requests in *. simpl. now rewrite Hn.
    + right. exists (request ollamaTools msgs (TimeoutError e) :: EYield timeoutApology :: pre),
        ms, m. split; [reflexivity | exact Hm].
  - discriminate.
  - right. exists [], msgs, message. split; [reflexivity | exact Hc].
  - destruct (IH Hc') as [Hn | (pre & ms & m & -> & Hm)].
    + left. assert (Hcalls := chat_requests_notChat calls (toolRound_notChat _ _ _ _ R)).
      unfold chat_requests in *. simpl.
      now rewrite List.filter_app, length_app, Hcalls, Hn.
    + right. exists (request ollamaTools msgs (Fulfilled message) :: EYield message
                       :: calls ++ pre), ms, m.
      split; [|exact Hm]. simpl. now rewrite <- app_assoc.
Qed.

Lemma toolRound_routed calls tr :
  toolRound calls tr -> Forall (routedBy (fun name => toolClientMap !! name)) tr.
Proof.
  revert tr. induction calls as [|call calls IH]; intros tr; simpl.
  - intros ->. constructor.
  - destruct (toolClientMap !! function_name call) eqn:E.
    + intros (response & tr' & -> & H). repeat constructor; [exact E | now apply IH].
    + intros (tr' & -> & H). repeat constructor. now apply IH.
Qed.

Lemma loop_routed left msgs tr c :
  loopTrace left msgs tr c -> Forall (routedBy (fun name => toolClientMap !! name)) tr.
Proof.
  induction 1 as [msgs | left msgs e tr c H IH | left msgs err
                 | left msgs message Hc | left msgs message calls tr c Hc R H IH];
    repeat constructor; try assumption.
  apply Forall_app. split; [exact (toolRound_routed _ _ R) | exact IH].
Qed.

Lemma toolRound_fromTheLoop calls tr :
  toolRound calls tr -> Forall fromTheLoop (yielded tr).
Proof.
  intros R. apply toolRound_answers in R. revert R.
  generalize (yielded tr). intros ms R.
  induction R as [|call m calls ms [Hrole _] _ IH]; constructor; [|exact IH].
  right. exact Hrole.
Qed.

Lemma loop_fromTheLoop left msgs tr c :
  loopTrace left msgs tr c -> Forall answersAsAssistant tr ->
  Forall fromTheLoop (yielded tr).
Proof.
  induction 1 as [msgs | left msgs e tr c H IH | left msgs err
                 | left msgs message Hc | left msgs message calls tr c Hc R H IH];
    intros Hroles; simpl.
  - constructor.
  - inversion Hroles as [|? ? _ Hrest]; inversion Hrest; subst.
    constructor; [left; reflexivity | auto].
  - constructor.
  - inversion Hroles as [|? ? Hrole _]; subst. simpl in Hrole.
    constructor; [left; exact Hrole | constructor].
  - inversion Hroles as [|? ? Hrole Hrest]; subst.
    inversion Hrest as [|? ? _ Hrest']; subst.
    apply Forall_app in Hrest'. destruct Hrest' as [_ Htr].
    simpl in Hrole. constructor; [left; exact Hrole|].
    rewrite yielded_app. apply Forall_app.
    split; [exact (toolRound_fromTheLoop _ _ R) | auto].
Qed.

End Loop.

Section Execute.

Context {World : Type}.
Variable chat : World -> list Message -> list Tool -> N -> Awaited Message * World.
Variable callTool : World -> Client -> string -> Json -> N -> Awaited Json * World.
Variable Date_now : nat -> N.
Variable JSON_parse : string -> option Json.
Variable JSON_stringify : Json -> string.

Variable prompt : string.
Variable toolLists : list (option (list ToolInfo)).
Variable previousMessages : option (list MessageParam).
Variable w : World.

Local Abbreviation run :=
  (_executePromptWithTools chat callTool JSON_stringify prompt toolLists
     previousMessages w).
Local Abbreviation output :=
  (executePromptWithTools chat callTool Date_now JSON_parse JSON_stringify
     prompt toolLists previousMessages w).
Local Abbreviation ollamaTools := (fst (aggregateTools 0 toolLists ([], ∅))).
Local Abbreviation toolClientMap := (snd (aggregateTools 0 toolLists ([], ∅))).
Local Abbreviation history :=
  (map (convertAnthropicMessageToOllama JSON_stringify) (default [] previousMessages)).
Local Abbreviation promptMessage :=
  {| role := user; content := prompt; tool_calls := None |}.

Ltac with_trace :=
  destruct (execute_trace chat callTool JSON_stringify prompt toolLists
              previousMessages w) as (head & msgs & tr & Hev & Hloop & Hhead).

(** X2: the conversation of every provider request is a transcript: the
    previous messages, converted, followed by every message the generator
    has yielded so far, the prompt among them; and every request is made
    with the tools of all the clients and under the timeout of 300000
    ms. *)
Theorem conversation_is_transcript :
  forall pre post ms tools t response,
    events run = pre ++ EChat ms tools t response :: post ->
    ms = history ++ yielded pre /\ tools = ollamaTools /\ t = 300000%N.
Proof.
  with_trace. rewrite Hev. intros pre post ms tools t response Hcut.
  assert (HnotChat : Forall notChat head)
    by (destruct Hhead as [(_ & -> & _) | (_ & -> & _)]; repeat constructor).
  apply split_at_chat in Hcut; [|assumption|reflexivity].
  destruct Hcut as (pre' & -> & Hcut).
  eapply loop_conversation in Hloop; [|exact Hcut].
  destruct Hloop as (-> & -> & ->). rewrite yielded_app.
  destruct Hhead as [(_ & -> & ->) | (_ & -> & ->)]; simpl.
  - auto.
  - rewrite <- app_assoc. auto.
Qed.

(** X3: the generator ends in one of three ways: it throws the error of a
    provider request, which is its last event; or it returns after
    emitting a provider answer without tool calls; or it returns with all
    of its [MAX_ITERATIONS] requests made. *)
Theorem generator_ends :
  match completion run with
  | Threw err =>
      exists pre ms tools t, events run = pre ++ [EChat ms tools t (OtherError err)]
  | Returned =>
      chat_requests (events run) = MAX_ITERATIONS
      \/ exists pre ms tools t message,
           events run = pre ++ [EChat ms tools t (Fulfilled message); EYield message]
           /\ no_tool_calls message = true
  end.
Proof.
  destruct (completion run) as [|err] eqn:Hc.
  - with_trace. rewrite Hc in Hloop. rewrite Hev.
    assert (HnotChat : Forall notChat head)
      by (destruct Hhead as [(_ & -> & _) | (_ & -> & _)]; repeat constructor).
    rewrite chat_requests_app, (chat_requests_notChat head HnotChat).
    eapply loop_returns in Hloop; [|reflexivity].
    destruct Hloop as [Hn | (pre & ms & m & -> & Hm)]; [now left|].
    right. exists (head ++ pre), ms, ollamaTools, OLLAMA_API_TIMEOUT, m.
    split; [now rewrite <- app_assoc | exact Hm].
  - exact (execute_throws chat callTool JSON_stringify prompt toolLists
             previousMessages w err Hc).
Qed.

(** X4: every tool call the generator makes goes to the client of the last
    tool server that offers the tool; none is made for a name that no
    server offers. *)
Theorem tool_calls_routed :
  Forall (fun e =>
            match e with
            | ECallTool client name _ _ _ =>
                lastClient name 0 toolLists = Some client /\ In name (offered toolLists)
            | _ => True
            end) (events run).
Proof.
  with_trace. rewrite Hev. apply Forall_app. split.
  - destruct Hhead as [(_ & -> & _) | (_ & -> & _)]; repeat constructor.
  - apply loop_routed in Hloop.
    eapply Forall_impl; [exact Hloop|].
    intros [] Hrouted; try exact I. simpl in Hrouted.
    rewrite aggregate_map in Hrouted. split; [exact Hrouted|].
    apply (lastClient_offered _ 0). rewrite Hrouted. eauto.
Qed.

(** X5: when the provider answers as the assistant, every message of the
    stream has the role [user] or [assistant]: the [tool] messages of the
    loop leave it as user messages. *)
Theorem stream_roles :
  (forall w ms ts t m w', chat w ms ts t = (Fulfilled m, w') -> role m = assistant) ->
  Forall canonicalRole output.
Proof.
  intros Hassistant.
  assert (Hyields : Forall (fun m => role m = user \/ fromTheLoop m)
                           (yielded (events run))).
  { unfold _executePromptWithTools.
    destruct (aggregateTools 0 toolLists ([], ∅)) as [tools clients].
    destruct (JsString.truthy (JsString.trim prompt)).
    - assert (T := whileLoop_trace chat callTool JSON_stringify tools clients
                     MAX_ITERATIONS w (history ++ [promptMessage])).
      assert (A := whileLoop_assistant chat callTool JSON_stringify Hassistant
                     tools clients MAX_ITERATIONS w (history ++ [promptMessage])).
      destruct (whileLoop _ _ _ _ _ _ _ _) as [[tr c] w']. unfold events in *. simpl in *.
      constructor; [now left|].
      eapply Forall_impl; [eapply loop_fromTheLoop; eassumption|]. auto.
    - eapply Forall_impl;
        [eapply loop_fromTheLoop; [apply whileLoop_trace | now apply whileLoop_assistant]|].
      auto. }
  unfold executePromptWithTools. revert Hyields.
  generalize (yielded (events run)). generalize 0.
  intros clock ms. revert clock.
  induction ms as [|m ms IH]; intros clock Hms; simpl; [constructor|].
  inversion Hms as [|? ? Hm Hrest]; subst.
  destruct (convertOllamaMessageToAnthropic Date_now JSON_parse clock m) as [p clock'] eqn:E.
  constructor; [|now apply IH].
  unfold convertOllamaMessageToAnthropic in E. unfold canonicalRole.
  destruct Hm as [Hu | [Ha | Ht]].
  - rewrite Hu in E. injection E as <- _. now left.
  - rewrite Ha in E. destruct (tool_calls m).
    + destruct (toolUseBlocks Date_now clock l). injection E as <- _. now right.
    + injection E as <- _. now right.
  - rewrite Ht in E. injection E as <- _. now left.
Qed.

(** X6: when the provider answers as the assistant, the stream holds as
    many [tool_result] blocks as [tool_use] blocks: every call the model
    asked for is answered by one result, whatever became of the call. *)
Theorem stream_blocks_balanced :
  (forall w ms ts t m w', chat w ms ts t = (Fulfilled m, w') -> role m = assistant) ->
  countToolResult output = countToolUse output.
Proof.
  intros Hassistant.
  exact (tool_blocks_balanced chat callTool Date_now JSON_parse JSON_stringify
           Hassistant prompt toolLists previousMessages w).
Qed.

(** X7: in every stream, the id of a [tool_use] block differs from the id
    of every [tool_result] block. *)
Theorem fabricated_ids_differ :
  Forall (fun use => Forall (fun result => use <> result) (flat_map toolResultIds output))
         (flat_map toolUseIds output).
Proof.
  unfold executePromptWithTools.
  assert (F := convertAll_fabricated Date_now JSON_parse 0 (yielded (events run))).
  revert F. generalize (convertAll Date_now JSON_parse 0 (yielded (events run))).
  intros out F.
  assert (Huses : Forall useId (flat_map toolUseIds out)).
  { induction F as [|m out [Hm _] _ IH]; simpl; [constructor|].
    apply Forall_app. split; assumption. }
  assert (Hresults : Forall resultId (flat_map toolResultIds out)).
  { clear Huses. induction F as [|m out [_ Hm] _ IH]; simpl; [constructor|].
    apply Forall_app. split; assumption. }
  eapply Forall_impl; [exact Huses|]. intros use Huse.
  eapply Forall_impl; [exact Hresults|]. intros result Hresult ->.
  exact (useId_not_resultId result Huse Hresult).
Qed.

End Execute.

(** *** The two conversions *)

Section Conversions.

Variable Date_now : nat -> N.
Variable JSON_parse : string -> option Json.
Variable JSON_stringify : Json -> string.

Local Abbreviation toOllama := (convertAnthropicMessageToOllama JSON_stringify).
Local Abbreviation toAnthropic := (convertOllamaMessageToAnthropic Date_now JSON_parse).

Lemma find_first_result (pre post : list ContentBlockParam) (id : string) (result : Json) :
  Forall (fun b => isToolResult b = false) pre ->
  List.find isToolResult (pre ++ ToolResultBlock id result :: post)
  = Some (ToolResultBlock id result).
Proof.
  induction 1 as [|b pre Hb Hpre IH]; simpl; [reflexivity|]. now rewrite Hb.
Qed.

(** X8: of a user message with content blocks, [convertAnthropicMessageToOllama]
    keeps the first [tool_result] block only: the message becomes a [tool]
    message whose content is that result, serialised; the id of the
    result, the blocks before it and the blocks after it, other results
    among them, are dropped. *)
Theorem first_tool_result_only (pre post : list ContentBlockParam) (id : string)
    (result : Json) :
  Forall (fun b => isToolResult b = false) pre ->
  toOllama {| mp_role := user;
              mp_content := ContentBlocks (pre ++ ToolResultBlock id result :: post) |}
  = {| role := tool; content := JSON_stringify result; tool_calls := None |}.
Proof.
  intros Hpre. unfold convertAnthropicMessageToOllama. simpl.
  now rewrite (find_first_result pre post id result Hpre).
Qed.

Lemma toOllama_no_tool_calls (msg : MessageParam) : tool_calls (toOllama msg) = None.
Proof.
  unfold convertAnthropicMessageToOllama.
  destruct (mp_role msg), (mp_content msg) as [text|blocks]; try reflexivity.
  destruct (List.find isToolResult blocks) as [[]|]; reflexivity.
Qed.

(** X9: a message of the loop that is not a [tool] message and carries no
    [tool_calls] comes back as it was from the canonical shape; and no
    message comes back with [tool_calls]: the calls of an assistant
    message do not survive the way there and back. *)
Theorem plain_message_round_trip (clock : nat) (m : Message) :
  (role m <> tool -> tool_calls m = None -> toOllama (fst (toAnthropic clock m)) = m)
  /\ tool_calls (toOllama (fst (toAnthropic clock m))) = None.
Proof.
  split; [|apply toOllama_no_tool_calls].
  intros Hrole Hcalls. destruct m as [r text calls]. simpl in *. subst calls.
  unfold convertOllamaMessageToAnthropic. simpl.
  destruct r; try congruence; reflexivity.
Qed.

End Conversions.

(** *** Examples *)

Lemma conversation_is_transcript_witness :
  events Examples.routedRun
  = firstn 5 (events Examples.routedRun)
    ++ EChat [Ollama.Examples.listTheLights; Ollama.Examples.askFor "lookup";
              toolMessage "[]"]
         (fst (aggregateTools 0 Examples.twoServers ([], ∅))) 300000
         (Fulfilled (Ollama.Examples.answer "Done."))
    :: skipn 6 (events Examples.routedRun)
  /\ [Ollama.Examples.listTheLights; Ollama.Examples.askFor "lookup"; toolMessage "[]"]
     = map (convertAnthropicMessageToOllama Ollama.Examples.JSON_stringify) (default [] None)
       ++ yielded (firstn 5 (events Examples.routedRun)).
Proof.
  split; [reflexivity|].
  apply (conversation_is_transcript Ollama.Examples.asksOnce Ollama.Examples.obliging
           Ollama.Examples.JSON_stringify "List the lights" Examples.twoServers None 0
           (firstn 5 (events Examples.routedRun)) (skipn 6 (events Examples.routedRun))
           _ (fst (aggregateTools 0 Examples.twoServers ([], ∅))) 300000
           (Fulfilled (Ollama.Examples.answer "Done."))).
  reflexivity.
Defined.

(** The call for [lookup], which both servers offer, goes to the second. *)
Example routed_to_the_last_server :
  nth_error (events Examples.routedRun) 3
  = Some (ECallTool 1 "lookup" (JObject []) 60000 (Fulfilled (JArray []))).
Proof. reflexivity. Qed.

Lemma stream_roles_witness :
  (forall (w : nat) ms ts t m w',
      Ollama.Examples.asksOnce w ms ts t = (Fulfilled m, w') -> role m = assistant)
  /\ Forall canonicalRole Examples.routedOutput.
Proof.
  assert (H : forall (w : nat) ms ts t m w',
             Ollama.Examples.asksOnce w ms ts t = (Fulfilled m, w') -> role m = assistant).
  { intros w ms ts t m w' E. injection E as <- _. now destruct w. }
  split; [exact H|].
  exact (stream_roles Ollama.Examples.asksOnce Ollama.Examples.obliging
           Ollama.Examples.Date_now Ollama.Examples.JSON_parse
           Ollama.Examples.JSON_stringify "List the lights" Examples.twoServers None 0 H).
Defined.

Lemma stream_blocks_balanced_witness :
  (forall (w : nat) ms ts t m w',
      Ollama.Examples.asksOnce w ms ts t = (Fulfilled m, w') -> role m = assistant)
  /\ countToolResult Examples.routedOutput = countToolUse Examples.routedOutput
  /\ countToolUse Examples.routedOutput = 1.
Proof.
  assert (H : forall (w : nat) ms ts t m w',
             Ollama.Examples.asksOnce w ms ts t = (Fulfilled m, w') -> role m = assistant).
  { intros w ms ts t m w' E. injection E as <- _. now destruct w. }
  split; [exact H|]. split; [|reflexivity].
  exact (stream_blocks_balanced Ollama.Examples.asksOnce Ollama.Examples.obliging
           Ollama.Examples.Date_now Ollama.Examples.JSON_parse
           Ollama.Examples.JSON_stringify "List the lights" Examples.twoServers None 0 H).
Defined.

Lemma first_tool_result_only_witness :
  Forall (fun b => isToolResult b = false) [TextBlock "Here you are."]
  /\ convertAnthropicMessageToOllama Ollama.Examples.JSON_stringify
       {| mp_role := user;
          mp_content :=
            ContentBlocks ([TextBlock "Here you are."]
                           ++ ToolResultBlock "toolu_1" (JArray [])
                           :: [ToolResultBlock "toolu_2" JNull]) |}
     = toolMessage "[]".
Proof.
  assert (H : Forall (fun b => isToolResult b = false) [TextBlock "Here you are."])
    by (repeat constructor).
  split; [exact H|].
  exact (first_tool_result_only Ollama.Examples.JSON_stringify
           [TextBlock "Here you are."] [ToolResultBlock "toolu_2" JNull] "toolu_1"
           (JArray []) H).
Defined.

Lemma plain_message_round_trip_witness :
  role (Ollama.Examples.answer "Done.") <> tool
  /\ tool_calls (Ollama.Examples.answer "Done.") = None
  /\ convertAnthropicMessageToOllama Ollama.Examples.JSON_stringify
       (fst (convertOllamaMessageToAnthropic Ollama.Examples.Date_now
               Ollama.Examples.JSON_parse 0 (Ollama.Examples.answer "Done.")))
     = Ollama.Examples.answer "Done.".
Proof.
  assert (H : role (Ollama.Examples.answer "Done.") <> tool) by discriminate.
  split; [exact H|]. split; [reflexivity|].
  exact (proj1 (plain_message_round_trip Ollama.Examples.Date_now
                  Ollama.Examples.JSON_parse Ollama.Examples.JSON_stringify 0
                  (Ollama.Examples.answer "Done.")) H eq_refl).
Defined.

End OllamaMoreFacts.

(** ** More on the scheduler step *)

Module SchedulerMoreFacts.
Import SchedulerStep SchedulerStepFacts SchedulerMore.

Lemma alive_insert (db : Db) (row : AutomationLogRow) (h : string) :
  aliveSignal (insertAutomationLog db row) h = aliveSignal db h.
Proof. reflexivity. Qed.

Section Runtime.

Context {World MessageParam : Type}.
Variable readMemory : World -> Result string * World.
Variable runLLM :
  World -> Db -> Automation -> string -> Result (list MessageParam) * Db * World.
Variable nowISO : World -> string * World.
Variable JSON_stringify : list MessageParam -> string.

Local Abbreviation rescheduleAutomations :=
  (rescheduleAutomations readMemory runLLM nowISO JSON_stringify).
Local Abbreviation runSchedulerForAutomation :=
  (runSchedulerForAutomation readMemory runLLM nowISO JSON_stringify).

Lemma reschedule_alive (st : State World) (automations : list Automation) :
  Forall (fun a => alive (db st) (hash a)) automations ->
  rescheduleAutomations st automations = (Ok tt, st).
Proof.
  induction 1 as [|a l Ha Hl IH]; simpl; [reflexivity|].
  unfold alive in Ha. destruct (aliveSignal (db st) (hash a)); [exact IH | congruence].
Qed.

Section SecondPass.

(** A scheduling run that returns leaves the automation with an alive
    signal, and kills no signal of another automation. *)
Hypothesis run_schedules :
  forall w db a memory msgs db2 w2,
    runLLM w db a memory = (Ok msgs, db2, w2) ->
    alive db2 (hash a) /\ forall h, alive db h -> alive db2 h.

Lemma run_keeps_alive (st st' : State World) (a : Automation) :
  runSchedulerForAutomation st a = (Ok tt, st') ->
  alive (db st') (hash a) /\ forall h, alive (db st) h -> alive (db st') h.
Proof.
  unfold SchedulerStep.runSchedulerForAutomation.
  destruct (readMemory (world st)) as [[memory|e] w1]; [|discriminate].
  destruct (runLLM w1 (db st) a memory) as [[[msgs|e] db2] w2] eqn:Hrun; [|discriminate].
  destruct (nowISO w2) as [t w3]. intros [= <-]. simpl.
  unfold alive. rewrite alive_insert. setoid_rewrite alive_insert.
  exact (run_schedules _ _ _ _ _ _ _ Hrun).
Qed.

Lemma reschedule_keeps_alive (automations : list Automation) :
  forall st st',
    rescheduleAutomations st automations = (Ok tt, st') ->
    (forall h, alive (db st) h -> alive (db st') h)
    /\ Forall (fun a => alive (db st') (hash a)) automations.
Proof.
  induction automations as [|a l IH]; intros st st'; simpl.
  - intros [= <-]. split; [auto | constructor].
  - destruct (aliveSignal (db st) (hash a)) as [id|] eqn:Ha.
    + intros Hrest. destruct (IH _ _ Hrest) as [Hkeep Hall].
      split; [exact Hkeep|]. constructor; [|exact Hall].
      apply Hkeep. unfold alive. congruence.
    + destruct (runSchedulerForAutomation st a) as [[[]|e] st1] eqn:Hrun; [|discriminate].
      intros Hrest. destruct (run_keeps_alive _ _ _ Hrun) as [Ha1 Hkeep1].
      destruct (IH _ _ Hrest) as [Hkeep Hall].
      split; [auto|]. constructor; [auto | exact Hall].
Qed.

(** X10: when every scheduling run that returns has left its automation
    with an alive signal and has killed no other, a second pass over the
    same automations, after a first one that succeeded, changes nothing:
    it starts no scheduling loop and inserts no row. *)
Theorem second_pass_changes_nothing (st st' : State World) (automations : list Automation) :
  rescheduleAutomations st automations = (Ok tt, st') ->
  rescheduleAutomations st' automations = (Ok tt, st').
Proof.
  intros Hfirst. apply reschedule_alive.
  exact (proj2 (reschedule_keeps_alive automations st st' Hfirst)).
Qed.

End SecondPass.

Section Logs.

(** The scheduling runs do not write to [automationLogs]. *)
Hypothesis run_keeps_logs :
  forall w db a memory result db2 w2,
    runLLM w db a memory = (result, db2, w2) -> automationLogs db2 = automationLogs db.

(** X11: when the scheduling runs leave [automationLogs] alone, a pass
    keeps every row the table held and appends rows of type
    [determine-signal] only; the automations it starts the scheduling loop
    for are a subsequence of the automations it is given; and when the
    pass succeeds the appended rows are, in order, one for each of them,
    with its hash. *)
Theorem log_is_append_only (automations : list Automation) :
  forall st result st',
    rescheduleAutomations st automations = (result, st') ->
    exists started rows,
      scheduled st' = scheduled st ++ started /\
      sublist started automations /\
      automationLogs (db st') = automationLogs (db st) ++ rows /\
      Forall determineSignalRow rows /\
      length rows <= length started /\
      (result = Ok tt ->
       map automationHash rows = map (fun a => Some (hash a)) started).
Proof.
  induction automations as [|a l IH]; intros st result st'; simpl.
  - intros [= <- <-]. exists [], []. rewrite !app_nil_r.
    repeat split; auto.
  - destruct (aliveSignal (db st) (hash a)).
    + intros Hrest. destruct (IH _ _ _ Hrest) as (started & rows & H1 & H2 & H3 & H4 & H5 & H6).
      exists started, rows. repeat split; auto. now apply sublist_cons.
    + unfold SchedulerStep.runSchedulerForAutomation.
      destruct (readMemory (world st)) as [[memory|e] w1].
      * destruct (runLLM w1 (db st) a memory) as [[[msgs|e] db2] w2] eqn:Hrun;
          apply run_keeps_logs in Hrun.
        -- destruct (nowISO w2) as [t w3]. intros Hrest.
           destruct (IH _ _ _ Hrest) as (started & rows & H1 & H2 & H3 & H4 & H5 & H6).
           simpl in H1, H3. rewrite Hrun in H3.
           exists (a :: started),
             ({| createdAt := t; type := determine_signal;
                 automationHash := Some (hash a);
                 messageLog := JSON_stringify msgs |} :: rows).
           rewrite H1, H3, <- !app_assoc. simpl.
           repeat split; auto.
           ++ now apply sublist_skip.
           ++ constructor; [reflexivity | exact H4].
           ++ simpl. lia.
           ++ intros Hok. simpl. now rewrite (H6 Hok).
        -- intros [= <- <-]. simpl. exists [a], []. rewrite Hrun, app_nil_r.
           repeat split; auto; try discriminate; try (simpl; lia).
           apply sublist_skip, sublist_nil_l.
      * intros [= <- <-]. simpl. exists [], []. rewrite !app_nil_r.
        repeat split; auto; try discriminate.
        apply sublist_nil_l.
Qed.

End Logs.

End Runtime.

Lemma find_app {A : Type} (f : A -> bool) (l1 l2 : list A) :
  List.find f (l1 ++ l2)
  = match List.find f l1 with Some x => Some x | None => List.find f l2 end.
Proof.
  induction l1 as [|x l1 IH]; simpl; [reflexivity|]. now destruct (f x).
Qed.

Lemma runLLM_cron_schedules :
  forall (w : nat) db a memory msgs db2 w2,
    Examples.runLLM_cron w db a memory = (Ok msgs, db2, w2) ->
    alive db2 (hash a) /\ forall h, alive db h -> alive db2 h.
Proof.
  intros w db a memory msgs db2 w2 [= _ <- _]. unfold alive, aliveSignal. simpl. split.
  - rewrite find_app.
    destruct (List.find _ (signals db)); [discriminate|]. simpl.
    rewrite String.eqb_refl. discriminate.
  - intros h Hh. rewrite find_app.
    destruct (List.find _ (signals db)); [discriminate | contradiction].
Defined.

Lemma second_pass_changes_nothing_witness :
  (forall (w : nat) db a memory msgs db2 w2,
      Examples.runLLM_cron w db a memory = (Ok msgs, db2, w2) ->
      alive db2 (hash a) /\ forall h, alive db h -> alive db2 h)
  /\ let first :=
       rescheduleAutomations SchedulerStep.Examples.readMemory Examples.runLLM_cron
         SchedulerStep.Examples.nowISO SchedulerStep.Examples.JSON_stringify
         SchedulerStep.Examples.fresh [SchedulerStep.Examples.coffee; Examples.lights] in
     fst first = Ok tt
     /\ length (automationLogs (db (snd first))) = 2
     /\ rescheduleAutomations SchedulerStep.Examples.readMemory Examples.runLLM_cron
          SchedulerStep.Examples.nowISO SchedulerStep.Examples.JSON_stringify
          (snd first) [SchedulerStep.Examples.coffee; Examples.lights]
        = (Ok tt, snd first).
Proof.
  split; [exact runLLM_cron_schedules|]. cbv zeta.
  split; [reflexivity|]. split; [reflexivity|].
  apply (second_pass_changes_nothing SchedulerStep.Examples.readMemory Examples.runLLM_cron
           SchedulerStep.Examples.nowISO SchedulerStep.Examples.JSON_stringify
           runLLM_cron_schedules SchedulerStep.Examples.fresh).
  reflexivity.
Defined.

Lemma runLLM_cron_keeps_logs :
  forall (w : nat) db a memory result db2 w2,
    Examples.runLLM_cron w db a memory = (result, db2, w2) ->
    automationLogs db2 = automationLogs db.
Proof. intros w db a memory result db2 w2 [= _ <- _]. reflexivity. Defined.

Lemma log_is_append_only_witness :
  (forall (w : nat) db a memory result db2 w2,
      Examples.runLLM_cron w db a memory = (result, db2, w2) ->
      automationLogs db2 = automationLogs db)
  /\ exists started rows,
      scheduled (snd (rescheduleAutomations SchedulerStep.Examples.readMemory
                        Examples.runLLM_cron SchedulerStep.Examples.nowISO
                        SchedulerStep.Examples.JSON_stringify
                        SchedulerStep.Examples.scheduledAlready
                        [SchedulerStep.Examples.coffee; Examples.lights]))
      = scheduled SchedulerStep.Examples.scheduledAlready ++ started /\
      sublist started [SchedulerStep.Examples.coffee; Examples.lights] /\
      automationLogs
        (db (snd (rescheduleAutomations SchedulerStep.Examples.readMemory
                    Examples.runLLM_cron SchedulerStep.Examples.nowISO
                    SchedulerStep.Examples.JSON_stringify
                    SchedulerStep.Examples.scheduledAlready
                    [SchedulerStep.Examples.coffee; Examples.lights])))
      = automationLogs (db SchedulerStep.Examples.scheduledAlready) ++ rows /\
      Forall determineSignalRow rows /\
      length rows <= length started /\
      (Ok tt = Ok tt -> map automationHash rows = map (fun a => Some (hash a)) started).
Proof.
  split; [exact runLLM_cron_keeps_logs|].
  apply (log_is_append_only SchedulerStep.Examples.readMemory Examples.runLLM_cron
           SchedulerStep.Examples.nowISO SchedulerStep.Examples.JSON_stringify
           runLLM_cron_keeps_logs [SchedulerStep.Examples.coffee; Examples.lights]
           SchedulerStep.Examples.scheduledAlready (Ok tt)).
  reflexivity.
Defined.

End SchedulerMoreFacts.

(** ** More on the graders and the totals *)

Module EvalTotalsFacts.
Import EvalFramework EvalFrameworkFacts EvalTotals.

Lemma filter_all {A : Type} (f : A -> bool) (l : list A) :
  length (List.filter f l) = length l <-> Forall (fun x => f x = true) l.
Proof.
  induction l as [|x l IH]; simpl.
  - split; [constructor | reflexivity].
  - destruct (f x) eqn:Hx; simpl.
    + split.
      * intros [= H]. constructor; [exact Hx | now apply IH].
      * intros H. inversion H; subst. f_equal. now apply IH.
    + split.
      * intros H. pose proof (filter_length_le f l). lia.
      * intros H. inversion H; subst. congruence.
Qed.

Lemma filter_none {A : Type} (f : A -> bool) (l : list A) :
  length (List.filter f l) = 0 <-> Forall (fun x => f x = false) l.
Proof.
  induction l as [|x l IH]; simpl.
  - split; [constructor | reflexivity].
  - destruct (f x) eqn:Hx; simpl.
    + split; [discriminate|]. intros H. inversion H; subst. congruence.
    + split.
      * intros H. constructor; [exact Hx | now apply IH].
      * intros H. inversion H; subst. now apply IH.
Qed.

Lemma filter_length_perm {A : Type} (f : A -> bool) (l l' : list A) :
  l ≡ₚ l' -> length (List.filter f l) = length (List.filter f l').
Proof.
  induction 1 as [|x l l' _ IH|x y l|l l' l'' _ IH1 _ IH2]; simpl.
  - reflexivity.
  - destruct (f x); simpl; lia.
  - destruct (f x), (f y); simpl; lia.
  - lia.
Qed.

Lemma sumZ_app (l l' : list Z) : sumZ (l ++ l') = (sumZ l + sumZ l')%Z.
Proof. induction l as [|x l IH]; simpl; lia. Qed.

Lemma sums_bounded (results : list GradeResult) :
  Forall bounded results ->
  (0 <= sumZ (map score results) <= sumZ (map possible_score results))%Z.
Proof.
  induction 1 as [|g l Hg _ IH]; simpl; [lia|]. unfold bounded in Hg. lia.
Qed.

Section Graders.

Context {MessageParam McpServer : Type}.
Variable messagesToString : list (option MessageParam) -> string.
Variable executePromptWithTools :
  string -> list McpServer -> Result (list MessageParam).
Variable asyncMapValues :
  list (Grader MessageParam) -> (Grader MessageParam -> Result GradeResult) ->
  Result (list GradeResult).

Local Abbreviation runScenario := (runScenario executePromptWithTools asyncMapValues).

Lemma scenario_totals prompt tools toolsDescription graders r :
  runScenario prompt tools toolsDescription graders = Ok r ->
  finalScore r = sumZ (map score (gradeResults r)) /\
  finalScorePossible r = sumZ (map possible_score (gradeResults r)).
Proof.
  unfold EvalFramework.runScenario.
  destruct (executePromptWithTools prompt tools) as [messages|e]; [|discriminate].
  destruct (asyncMapValues graders _) as [results|e]; [|discriminate].
  rewrite totals_fold. intros [= <-]. simpl. split; reflexivity.
Qed.

(** X12: a scenario whose grades all lie between 0 and their possible
    score has a final score between 0 and its final possible score. *)
Theorem scenario_totals_bounded prompt tools toolsDescription graders r :
  runScenario prompt tools toolsDescription graders = Ok r ->
  Forall bounded (gradeResults r) ->
  (0 <= finalScore r <= finalScorePossible r)%Z.
Proof.
  intros Hrun Hbounded. destruct (scenario_totals _ _ _ _ _ Hrun) as [-> ->].
  now apply sums_bounded.
Qed.

(** X13: the content grader gives the full score exactly when every
    needle occurs in the last message, and the score 0 exactly when none
    does; the order of the needles does not matter to the score. *)
Theorem content_grader_extremes (content : list string) (messages : list MessageParam) :
  exists r,
    gradeViaSearchForContent messagesToString content messages = Ok r /\
    (score r = possible_score r <->
     Forall (fun needle =>
               JsString.includes (messagesToString [last messages]) needle = true)
            content) /\
    (score r = 0%Z <->
     Forall (fun needle =>
               JsString.includes (messagesToString [last messages]) needle = false)
            content) /\
    (forall content' r',
        content ≡ₚ content' ->
        gradeViaSearchForContent messagesToString content' messages = Ok r' ->
        score r' = score r /\ possible_score r' = possible_score r).
Proof.
  eexists. split; [reflexivity|]. simpl. rewrite count_fold.
  split; [|split].
  - rewrite <- filter_all. lia.
  - rewrite <- filter_none. lia.
  - intros content' r' Hperm [= <-]. simpl. rewrite count_fold.
    rewrite (filter_length_perm _ _ _ Hperm), (Permutation_length Hperm).
    split; reflexivity.
Qed.

Lemma overall_fold (results : list (ScenarioResult MessageParam)) (a b : Z) :
  fold_left addResult results (a, b)
  = ((a + sumZ (map finalScore results))%Z,
     (b + sumZ (map finalScorePossible results))%Z).
Proof.
  revert a b. induction results as [|x results IH]; intros a b; simpl.
  - f_equal; lia.
  - unfold addResult at 2. simpl. rewrite IH. f_equal; lia.
Qed.

Lemma total_is_overall (results : list (ScenarioResult MessageParam)) :
  totalScore results = overallScore results.
Proof. now destruct results. Qed.

(** X14: over scenario results that [runScenario] returned, the total of
    the evals page and the overall score of [evalCommand] are the same
    pair: the sum of the scores and the sum of the possible scores of
    every grade of every scenario.  With every grade within its range the
    total score lies between 0 and the total possible score. *)
Theorem total_score_sums_grades (results : list (ScenarioResult MessageParam)) :
  Forall (fun r => exists prompt tools toolsDescription graders,
              runScenario prompt tools toolsDescription graders = Ok r) results ->
  totalScore results = overallScore results /\
  overallScore results
  = (sumZ (map score (allGrades results)),
     sumZ (map possible_score (allGrades results))) /\
  (Forall bounded (allGrades results) ->
   (0 <= fst (overallScore results) <= snd (overallScore results))%Z).
Proof.
  intros Hran. split; [apply total_is_overall|].
  assert (Hsum : overallScore results
                 = (sumZ (map score (allGrades results)),
                    sumZ (map possible_score (allGrades results)))).
  { unfold overallScore. rewrite overall_fold. unfold allGrades.
    induction Hran as [|r l (prompt & tools & descr & graders & Hr) _ IH]; [reflexivity|].
    destruct (scenario_totals _ _ _ _ _ Hr) as [Hs Hp].
    injection IH as IHs IHp. simpl. rewrite !map_app, !sumZ_app, Hs, Hp.
    f_equal; lia. }
  split; [exact Hsum|].
  intros Hbounded. rewrite Hsum. simpl. now apply sums_bounded.
Qed.

End Graders.

Lemma scenario_totals_bounded_witness :
  exists r,
    runScenario Examples.scripted Examples.inOrder "What services are available?" []
      "List services"
      [gradeViaSearchForContent Examples.lastText ["On"; "Off"];
       gradeViaSearchForContent Examples.lastText ["lights"]] = Ok r /\
    Forall bounded (gradeResults r) /\
    (0 <= finalScore r <= finalScorePossible r)%Z.
Proof.
  eexists. split; [reflexivity|].
  assert (Hb : Forall bounded
                 [ {| score := 1; possible_score := 2;
                      grader_info := "Looking for " +:+ doubleQuote +:+ "On" +:+ doubleQuote
                                     +:+ ", " +:+ doubleQuote +:+ "Off" +:+ doubleQuote |};
                   {| score := 1; possible_score := 1;
                      grader_info := "Looking for " +:+ doubleQuote +:+ "lights"
                                     +:+ doubleQuote |} ]).
  { repeat constructor; unfold bounded; simpl; lia. }
  split; [exact Hb|].
  exact (scenario_totals_bounded Examples.scripted Examples.inOrder
           "What services are available?" [] "List services"
           [gradeViaSearchForContent Examples.lastText ["On"; "Off"];
            gradeViaSearchForContent Examples.lastText ["lights"]] _ eq_refl Hb).
Defined.

Lemma content_grader_extremes_witness :
  exists r,
    gradeViaSearchForContent Examples.lastText ["On"; "Off"]
      ["What services are available?"; "You can turn the lights On."] = Ok r /\
    forall r',
      gradeViaSearchForContent Examples.lastText ["Off"; "On"]
        ["What services are available?"; "You can turn the lights On."] = Ok r' ->
      score r' = score r /\ possible_score r' = possible_score r.
Proof.
  destruct (content_grader_extremes Examples.lastText ["On"; "Off"]
              ["What services are available?"; "You can turn the lights On."])
    as (r & Hr & _ & _ & Hperm).
  exists r. split; [exact Hr|].
  intros r'. apply Hperm. apply perm_swap.
Defined.

Lemma total_score_sums_grades_witness :
  exists r,
    runScenario Examples.scripted Examples.inOrder "What services are available?" []
      "List services"
      [gradeViaSearchForContent Examples.lastText ["On"; "Off"];
       gradeViaSearchForContent Examples.lastText ["lights"]] = Ok r /\
    totalScore [r; r] = overallScore [r; r] /\
    overallScore [r; r] = (4, 6)%Z.
Proof.
  eexists. split; [reflexivity|].
  refine (let H := total_score_sums_grades Examples.scripted Examples.inOrder
                     [_; _] _ in conj (proj1 H) (proj1 (proj2 H))).
  repeat constructor;
    exists "What services are available?", [], "List services",
      [gradeViaSearchForContent Examples.lastText ["On"; "Off"];
       gradeViaSearchForContent Examples.lastText ["lights"]]; reflexivity.
Defined.

End EvalTotalsFacts.

(** ** More on the configuration *)

Module ConfigBootFacts.
Import Config ConfigFacts ConfigBoot.

Lemma truthy_idem (s : option string) : truthy (truthy s) = truthy s.
Proof. now destruct s as [[|c s]|]. Qed.

Lemma truthy_some_nonEmpty (s : option string) : nonEmpty (truthy s).
Proof. unfold nonEmpty. now destruct s as [[|c s]|]. Qed.

(** *** What [loadConfig] yields *)

Lemma loadProvider_named (entry : string * Toml.Value) :
  Forall (fun p => providerName p <> None) (loadProvider entry).
Proof.
  destruct entry as [k [s|t]]; simpl.
  - destruct (String.eqb k "key"); repeat constructor; discriminate.
  - repeat constructor; discriminate.
Qed.

Lemma loadProviders_named (entries : list (string * Toml.Value)) :
  Forall (fun p => providerName p <> None) (flat_map loadProvider entries).
Proof.
  induction entries as [|e l IH]; simpl; [constructor|].
  apply Forall_app. split; [apply loadProvider_named | exact IH].
Qed.

Section Load.

Context {Text : Type}.
Variable toml_parse : Text -> option Toml.t.

(** X15: whatever the file holds, the configuration [loadConfig] returns
    has either no list of providers or a list that is not empty, and
    every provider of it has a name. *)
Theorem loaded_providers_named (filePath : string) (fs : gmap string Text) :
  openAIProviders (loadConfig toml_parse filePath fs) <> Some [] /\
  Forall (fun p => providerName p <> None)
         (default [] (openAIProviders (loadConfig toml_parse filePath fs))).
Proof.
  unfold loadConfig. destruct (fs !! filePath ≫= toml_parse) as [t|]; simpl.
  - pose proof (loadProviders_named (default [] (Toml.openai t))) as Hnamed.
    destruct (flat_map loadProvider (default [] (Toml.openai t))) as [|p ps].
    + split; [discriminate | constructor].
    + split; [discriminate | exact Hnamed].
  - split; [discriminate | constructor].
Qed.

End Load.

(** *** What [saveConfig] writes *)

Lemma set_keys (k k' : string) (v : Toml.Value) (o : list (string * Toml.Value)) :
  In k' (map fst (Toml.set k v o)) <-> k' = k \/ In k' (map fst o).
Proof.
  induction o as [|[k0 v0] o IH]; simpl.
  - intuition.
  - destruct (String.eqb_spec k0 k) as [->|Hne]; simpl; [intuition|].
    rewrite IH. intuition.
Qed.

Lemma set_NoDup (k : string) (v : Toml.Value) (o : list (string * Toml.Value)) :
  List.NoDup (map fst o) -> List.NoDup (map fst (Toml.set k v o)).
Proof.
  induction o as [|[k0 v0] o IH]; simpl; intros Hdup.
  - constructor; [tauto | constructor].
  - apply List.NoDup_cons_iff in Hdup. destruct Hdup as [Hfresh Hdup].
    destruct (String.eqb_spec k0 k) as [->|Hne]; simpl.
    + now constructor.
    + constructor; [|now apply IH].
      rewrite set_keys. intros [->|Hin]; tauto.
Qed.

Lemma set_Forall (P : string * Toml.Value -> Prop) (k : string) (v : Toml.Value)
    (o : list (string * Toml.Value)) :
  P (k, v) -> Forall P o -> Forall P (Toml.set k v o).
Proof.
  intros Hkv. induction 1 as [|[k0 v0] o H0 Ho IH]; simpl.
  - now repeat constructor.
  - destruct (String.eqb k0 k); constructor; assumption.
Qed.

Lemma saveProvider_wellFormed (o : list (string * Toml.Value)) (p : OpenAIProviderConfig) :
  List.NoDup (map fst o) -> Forall wellFormedEntry o ->
  List.NoDup (map fst (saveProvider o p)) /\ Forall wellFormedEntry (saveProvider o p).
Proof.
  intros Hdup Hwf. unfold saveProvider.
  destruct (providerName p) as [name|]; [|now split].
  destruct (String.eqb_spec name "openai") as [->|Hne].
  - destruct (apiKey p) as [[|c k]|]; simpl; try (now split).
    split; [now apply set_NoDup|]. apply set_Forall; [|exact Hwf].
    split; [reflexivity | discriminate].
  - destruct (JsString.truthy name) eqn:Hname; [|now split].
    assert (Hnonempty : name <> "") by (intros ->; discriminate).
    pose proof (truthy_some_nonEmpty (baseURL p)) as Hurl.
    pose proof (truthy_some_nonEmpty (apiKey p)) as Hkey.
    cbn [Toml.base_url Toml.key].
    destruct (String.eqb_spec name "__proto__") as [Hproto|Hproto];
      destruct (truthy (baseURL p)) as [url|] eqn:Eurl;
      destruct (truthy (apiKey p)) as [k|] eqn:Ekey; try (now split);
      (split; [now apply set_NoDup|]; apply set_Forall; [|exact Hwf]);
      simpl; repeat split; try discriminate; try assumption;
      solve [left; discriminate | right; discriminate].
Qed.

Lemma saveProviders_wellFormed (ps : list OpenAIProviderConfig) :
  forall o,
    List.NoDup (map fst o) -> Forall wellFormedEntry o ->
    List.NoDup (map fst (fold_left saveProvider ps o))
    /\ Forall wellFormedEntry (fold_left saveProvider ps o).
Proof.
  induction ps as [|p ps IH]; intros o Hdup Hwf; simpl; [now split|].
  destruct (saveProvider_wellFormed o p Hdup Hwf) as [Hdup' Hwf']. now apply IH.
Qed.

Lemma openai_well_formed (config : AppConfig) :
  Toml.openai (tomlStructure config) <> Some [] /\
  List.NoDup (map fst (default [] (Toml.openai (tomlStructure config)))) /\
  Forall wellFormedEntry (default [] (Toml.openai (tomlStructure config))).
Proof.
  unfold tomlStructure. cbn [Toml.openai].
  destruct (openAIProviders config) as [[|p ps]|];
    try (repeat split; [discriminate | constructor | constructor]).
  assert (Hfirst : List.NoDup (map fst (saveProvider [] p))
                   /\ Forall wellFormedEntry (saveProvider [] p))
    by (apply saveProvider_wellFormed; constructor).
  destruct Hfirst as [Hdup0 Hwf0].
  destruct (saveProviders_wellFormed ps (saveProvider [] p) Hdup0 Hwf0) as [Hdup Hwf].
  cbn [fold_left].
  destruct (fold_left saveProvider ps (saveProvider [] p)) as [|e es]; simpl.
  - split; [discriminate|]. split; constructor.
  - split; [discriminate|]. split; assumption.
Qed.

(** X16: the document [saveConfig] hands to the TOML library holds no
    empty string; its table [openai], when it has one, is not empty, its
    properties are distinct, and each is either the string [key] or a
    table with a field at least, under a name that is neither empty nor
    [openai] nor [__proto__]. *)
Theorem saved_document_well_formed (config : AppConfig) :
  wellFormed (tomlStructure config).
Proof.
  unfold wellFormed, tomlStructure. cbn [Toml.ha_base_url Toml.ha_token Toml.timezone
    Toml.automation_model Toml.vision_model Toml.anthropic Toml.ollama Toml.openai].
  repeat (split; [apply truthy_some_nonEmpty|]).
  split; [|split].
  - intros a. pose proof (truthy_some_nonEmpty (anthropicApiKey config)) as Hne.
    destruct (truthy (anthropicApiKey config)); simpl; [|discriminate].
    intros [= <-]. simpl. split; [discriminate | exact Hne].
  - intros o. pose proof (truthy_some_nonEmpty (ollamaHost config)) as Hne.
    destruct (truthy (ollamaHost config)); simpl; [|discriminate].
    intros [= <-]. simpl. split; [discriminate | exact Hne].
  - apply openai_well_formed.
Qed.

(** *** Saving what was loaded *)

Lemma entry_load_save (entry : string * Toml.Value) (o : list (string * Toml.Value)) :
  wellFormedEntry entry ->
  exists p, loadProvider entry = [p]
            /\ saveProvider o p = Toml.set (fst entry) (snd entry) o.
Proof.
  destruct entry as [k [s|[url key]]]; simpl.
  - intros [-> Hs]. eexists. split; [reflexivity|].
    unfold saveProvider. simpl. destruct s; [congruence | reflexivity].
  - intros (Hk & Hopenai & Hproto & Hfield & Hurl & Hkey).
    eexists. split; [reflexivity|].
    unfold saveProvider. simpl.
    destruct (String.eqb_spec k "openai") as [->|_]; [congruence|].
    destruct (String.eqb_spec k "__proto__") as [->|_]; [congruence|].
    destruct k as [|c k]; [congruence|]. simpl.
    rewrite (truthy_nonEmpty url), (truthy_nonEmpty key) by assumption.
    destruct url, key; try reflexivity. destruct Hfield; congruence.
Qed.

Lemma entries_load_save (entries : list (string * Toml.Value)) :
  forall o,
    List.NoDup (map fst (o ++ entries)) -> Forall wellFormedEntry entries ->
    fold_left saveProvider (flat_map loadProvider entries) o = o ++ entries.
Proof.
  induction entries as [|e l IH]; intros o Hdup Hwf; simpl.
  - now rewrite app_nil_r.
  - inversion Hwf as [|? ? He Hl]; subst.
    destruct (entry_load_save e o He) as (p & -> & Hsave). simpl. rewrite Hsave.
    rewrite set_fresh.
    + destruct e as [k v]. simpl. rewrite IH; [now rewrite <- app_assoc| |exact Hl].
      now rewrite <- app_assoc.
    + rewrite map_app in Hdup. simpl in Hdup. apply NoDup_remove_2 in Hdup.
      intros Hin. apply Hdup. apply in_or_app. now left.
Qed.

Lemma entry_loads_one (entry : string * Toml.Value) :
  wellFormedEntry entry -> loadProvider entry <> [].
Proof.
  intros He. destruct (entry_load_save entry [] He) as (p & -> & _). discriminate.
Qed.

Lemma document_stable (config : AppConfig) :
  tomlStructure (fromToml (tomlStructure config)) = tomlStructure config.
Proof.
  destruct (openai_well_formed config) as (Hnil & Hdup & Hwf).
  unfold tomlStructure at 1. unfold fromToml.
  cbn [haBaseUrl haToken timezone automationModel visionModel anthropicApiKey
       ollamaHost openAIProviders].
  set (T := tomlStructure config) in *.
  assert (Hopenai :
    match
      match flat_map loadProvider (default [] (Toml.openai T)) with
      | [] => None
      | providers => Some providers
      end
    with
    | Some (p :: ps) =>
        match fold_left saveProvider (p :: ps) [] with
        | [] => None
        | openai => Some openai
        end
    | _ => None
    end = Toml.openai T).
  { destruct (Toml.openai T) as [[|e es]|] eqn:E; simpl; [congruence| |reflexivity].
    simpl in Hdup, Hwf.
    pose proof (entries_load_save (e :: es) [] Hdup Hwf) as Hfold.
    inversion Hwf as [|? ? He _]; subst.
    pose proof (entry_loads_one e He) as Hone. simpl in Hfold.
    destruct (loadProvider e ++ flat_map loadProvider es) as [|p ps] eqn:Eps.
    - destruct (loadProvider e); [congruence | discriminate].
    - simpl in Hfold. simpl. rewrite Hfold. reflexivity. }
  rewrite Hopenai. subst T. unfold tomlStructure. simpl.
  rewrite !truthy_idem.
  f_equal.
  - now destruct (automationModel config).
  - now destruct (visionModel config).
  - now destruct (anthropicApiKey config) as [[|c k]|].
  - now destruct (ollamaHost config) as [[|c k]|].
Qed.

Section Files.

Context {Text : Type}.
Variable toml_stringify : Toml.t -> Text.
Variable toml_parse : Text -> option Toml.t.
Variable getConfigFilePath : string -> string.

Local Abbreviation saveConfig := (saveConfig toml_stringify).
Local Abbreviation loadConfig := (loadConfig toml_parse).
Variable writeRefused : string -> gmap string Text -> option string.
Local Abbreviation createConfigViaEnv :=
  (createConfigViaEnv toml_stringify toml_parse getConfigFilePath writeRefused).

(** X17: when the TOML library reads back the document that was written
    for a configuration, saving what [loadConfig] returns leaves the
    files as they are, whatever the configuration was: what the first
    save dropped or merged stays so. *)
Theorem save_load_save (config : AppConfig) (filePath : string) (fs : gmap string Text) :
  toml_parse (toml_stringify (tomlStructure config)) = Some (tomlStructure config) ->
  let saved := saveConfig config filePath fs in
  saveConfig (loadConfig filePath saved) filePath saved = saved.
Proof.
  intros Hlib saved. subst saved. unfold Config.saveConfig, Config.loadConfig.
  rewrite lookup_insert_eq. simpl. rewrite Hlib, document_stable.
  apply insert_insert_eq.
Qed.

(** What a boot that returns has done. *)
Lemma boot_returns (notebookDirectory : string) (fs files : gmap string Text)
    (config : AppConfig) :
  createConfigViaEnv notebookDirectory fs = (Ok config, files) ->
  writeRefused (getConfigFilePath notebookDirectory) fs = None /\
  config
  = migrateConfig
      match fs !! getConfigFilePath notebookDirectory with
      | Some _ => loadConfig (getConfigFilePath notebookDirectory) fs
      | None => defaultConfig
      end /\
  files = saveConfig config (getConfigFilePath notebookDirectory) fs.
Proof.
  unfold ConfigBoot.createConfigViaEnv, saveConfigOrThrow.
  destruct (writeRefused (getConfigFilePath notebookDirectory) fs); [discriminate|].
  intros [= <- <-]. repeat split.
Qed.

(** What a boot does after a boot that returned, when the library reads
    back what that one wrote. *)
Lemma boot_again (notebookDirectory : string) (fs files : gmap string Text)
    (config : AppConfig) :
  createConfigViaEnv notebookDirectory fs = (Ok config, files) ->
  toml_parse (toml_stringify (tomlStructure config)) = Some (tomlStructure config) ->
  createConfigViaEnv notebookDirectory files
  = match writeRefused (getConfigFilePath notebookDirectory) files with
    | Some error => (Err error, files)
    | None =>
        (Ok (migrateConfig (fromToml (tomlStructure config))),
         saveConfig (migrateConfig (fromToml (tomlStructure config)))
           (getConfigFilePath notebookDirectory) files)
    end.
Proof.
  intros Hfirst Hlib. destruct (boot_returns _ _ _ _ Hfirst) as (_ & _ & ->).
  unfold ConfigBoot.createConfigViaEnv, saveConfigOrThrow, Config.saveConfig,
    Config.loadConfig.
  rewrite lookup_insert_eq. cbn [mbind option_bind]. rewrite Hlib.
  now destruct (writeRefused _ _).
Qed.

(** X19: after a boot that returned a configuration whose time zone is
    not the empty string, and when the TOML library reads back the
    document that boot wrote, the next boot leaves the files as they
    are; the configuration it returns, and it returns one unless the
    write is refused, has the same document. *)
Theorem second_boot_keeps_files (notebookDirectory : string)
    (fs files : gmap string Text) (config : AppConfig) :
  createConfigViaEnv notebookDirectory fs = (Ok config, files) ->
  timezone config <> Some "" ->
  toml_parse (toml_stringify (tomlStructure config)) = Some (tomlStructure config) ->
  snd (createConfigViaEnv notebookDirectory files) = files /\
  (forall config',
      fst (createConfigViaEnv notebookDirectory files) = Ok config' ->
      tomlStructure config' = tomlStructure config) /\
  (writeRefused (getConfigFilePath notebookDirectory) files = None ->
   exists config', fst (createConfigViaEnv notebookDirectory files) = Ok config').
Proof.
  intros Hfirst Htz Hlib. rewrite (boot_again _ _ _ _ Hfirst Hlib).
  assert (Hzone : exists zone, timezone config = Some zone /\ zone <> "").
  { destruct (boot_returns _ _ _ _ Hfirst) as (_ & Hconfig & _).
    rewrite Hconfig in Htz |- *. unfold migrateConfig in *. cbn [timezone] in *.
    eexists. split; [reflexivity | congruence]. }
  destruct Hzone as (zone & Hzone & Hnonempty).
  assert (Hmig : migrateConfig (fromToml (tomlStructure config))
                 = fromToml (tomlStructure config)).
  { unfold migrateConfig, fromToml. cbn [haBaseUrl haToken timezone automationModel
      visionModel anthropicApiKey ollamaHost openAIProviders].
    f_equal. unfold tomlStructure. cbn [Toml.timezone]. rewrite Hzone.
    destruct zone; [congruence | reflexivity]. }
  rewrite Hmig. destruct (boot_returns _ _ _ _ Hfirst) as (_ & _ & Hfiles).
  destruct (writeRefused (getConfigFilePath notebookDirectory) files) as [error|];
    cbn [fst snd].
  - split; [reflexivity|]. split; [discriminate | discriminate].
  - split; [|split].
    + rewrite Hfiles. unfold Config.saveConfig. rewrite document_stable.
      apply insert_insert_eq.
    + intros config' [= <-]. apply document_stable.
    + intros _. eauto.
Qed.

(** X20: a configuration file whose time zone is the empty string keeps
    it through one boot, which returns the empty time zone and writes a
    document without one; the next boot, unless its write is refused,
    returns [Etc/UTC]. *)
Theorem empty_timezone_migrates_late (notebookDirectory : string)
    (fs files : gmap string Text) (parsedToml : Toml.t) (config : AppConfig) :
  fs !! getConfigFilePath notebookDirectory ≫= toml_parse = Some parsedToml ->
  Toml.timezone parsedToml = Some "" ->
  createConfigViaEnv notebookDirectory fs = (Ok config, files) ->
  toml_parse (toml_stringify (tomlStructure config)) = Some (tomlStructure config) ->
  timezone config = Some "" /\
  Toml.timezone (tomlStructure config) = None /\
  (forall config',
      fst (createConfigViaEnv notebookDirectory files) = Ok config' ->
      timezone config' = Some "Etc/UTC") /\
  (writeRefused (getConfigFilePath notebookDirectory) files = None ->
   exists config', fst (createConfigViaEnv notebookDirectory files) = Ok config').
Proof.
  intros Hfile Htz Hfirst Hlib. rewrite (boot_again _ _ _ _ Hfirst Hlib).
  destruct (boot_returns _ _ _ _ Hfirst) as (_ & Hconfig & _).
  assert (Hempty : timezone config = Some "").
  { rewrite Hconfig. unfold Config.loadConfig.
    destruct (fs !! getConfigFilePath notebookDirectory) as [text|]; [|discriminate].
    rewrite Hfile. unfold migrateConfig, fromToml. cbn [timezone]. now rewrite Htz. }
  assert (Hgone : Toml.timezone (tomlStructure config) = None).
  { unfold tomlStructure. cbn [Toml.timezone]. now rewrite Hempty. }
  split; [exact Hempty|]. split; [exact Hgone|].
  destruct (writeRefused (getConfigFilePath notebookDirectory) files) as [error|];
    cbn [fst].
  - split; [discriminate | discriminate].
  - split; [|eauto]. intros config' [= <-].
    unfold migrateConfig, fromToml. cbn [timezone]. now rewrite Hgone.
Qed.

End Files.

(** X21: [getDriverList] lists no driver exactly when the configuration
    has no Anthropic key, no Ollama host and no OpenAI provider; it lists
    one driver for each OpenAI provider; and two configurations that
    differ in the order of their providers only list the same drivers,
    up to their order. *)
Theorem driver_list_spec (config : AppConfig) :
  (getDriverList config = [] <->
   truthy (anthropicApiKey config) = None /\ truthy (ollamaHost config) = None /\
   default [] (openAIProviders config) = []) /\
  length (default [] (openAIProviders config)) <= length (getDriverList config) /\
  (forall other, sameConfig config other ->
                 getDriverList config ≡ₚ getDriverList other).
Proof.
  unfold getDriverList. split; [|split].
  - destruct (truthy (anthropicApiKey config)), (truthy (ollamaHost config)),
      (openAIProviders config) as [[|p ps]|]; simpl; intuition congruence.
  - rewrite !length_app.
    destruct (openAIProviders config) as [[|p ps]|]; simpl; rewrite ?length_map; lia.
  - intros other (_ & _ & _ & _ & _ & <- & <- & Hps).
    do 2 apply Permutation_app_head.
    destruct (openAIProviders config) as [x|], (openAIProviders other) as [y|];
      try contradiction; [|reflexivity].
    apply (Permutation_map (fun x => default "openai" (providerName x))) in Hps.
    destruct x as [|p ps], y as [|q qs]; exact Hps.
Qed.

Lemma save_load_save_witness :
  Config.saveConfig Examples.toml_stringify
    (Config.loadConfig Examples.toml_parse "config.toml"
       (Config.saveConfig Examples.toml_stringify Examples.twoGoogles "config.toml" ∅))
    "config.toml"
    (Config.saveConfig Examples.toml_stringify Examples.twoGoogles "config.toml" ∅)
  = Config.saveConfig Examples.toml_stringify Examples.twoGoogles "config.toml" ∅.
Proof.
  apply (save_load_save Examples.toml_stringify Examples.toml_parse
           Examples.twoGoogles "config.toml" ∅).
  reflexivity.
Defined.

(** A first boot into a notebook directory that is not there returns no
    configuration: the write is refused and the error escapes. *)
Example first_boot_without_directory :
  createConfigViaEnv Examples.toml_stringify Examples.toml_parse
    ConfigBoot.Examples.getConfigFilePath ConfigBoot.Examples.noDirectory "/notebook" ∅
  = (Err "ENOENT: no such file or directory, open '/notebook/config.toml'", ∅).
Proof. reflexivity. Qed.

Lemma second_boot_keeps_files_witness :
  let first := createConfigViaEnv Examples.toml_stringify Examples.toml_parse
                 ConfigBoot.Examples.getConfigFilePath ConfigBoot.Examples.writes
                 "/notebook" ∅ in
  first = (Ok (migrateConfig defaultConfig), snd first) /\
  timezone (migrateConfig defaultConfig) <> Some "" /\
  snd (createConfigViaEnv Examples.toml_stringify Examples.toml_parse
         ConfigBoot.Examples.getConfigFilePath ConfigBoot.Examples.writes
         "/notebook" (snd first))
  = snd first.
Proof.
  cbv zeta. split; [reflexivity|]. split; [discriminate|].
  apply (second_boot_keeps_files Examples.toml_stringify Examples.toml_parse
           ConfigBoot.Examples.getConfigFilePath ConfigBoot.Examples.writes
           "/notebook" ∅ _ (migrateConfig defaultConfig)).
  - reflexivity.
  - discriminate.
  - reflexivity.
Defined.

Lemma empty_timezone_migrates_late_witness :
  let first := createConfigViaEnv Examples.toml_stringify Examples.toml_parse
                 ConfigBoot.Examples.getConfigFilePath ConfigBoot.Examples.writes
                 "/notebook" ConfigBoot.Examples.emptyTimezone in
  (exists config, fst first = Ok config /\ timezone config = Some "" /\
                  Toml.timezone (tomlStructure config) = None) /\
  exists config',
    fst (createConfigViaEnv Examples.toml_stringify Examples.toml_parse
           ConfigBoot.Examples.getConfigFilePath ConfigBoot.Examples.writes
           "/notebook" (snd first)) = Ok config' /\
    timezone config' = Some "Etc/UTC".
Proof.
  cbv zeta.
  destruct (empty_timezone_migrates_late Examples.toml_stringify Examples.toml_parse
              ConfigBoot.Examples.getConfigFilePath ConfigBoot.Examples.writes
              "/notebook" ConfigBoot.Examples.emptyTimezone _ _ _
              eq_refl eq_refl eq_refl eq_refl)
    as (Hempty & Hgone & Hnext & Hreturns).
  split.
  - eexists. split; [reflexivity|]. split; [exact Hempty | exact Hgone].
  - destruct (Hreturns eq_refl) as (config' & Hconfig').
    exists config'. split; [exact Hconfig' | exact (Hnext config' Hconfig')].
Defined.

Lemma driver_list_spec_witness :
  getDriverList Examples.exampleFile
  ≡ₚ getDriverList
       (Examples.withProviders
          [ Examples.named "scaleway" "https://efoiwejf" "woefj";
            {| providerName := Some "openai"; baseURL := None; apiKey := Some "woefj" |};
            Examples.named "google" "https://efoiwejf" "woefj" ]).
Proof.
  apply (proj2 (proj2 (driver_list_spec Examples.exampleFile))).
  repeat split. simpl.
  apply perm_trans with
    (l' := [ {| providerName := Some "openai"; baseURL := None; apiKey := Some "woefj" |};
             Examples.named "scaleway" "https://efoiwejf" "woefj";
             Examples.named "google" "https://efoiwejf" "woefj" ]).
  - apply perm_skip, perm_swap.
  - apply perm_swap.
Defined.

End ConfigBootFacts.

(** ** File names relative to the notebook *)

Module NotebookPathsFacts.
Import JsString JsStringFacts NotebookPaths.

Lemma dropPrefix_app (pattern rest : string) :
  dropPrefix pattern (pattern +:+ rest) = Some rest.
Proof.
  induction pattern as [|a pattern IH]; simpl; [now destruct rest|].
  now rewrite Ascii.eqb_refl.
Qed.

Lemma dropPrefix_prefix (pattern s : string) :
  String.prefix pattern s = match dropPrefix pattern s with Some _ => true | None => false end.
Proof.
  revert s. induction pattern as [|a pattern IH]; intros s; simpl.
  - now destruct s.
  - destruct s as [|b s]; [reflexivity|]. simpl.
    destruct (ascii_dec a b) as [->|Hne].
    + rewrite Ascii.eqb_refl. apply IH.
    + destruct (Ascii.eqb_spec a b); [congruence | reflexivity].
Qed.

Lemma dropPrefix_length (pattern s rest : string) :
  dropPrefix pattern s = Some rest ->
  String.length rest + String.length pattern = String.length s.
Proof.
  revert s. induction pattern as [|a pattern IH]; intros s; simpl.
  - intros [= <-]. lia.
  - destruct s as [|b s]; [discriminate|].
    destruct (Ascii.eqb a b); [|discriminate].
    intros H. apply IH in H. simpl. lia.
Qed.

Lemma removeFirst_unfold (pattern s : string) :
  removeFirst pattern s
  = match dropPrefix pattern s with
    | Some rest => rest
    | None =>
        match s with
        | EmptyString => EmptyString
        | String c s' => String c (removeFirst pattern s')
        end
    end.
Proof. now destruct s. Qed.

Lemma removeFirst_app (pattern rest : string) :
  removeFirst pattern (pattern +:+ rest) = rest.
Proof. now rewrite removeFirst_unfold, dropPrefix_app. Qed.

Lemma removeFirst_absent (pattern s : string) :
  includes s pattern = false -> removeFirst pattern s = s.
Proof.
  induction s as [|c s IH]; rewrite includes_unfold, removeFirst_unfold, dropPrefix_prefix;
    destruct (dropPrefix pattern _); simpl; try discriminate; try reflexivity.
  intros H. now rewrite IH.
Qed.

Lemma removeFirst_present (pattern s : string) :
  includes s pattern = true ->
  String.length (removeFirst pattern s) + String.length pattern = String.length s.
Proof.
  induction s as [|c s IH]; rewrite includes_unfold, removeFirst_unfold, dropPrefix_prefix;
    destruct (dropPrefix pattern _) eqn:E; simpl; try discriminate;
    try (intros _; apply dropPrefix_length in E; simpl in E; lia).
  intros H. apply IH in H. lia.
Qed.

Lemma dropPrefix_all (p : ascii -> bool) (pattern s rest : string) :
  dropPrefix pattern s = Some rest -> all_chars p s = true -> all_chars p rest = true.
Proof.
  revert s. induction pattern as [|a pattern IH]; intros s; simpl.
  - now intros [= <-].
  - destruct s as [|b s]; [discriminate|].
    destruct (Ascii.eqb a b); [|discriminate].
    simpl. intros H Hall. apply andb_prop in Hall. now apply (IH s).
Qed.

Lemma removeFirst_all (p : ascii -> bool) (pattern s : string) :
  all_chars p s = true -> all_chars p (removeFirst pattern s) = true.
Proof.
  induction s as [|c s IH]; rewrite removeFirst_unfold;
    destruct (dropPrefix pattern _) eqn:E; intros Hall;
    try (now apply (dropPrefix_all p _ _ _ E)); [reflexivity|].
  simpl in *. apply andb_prop in Hall. destruct Hall as [Hc Hs].
  now rewrite Hc, IH.
Qed.

Lemma forwardSlashes_clean (s : string) : all_chars noBackslash (forwardSlashes s) = true.
Proof.
  induction s as [|c s IH]; simpl; [reflexivity|]. rewrite IH, andb_true_r.
  unfold noBackslash. destruct (Ascii.eqb_spec c backslash) as [_|Hne]; [reflexivity|].
  now destruct (Ascii.eqb_spec c backslash).
Qed.

Lemma prefix_not_empty (notebookRoot : option string) :
  notebookRootPrefix notebookRoot <> "".
Proof.
  unfold notebookRootPrefix.
  destruct (forwardSlashes (default "" notebookRoot)) as [|c s]; [discriminate|].
  destruct (endsWith (String c s) slash); discriminate.
Qed.

Lemma length_not_empty (s : string) : s <> "" -> 0 < String.length s.
Proof. destruct s; [congruence | simpl; lia]. Qed.

(** X22: in the bug-report dump, a file name that starts, once its
    backslashes are turned into slashes, with the notebook root and a
    slash is written under the rest of it; the warning is printed exactly
    when the root and its slash occur nowhere in the file name, so that a
    file outside the notebook whose name holds them further on loses
    them without a warning; and the relative path holds no backslash. *)
Theorem relative_path_spec (fileName : string) (notebookRoot : option string) :
  (forall rest,
      forwardSlashes fileName = notebookRootPrefix notebookRoot +:+ rest ->
      relativePath fileName notebookRoot = rest) /\
  (warns fileName notebookRoot = true <->
   includes (forwardSlashes fileName) (notebookRootPrefix notebookRoot) = false) /\
  all_chars noBackslash (relativePath fileName notebookRoot) = true.
Proof.
  unfold warns, relativePath. split; [|split].
  - intros rest ->. apply removeFirst_app.
  - rewrite String.eqb_eq. split.
    + intros Hsame.
      destruct (includes (forwardSlashes fileName) (notebookRootPrefix notebookRoot))
        eqn:Hin; [|reflexivity].
      apply removeFirst_present in Hin. rewrite Hsame in Hin.
      pose proof (length_not_empty _ (prefix_not_empty notebookRoot)). lia.
    + apply removeFirst_absent.
  - apply removeFirst_all, forwardSlashes_clean.
Qed.

Section Filter.

Context {Automation : Type}.
Variable contents : Automation -> string.
Variable fileName : Automation -> string.
Variable automationFromString : string -> string -> bool -> Automation.
Variable path_sep : string.

Local Abbreviation filterAutomationPaths :=
  (filterAutomationPaths contents fileName automationFromString path_sep).

(** X23: [filterAutomationPaths] answers with one automation for each it
    is given, in the same order; each is parsed again from the contents
    of the original, under the file name without the notebook directory
    and the separator when the file name starts with them, and under the
    file name itself when they occur nowhere in it. *)
Theorem filtered_paths_relative (notebookDirectory : string) (automations : list Automation) :
  Forall2
    (fun x y =>
       (forall rest,
           fileName x = notebookDirectory +:+ path_sep +:+ rest ->
           y = automationFromString (contents x) rest true) /\
       (includes (fileName x) (notebookDirectory +:+ path_sep) = false ->
        y = automationFromString (contents x) (fileName x) true))
    automations (filterAutomationPaths notebookDirectory automations).
Proof.
  induction automations as [|x l IH]; simpl; constructor; [|exact IH].
  split.
  - intros rest ->. now rewrite <- append_assoc, removeFirst_app.
  - intros Habsent. now rewrite removeFirst_absent.
Qed.

End Filter.

Lemma relative_path_spec_witness :
  relativePath "C:\notebook\automations\porch.md" (Some "C:\notebook")
  = "automations/porch.md".
Proof.
  apply (proj1 (relative_path_spec "C:\notebook\automations\porch.md" (Some "C:\notebook"))).
  reflexivity.
Defined.

(** A file outside the notebook, whose name holds the root further on:
    no warning, and a path that is not the file's. *)
Example nested_root_removed :
  relativePath "/backup/nb/porch.md" (Some "nb") = "/backup/porch.md"
  /\ warns "/backup/nb/porch.md" (Some "nb") = false.
Proof. split; reflexivity. Qed.

Lemma filtered_paths_relative_witness :
  filterAutomationPaths Examples.contents Examples.fileName Examples.automationFromString
    "/" "/home/me/notebook" [Examples.porch]
  = [Examples.automationFromString "Turn the porch light on at sunset"
       "automations/porch.md" true].
Proof.
  pose proof (filtered_paths_relative Examples.contents Examples.fileName
                Examples.automationFromString "/" "/home/me/notebook" [Examples.porch])
    as H.
  inversion H as [|x y l l' [Hunder _] Hrest]; subst.
  inversion Hrest; subst.
  now rewrite (Hunder "automations/porch.md" eq_refl).
Defined.

End NotebookPathsFacts.

(** ** The escaper of the chat page *)

Module ChatMessageFacts.
Import JsString JsStringFacts ChatMessage.

Lemma replaceAll_app (k : ascii) (v a b : string) :
  replaceAll k v (a +:+ b) = replaceAll k v a +:+ replaceAll k v b.
Proof.
  induction a as [|c a IH]; simpl; [reflexivity|].
  now rewrite IH, append_assoc.
Qed.

Lemma crappyEscaper_app (a b : string) :
  crappyEscaper (a +:+ b) = crappyEscaper a +:+ crappyEscaper b.
Proof. unfold crappyEscaper. simpl. now rewrite !replaceAll_app. Qed.

Lemma crappyEscaper_unit (c : ascii) : crappyEscaper (String c "") = entity c.
Proof.
  destruct c as [[] [] [] [] [] [] [] []]; reflexivity.
Qed.

Lemma entity_no_markup (c : ascii) : all_chars (fun c => negb (markup c)) (entity c) = true.
Proof.
  destruct c as [[] [] [] [] [] [] [] []]; reflexivity.
Qed.

Lemma escapeEach_no_markup (text : string) :
  all_chars (fun c => negb (markup c)) (escapeEach text) = true.
Proof.
  induction text as [|c text IH]; [reflexivity|].
  simpl. now rewrite all_chars_app, entity_no_markup, IH.
Qed.

(** X24: [crappyEscaper], which replaces the five code units one after
    the other, gives what replacing every code unit by its entity at
    once gives: the ampersand of an entity is never escaped again; and
    its result holds none of [<], [>] and the two quotes. *)
Theorem escaper_is_simultaneous (text : string) :
  crappyEscaper text = escapeEach text /\
  all_chars (fun c => negb (markup c)) (crappyEscaper text) = true.
Proof.
  assert (Heach : crappyEscaper text = escapeEach text).
  { induction text as [|c text IH]; [reflexivity|].
    change (String c text) with (String c "" +:+ text).
    rewrite crappyEscaper_app, crappyEscaper_unit, IH. reflexivity. }
  split; [exact Heach|]. rewrite Heach. apply escapeEach_no_markup.
Qed.

End ChatMessageFacts.
